(** * Invoice numbering and invoice totals of the invoicing application

    A shallow embedding of

    - [server/storage.ts]: [getSetting], [getNextInvoiceNumber],
      [getInvoiceItems], [getInvoice], [updateInvoice];
    - [client/src/components/invoice/invoice-form.tsx]: [invoiceItemSchema],
      [invoiceFormSchema], the [mutationFn] of [createInvoiceMutation] and of
      [updateInvoiceMutation], and [handlePreview].

    JavaScript numbers are IEEE 754 binary64 values.  They are embedded as
    [spec_float] with the operations of the standard library's executable
    specification of binary floating point ([SFmul], [SFadd], ... at precision
    53 and maximal exponent 1024), so every definition below evaluates. *)

From Stdlib Require Import ZArith NArith PArith List String Ascii Bool Lia.
From Stdlib Require Import Floats.SpecFloat.
From Stdlib Require Import DecimalString DecimalN DecimalPos.
From Stdlib Require Import Permutation Sorted.
Import ListNotations.

Local Open Scope string_scope.
Local Open Scope Z_scope.

(** ** JavaScript numbers *)

Module JS.

Definition number : Type := spec_float.

Definition prec : Z := 53.
Definition emax : Z := 1024.

Definition NaN : number := S754_nan.

(** The operators [*], [/], [+], [-] on numbers. *)
Definition mul (x y : number) : number := SFmul prec emax x y.
Definition div (x y : number) : number := SFdiv prec emax x y.
Definition add (x y : number) : number := SFadd prec emax x y.
Definition sub (x y : number) : number := SFsub prec emax x y.

(** The relational operators [<], [>], [<=] and [>=]; all are false on NaN. *)
Definition ltb (x y : number) : bool := SFltb x y.
Definition gtb (x y : number) : bool := SFltb y x.
Definition leb (x y : number) : bool := SFleb x y.
Definition geb (x y : number) : bool := SFleb y x.

(** The Number value of a mathematical integer: the nearest binary64 value,
    ties to even.  Integer literals of the source ([0], [1], [100]) are
    [ofZ] of their value. *)
Definition ofZ (z : Z) : number := binary_normalize prec emax z 0 false.

(** The Number value of the positive rational [n / d]. *)
Definition ofRatio (n d : positive) : number :=
  let '(q, e, l) := SFdiv_core_binary prec emax (Zpos n) 0 (Zpos d) 0 in
  binary_round_aux prec emax false q e l.

(** The Number value of the decimal [s * 10^j], [s] positive. *)
Definition ofDecimal (s : positive) (j : Z) : number :=
  if 0 <=? j then ofRatio (s * Z.to_pos (10 ^ j)) 1
  else ofRatio s (Z.to_pos (10 ^ (- j))).

Definition isNaN (x : number) : bool :=
  match x with S754_nan => true | _ => false end.

Definition eqb (x y : number) : bool :=
  match x, y with
  | S754_zero a, S754_zero b => Bool.eqb a b
  | S754_infinity a, S754_infinity b => Bool.eqb a b
  | S754_nan, S754_nan => true
  | S754_finite a m e, S754_finite b n f =>
      Bool.eqb a b && Pos.eqb m n && Z.eqb e f
  | _, _ => false
  end.

(** [-0] and [+0] are the same value for [SameValueZero], and print alike. *)
Definition canonZero (x : number) : number :=
  match x with S754_zero _ => S754_zero false | _ => x end.

Definition SameValueZero (x y : number) : Prop := canonZero x = canonZero y.

(** The integer a number denotes, when it is a finite integer. *)
Definition integerValue (x : number) : option Z :=
  match x with
  | S754_zero _ => Some 0
  | S754_finite s m e =>
      if 0 <=? e then Some (cond_Zopp s (Zpos m * 2 ^ e))
      else if Zpos m mod 2 ^ (- e) =? 0
           then Some (cond_Zopp s (Zpos m / 2 ^ (- e)))
           else None
  | _ => None
  end.

(** *** Strings *)

Definition decimal (n : N) : string := NilZero.string_of_uint (N.to_uint n).

Fixpoint repeat0 (n : nat) : string :=
  match n with O => EmptyString | S n' => String "0" (repeat0 n') end.

Fixpoint dropn (n : nat) (s : string) : string :=
  match n, s with
  | S n', String _ s' => dropn n' s'
  | _, _ => s
  end.

Fixpoint taken (n : nat) (s : string) : string :=
  match n, s with
  | S n', String c s' => String c (taken n' s')
  | _, _ => EmptyString
  end.

(** [s.replace(pat, rep)] for a string pattern and a replacement without
    [$] patterns: the first occurrence of [pat] is replaced. *)
Fixpoint replace (s pat rep : string) : string :=
  if String.prefix pat s then rep ++ dropn (String.length pat) s
  else match s with
       | EmptyString => EmptyString
       | String c s' => String c (replace s' pat rep)
       end.

(** [s.padStart(maxLength, "0")]. *)
Definition padStart0 (s : string) (maxLength : nat) : string :=
  if (maxLength <=? String.length s)%nat then s
  else repeat0 (maxLength - String.length s) ++ s.

(** *** Number::toString (radix 10)

    [n], [k] and [s] are integers with [k >= 1], [10^(k-1) <= s < 10^k], the
    Number value of [s * 10^(n-k)] is [x], and [k] is as small as possible;
    the digits of [s] are then laid out in fixed or in exponent notation. *)

Definition nbDigits (p : positive) : Z :=
  Z.of_nat (Decimal.nb_digits (Pos.to_uint p)).

(** The exact value of a finite number [m * 2^e] as a fraction. *)
Definition exactRatio (m : positive) (e : Z) : positive * positive :=
  if 0 <=? e then (m * Z.to_pos (2 ^ e), 1)%positive
  else (m, Z.to_pos (2 ^ (- e))).

(** The [n0] with [10^(n0-1) <= N/D < 10^n0]. *)
Definition decimalExponent (N D : positive) : Z :=
  if (D <=? N)%positive then nbDigits (Z.to_pos (Zpos N / Zpos D))
  else
    let j0 := nbDigits D - nbDigits N in
    if Zpos D <=? Zpos N * 10 ^ j0 then 1 - j0 else - j0.

(** The two [k]-digit decimals around [N/D], and the closer one first. *)
Definition candidates (N D : positive) (n0 k : Z) : positive * positive :=
  let t := k - n0 in
  let num := if 0 <=? t then Zpos N * 10 ^ t else Zpos N in
  let den := if 0 <=? t then Zpos D else Zpos D * 10 ^ (- t) in
  let lo := num / den in
  let r := num mod den in
  let hi := lo + 1 in
  let lo_first :=
    match 2 * r ?= den with
    | Lt => true
    | Gt => false
    | Eq => Z.even lo
    end in
  if lo_first then (Z.to_pos lo, Z.to_pos hi) else (Z.to_pos hi, Z.to_pos lo).

Fixpoint shortestFrom (fuel : nat) (k : Z) (x : number) (N D : positive)
  (n0 : Z) : positive * Z :=
  let '(c1, c2) := candidates N D n0 k in
  let j := n0 - k in
  match fuel with
  | O => (c1, j)
  | S fuel' =>
      if eqb (ofDecimal c1 j) x then (c1, j)
      else if eqb (ofDecimal c2 j) x then (c2, j)
      else shortestFrom fuel' (k + 1) x N D n0
  end.

Fixpoint stripZeros (fuel : nat) (s : positive) (j : Z) : positive * Z :=
  match fuel with
  | O => (s, j)
  | S fuel' =>
      if Zpos s mod 10 =? 0
      then stripZeros fuel' (Z.to_pos (Zpos s / 10)) (j + 1)
      else (s, j)
  end.

(** The digits [s] and the exponent [n] of a positive finite number. *)
Definition shortestDigits (m : positive) (e : Z) : positive * Z :=
  let '(N, D) := exactRatio m e in
  let n0 := decimalExponent N D in
  let '(s0, j0) := shortestFrom 16 1 (S754_finite false m e) N D n0 in
  let '(s, j) := stripZeros 17 s0 j0 in
  (s, nbDigits s + j).

Definition layout (s : positive) (n : Z) : string :=
  let ds := decimal (Npos s) in
  let k := nbDigits s in
  if (k <=? n) && (n <=? 21) then ds ++ repeat0 (Z.to_nat (n - k))
  else if (0 <? n) && (n <=? 21)
       then taken (Z.to_nat n) ds ++ "." ++ dropn (Z.to_nat n) ds
  else if (-6 <? n) && (n <=? 0)
       then "0." ++ repeat0 (Z.to_nat (- n)) ++ ds
  else
    let ex := (if 0 <? n - 1 then "+" else "-") ++ decimal (Z.to_N (Z.abs (n - 1))) in
    if k =? 1 then ds ++ "e" ++ ex
    else taken 1 ds ++ "." ++ dropn 1 ds ++ "e" ++ ex.

(** Integers up to [2^53] in magnitude are exactly representable and pairwise
    distinct as numbers, so their shortest digits are their own decimal digits
    (without the trailing zeros, which the layout puts back). *)
Definition toString (x : number) : string :=
  match x with
  | S754_nan => "NaN"
  | S754_zero _ => "0"
  | S754_infinity s => (if s then "-" else EmptyString) ++ "Infinity"
  | S754_finite s m e =>
      (if s then "-" else EmptyString) ++
      match integerValue (S754_finite false m e) with
      | Some z =>
          if z <=? 2 ^ 53 then decimal (Z.to_N z)
          else let '(d, n) := shortestDigits m e in layout d n
      | None => let '(d, n) := shortestDigits m e in layout d n
      end
  end.

(** *** parseInt (radix undefined)

    Strings are held as the bytes of their UTF-8 encoding; the white space
    that [parseInt] skips is matched on its encoding. *)

Definition code (c : ascii) : N := N_of_ascii c.

Definition isWhiteSpace1 (c : ascii) : bool :=
  ((9 <=? code c) && (code c <=? 13) || (code c =? 32))%N.

Definition isWhiteSpace2 (c1 c2 : ascii) : bool :=
  ((code c1 =? 194) && (code c2 =? 160))%N.

Definition isWhiteSpace3 (c1 c2 c3 : ascii) : bool :=
  let '(a, b, c) := (code c1, code c2, code c3) in
  ((a =? 225) && (b =? 154) && (c =? 128)
   || (a =? 226) && (b =? 128) && ((128 <=? c) && (c <=? 138))
   || (a =? 226) && (b =? 128) && ((c =? 168) || (c =? 169) || (c =? 175))
   || (a =? 226) && (b =? 129) && (c =? 159)
   || (a =? 227) && (b =? 128) && (c =? 128)
   || (a =? 239) && (b =? 187) && (c =? 191))%N.

Fixpoint trimStart (s : string) : string :=
  match s with
  | EmptyString => s
  | String c1 s1 =>
      if isWhiteSpace1 c1 then trimStart s1
      else
        match s1 with
        | EmptyString => s
        | String c2 s2 =>
            if isWhiteSpace2 c1 c2 then trimStart s2
            else
              match s2 with
              | EmptyString => s
              | String c3 s3 =>
                  if isWhiteSpace3 c1 c2 c3 then trimStart s3 else s
              end
        end
  end.

Definition digitValue (R : N) (c : ascii) : option N :=
  let n := code c in
  (if (48 <=? n) && (n <=? 57) then Some (n - 48)
   else if (R =? 16) && (97 <=? n) && (n <=? 102) then Some (n - 87)
   else if (R =? 16) && (65 <=? n) && (n <=? 70) then Some (n - 55)
   else None)%N.

(** The longest prefix of radix-[R] digits, as an integer; [None] when the
    prefix is empty. *)
Fixpoint parseDigits (R : N) (s : string) (acc : option N) : option N :=
  match s with
  | EmptyString => acc
  | String c s' =>
      match digitValue R c with
      | Some d =>
          parseDigits R s'
            (Some (R * match acc with Some a => a | None => 0 end + d)%N)
      | None => acc
      end
  end.

Definition parseInt (s : string) : number :=
  let S0 := trimStart s in
  let '(neg, S1) :=
    match S0 with
    | String "-" r => (true, r)
    | String "+" r => (false, r)
    | _ => (false, S0)
    end in
  let '(R, S2) :=
    match S1 with
    | String "0" (String "x" r) => (16%N, r)
    | String "0" (String "X" r) => (16%N, r)
    | _ => (10%N, S1)
    end in
  match parseDigits R S2 None with
  | None => NaN
  | Some N0 => S754_zero neg
  | Some (Npos p) => ofZ (cond_Zopp neg (Zpos p))
  end.

(** *** Numeric strings

    [x.toString()] is a decimal string that reads back as [x] (as [+0] for
    [-0]).  Such a string is kept as the number it denotes: [text] gives its
    characters and [parseFloat] reads it back. *)

Inductive NumericString : Type := Printed (x : number).

Definition Number_toString (x : number) : NumericString := Printed (canonZero x).

Definition parseFloat (s : NumericString) : number := let 'Printed x := s in x.

Definition text (s : NumericString) : string := toString (parseFloat s).

(** *** Number(text) and parseFloat(text)

    Text typed into an input is held by its characters.  [StringToNumber]
    (behind [Number(s)], [z.coerce.number()] and the operator [*] on a string)
    reads the whole text between its white space, and the empty text as [0];
    [parseFloat] reads the longest prefix that is a decimal literal. *)

Fixpoint trimEnd (s : string) : string :=
  match s with
  | EmptyString => EmptyString
  | String c s' =>
      match trimStart s with
      | EmptyString => EmptyString
      | String _ _ => String c (trimEnd s')
      end
  end.

Definition trim (s : string) : string := trimEnd (trimStart s).

Definition isDecimalDigit (c : ascii) : bool :=
  ((48 <=? code c) && (code c <=? 57))%N.

(** The longest prefix of decimal digits, read onto [acc]: the value, the
    number of digits read, and the rest. *)
Fixpoint decimalDigits (s : string) (acc : N) (n : nat) : N * nat * string :=
  match s with
  | String c s' =>
      if isDecimalDigit c
      then decimalDigits s' (10 * acc + (code c - 48))%N (S n)
      else (acc, n, s)
  | EmptyString => (acc, n, s)
  end.

(** [ExponentPart], when the text starts with one: its value and the rest. *)
Definition exponentPart (s : string) : Z * string :=
  match s with
  | String c r =>
      if ((code c =? 101) || (code c =? 69))%N then
        let '(neg, r1) :=
          match r with
          | String "-" r' => (true, r')
          | String "+" r' => (false, r')
          | _ => (false, r)
          end in
        let '(v, n, r2) := decimalDigits r1 0 0 in
        match n with
        | O => (0, s)
        | S _ => (cond_Zopp neg (Z.of_N v), r2)
        end
      else (0, s)
  | EmptyString => (0, s)
  end.

(** The Number value of the decimal [m * 10^e]. *)
Definition decimalValue (m : N) (e : Z) : number :=
  match m with
  | N0 => S754_zero false
  | Npos p => ofDecimal p e
  end.

(** The longest prefix that is a [StrUnsignedDecimalLiteral]: [Infinity],
    digits with an optional fraction, or a fraction, and an optional exponent
    part. *)
Definition StrUnsignedDecimalLiteral (s : string) : option (number * string) :=
  if String.prefix "Infinity" s then Some (S754_infinity false, dropn 8 s)
  else
    let '(i, ni, r1) := decimalDigits s 0 0 in
    match r1 with
    | String "." r1' =>
        let '(m, nf, r2) := decimalDigits r1' i 0 in
        match ni, nf with
        | O, O => None
        | _, _ =>
            let '(e, r3) := exponentPart r2 in
            Some (decimalValue m (e - Z.of_nat nf), r3)
        end
    | _ =>
        match ni with
        | O => None
        | S _ =>
            let '(e, r3) := exponentPart r1 in
            Some (decimalValue i e, r3)
        end
    end.

Definition StrDecimalLiteral (s : string) : option (number * string) :=
  match s with
  | String "+" r => StrUnsignedDecimalLiteral r
  | String "-" r =>
      option_map (fun '(v, rest) => (SFopp v, rest)) (StrUnsignedDecimalLiteral r)
  | _ => StrUnsignedDecimalLiteral s
  end.

(** A text made of radix-[R] digits only. *)
Fixpoint radixDigits (R : N) (s : string) (acc : N) : option N :=
  match s with
  | EmptyString => Some acc
  | String c s' =>
      match digitValue 16 c with
      | Some d => if (d <? R)%N then radixDigits R s' (R * acc + d)%N else None
      | None => None
      end
  end.

(** [0x], [0o] and [0b] literals. *)
Definition NonDecimalIntegerLiteral (s : string) : option number :=
  match s with
  | String "0" (String c (String d r)) =>
      let R := (if (code c =? 120) || (code c =? 88) then 16
                else if (code c =? 111) || (code c =? 79) then 8
                else if (code c =? 98) || (code c =? 66) then 2
                else 0)%N in
      option_map (fun n => ofZ (Z.of_N n)) (radixDigits R (String d r) 0)
  | _ => None
  end.

Definition StringToNumber (s : string) : number :=
  match trim s with
  | EmptyString => ofZ 0
  | String c r =>
      match StrDecimalLiteral (String c r) with
      | Some (v, EmptyString) => v
      | _ =>
          match NonDecimalIntegerLiteral (String c r) with
          | Some v => v
          | None => NaN
          end
      end
  end.

(** [parseFloat] on text. *)
Definition parseFloatText (s : string) : number :=
  match StrDecimalLiteral (trimStart s) with
  | Some (v, _) => v
  | None => NaN
  end.

(** The text is a decimal literal from its first to its last character. *)
Definition isDecimalLiteral (s : string) : bool :=
  match StrDecimalLiteral s with
  | Some (_, EmptyString) => String.eqb (trimStart s) s && String.eqb (trimEnd s) s
  | _ => false
  end.

Declare Scope js_scope.
Delimit Scope js_scope with js.
Notation "x * y" := (mul x y) : js_scope.
Notation "x / y" := (div x y) : js_scope.
Notation "x + y" := (add x y) : js_scope.
Notation "x - y" := (sub x y) : js_scope.

End JS.

(** ** server/storage.ts *)

Module Storage.
Import JS.

Inductive Status : Type := draft | sent | paid | overdue.
Inductive Currency : Type := INR | USD | EUR | GBP.

Record Client : Type := {
  client_id : string;
  companyName : string;
  contactPerson : string;
  email : string;
  phone : string;
  address : string
}.

Record Invoice : Type := {
  id : string;
  invoiceNumber : string;
  clientId : string;
  date : string;
  dueDate : string;
  status : Status;
  currency : Currency;
  subtotal : NumericString;
  taxAmount : NumericString;
  discountAmount : NumericString;
  total : NumericString;
  notes : option string;
  createdAt : Z
}.

(** [Partial<InsertInvoice>]: an absent key is [None]. *)
Record PartialInsertInvoice : Type := {
  u_invoiceNumber : option string;
  u_clientId : option string;
  u_date : option string;
  u_dueDate : option string;
  u_status : option Status;
  u_currency : option Currency;
  u_subtotal : option NumericString;
  u_taxAmount : option NumericString;
  u_discountAmount : option NumericString;
  u_total : option NumericString;
  u_notes : option string
}.

Record InsertInvoiceItem : Type := {
  i_description : string;
  i_quantity : NumericString;
  i_rate : NumericString;
  i_taxRate : NumericString;
  i_discountRate : NumericString;
  i_amount : NumericString
}.

Record InvoiceItem : Type := {
  item_id : string;
  item_invoiceId : string;
  item_description : string;
  item_quantity : NumericString;
  item_rate : NumericString;
  item_taxRate : NumericString;
  item_discountRate : NumericString;
  item_amount : NumericString
}.

Record Settings : Type := {
  key : string;
  value : string
}.

Record InvoiceWithClient : Type := {
  invoice : Invoice;
  client : option Client;
  items : list InvoiceItem
}.

(** The tables, and the supply of generated row ids. *)
Record Database : Type := {
  clients : list Client;
  invoices : list Invoice;
  invoiceItems : list InvoiceItem;
  settings : list Settings;
  nextRowId : N
}.

(** Outcome of a storage call: a returned value or a thrown error. *)
Inductive Outcome (A : Type) : Type :=
| Returned (a : A)
| Thrown (message : string).
Arguments Returned {A} a.
Arguments Thrown {A} message.

(** Sequencing: a thrown error ends the computation. *)
Definition andThen {A B : Type} (o : Outcome A) (f : A -> Outcome B)
  : Outcome B :=
  match o with
  | Returned a => f a
  | Thrown message => Thrown message
  end.

Notation "'let*' x ':=' o 'in' f" := (andThen o (fun x => f))
  (at level 10, x name, o at level 100, f at level 200).

Definition getInvoiceItems (invoiceId : string) (db : Database)
  : list InvoiceItem :=
  filter (fun it => String.eqb (item_invoiceId it) invoiceId) (invoiceItems db).

Definition getInvoice (id0 : string) (db : Database)
  : option InvoiceWithClient :=
  match filter (fun r => String.eqb (id r) id0) (invoices db) with
  | [] => None
  | result :: _ =>
      let items := getInvoiceItems id0 db in
      Some {| invoice := result;
              client := find (fun c => String.eqb (clientId result) (client_id c))
                             (clients db);
              items := items |}
  end.

Definition orElse {A : Type} (o : option A) (a : A) : A :=
  match o with Some v => v | None => a end.

(** [.set(updateInvoice)]: only the keys present are assigned. *)
Definition set (u : PartialInsertInvoice) (r : Invoice) : Invoice :=
  {| id := id r;
     invoiceNumber := orElse (u_invoiceNumber u) (invoiceNumber r);
     clientId := orElse (u_clientId u) (clientId r);
     date := orElse (u_date u) (date r);
     dueDate := orElse (u_dueDate u) (dueDate r);
     status := orElse (u_status u) (status r);
     currency := orElse (u_currency u) (currency r);
     subtotal := orElse (u_subtotal u) (subtotal r);
     taxAmount := orElse (u_taxAmount u) (taxAmount r);
     discountAmount := orElse (u_discountAmount u) (discountAmount r);
     total := orElse (u_total u) (total r);
     notes := match u_notes u with Some v => Some v | None => notes r end;
     createdAt := createdAt r |}.

Fixpoint insertItems (invoiceId : string) (items : list InsertInvoiceItem)
  (next : N) : list InvoiceItem * N :=
  match items with
  | [] => ([], next)
  | item :: rest =>
      let '(rows, next') := insertItems invoiceId rest (N.succ next) in
      ({| item_id := decimal next;
          item_invoiceId := invoiceId;
          item_description := i_description item;
          item_quantity := i_quantity item;
          item_rate := i_rate item;
          item_taxRate := i_taxRate item;
          item_discountRate := i_discountRate item;
          item_amount := i_amount item |} :: rows, next')
  end.

(** [.set(values)] throws when no key of [values] is defined, before any
    statement is sent. *)
Definition noValuesToSet (u : PartialInsertInvoice) : bool :=
  match u_invoiceNumber u, u_clientId u, u_date u, u_dueDate u, u_status u,
        u_currency u, u_subtotal u, u_taxAmount u, u_discountAmount u,
        u_total u, u_notes u with
  | None, None, None, None, None, None, None, None, None, None, None => true
  | _, _, _, _, _, _, _, _, _, _, _ => false
  end.

Definition updateInvoice (id0 : string) (updateInvoice : PartialInsertInvoice)
  (items : option (list InsertInvoiceItem)) (db : Database)
  : Outcome (option InvoiceWithClient) * Database :=
  if noValuesToSet updateInvoice then (Thrown "No values to set", db)
  else
  (* Update invoice *)
  let db1 :=
    {| clients := clients db;
       invoices := map (fun r => if String.eqb (id r) id0
                                 then set updateInvoice r else r) (invoices db);
       invoiceItems := invoiceItems db;
       settings := settings db;
       nextRowId := nextRowId db |} in
  match filter (fun r => String.eqb (id r) id0) (invoices db1) with
  | [] => (Returned None, db1)
  | _ :: _ =>
      (* Update items if provided *)
      match items with
      | None => (Returned (getInvoice id0 db1), db1)
      | Some items =>
          (* Delete existing items *)
          let kept :=
            filter (fun it => negb (String.eqb (item_invoiceId it) id0))
                   (invoiceItems db1) in
          match items with
          | [] =>
              (Thrown "values() must be called with at least one value",
               {| clients := clients db1;
                  invoices := invoices db1;
                  invoiceItems := kept;
                  settings := settings db1;
                  nextRowId := nextRowId db1 |})
          | _ :: _ =>
              (* Insert new items *)
              let '(rows, next) := insertItems id0 items (nextRowId db1) in
              let db2 :=
                {| clients := clients db1;
                   invoices := invoices db1;
                   invoiceItems := kept ++ rows;
                   settings := settings db1;
                   nextRowId := next |} in
              (Returned (getInvoice id0 db2), db2)
          end
      end
  end.

Definition getSetting (key0 : string) (db : Database) : option string :=
  match filter (fun s => String.eqb (key s) key0) (settings db) with
  | [] => None
  | setting :: _ => Some (value setting)
  end.

(** [a || b] on an optional string: [undefined] and the empty string are
    falsy. *)
Definition orString (a : option string) (b : string) : string :=
  match a with
  | Some (String c s) => String c s
  | _ => b
  end.

(** [a || b] with [b] optional as well. *)
Definition orOption (a b : option string) : option string :=
  match a with
  | Some (String c s) => a
  | _ => b
  end.

(** [.orderBy(desc(invoices.createdAt))]; rows of equal timestamp keep their
    table order. *)
Fixpoint insertDesc (r : Invoice) (l : list Invoice) : list Invoice :=
  match l with
  | [] => [r]
  | h :: t =>
      if createdAt h <=? createdAt r then r :: l else h :: insertDesc r t
  end.

Definition orderByCreatedAtDesc (l : list Invoice) : list Invoice :=
  fold_right insertDesc [] l.

(** The [prefix] and the [lastInvoice] of [getNextInvoiceNumber]. *)
Definition configuredPrefix (db : Database) : string :=
  orString (getSetting "invoice_prefix" db) "INV-".

Definition lastInvoice (db : Database) : list Invoice :=
  firstn 1 (orderByCreatedAtDesc (invoices db)).

Definition getNextInvoiceNumber (db : Database) : string :=
  let prefix := configuredPrefix db in
  let lastInvoice := lastInvoice db in
  match lastInvoice with
  | [] => prefix ++ "0001"
  | last :: _ =>
      let lastNumber := replace (invoiceNumber last) prefix EmptyString in
      let nextNumber :=
        padStart0 (text (Number_toString (parseInt lastNumber + ofZ 1)%js)) 4 in
      prefix ++ nextNumber
  end.

End Storage.

(** ** client/src/components/invoice/invoice-form.tsx *)

Module InvoiceForm.
Import JS Storage.
Local Open Scope js_scope.

(** A line item of the form.  The numeric fields hold the values after
    [z.coerce.number()] has applied [Number(...)] to the raw input, so a field
    that does not read as a number holds NaN. *)
Record InvoiceItemData : Type := {
  description : string;
  quantity : number;
  rate : number;
  taxRate : number;
  discountRate : number
}.

Record InvoiceFormData : Type := {
  f_clientId : string;
  f_date : string;
  f_dueDate : string;
  f_status : Status;
  f_currency : Currency;
  f_notes : option string;
  f_items : list InvoiceItemData
}.

(** [z.string().min(1)] *)
Definition stringMin1 (s : string) : bool :=
  match s with EmptyString => false | String _ _ => true end.

(** [z.coerce.number()] rejects NaN; [.min(m)] rejects [x < m] and [.max(m)]
    rejects [x > m] (zod 3: an infinite value is a number like another). *)
Definition numberMin (m x : number) : bool := negb (isNaN x) && negb (ltb x m).
Definition numberMinMax (m M x : number) : bool :=
  negb (isNaN x) && negb (ltb x m) && negb (gtb x M).

Definition invoiceItemSchema (item : InvoiceItemData) : bool :=
  stringMin1 (description item)
  && numberMin (ofDecimal 1 (-2)) (quantity item)
  && numberMin (ofZ 0) (rate item)
  && numberMinMax (ofZ 0) (ofZ 100) (taxRate item)
  && numberMinMax (ofZ 0) (ofZ 100) (discountRate item).

Definition invoiceFormSchema (data : InvoiceFormData) : bool :=
  stringMin1 (f_clientId data)
  && stringMin1 (f_date data)
  && stringMin1 (f_dueDate data)
  && (match f_items data with [] => false | _ :: _ => true end)
  && forallb invoiceItemSchema (f_items data).

(** *** createInvoiceMutation *)

Definition create_calculatedItems (items : list InvoiceItemData)
  : list InsertInvoiceItem :=
  map (fun item =>
         let lineSubtotal := quantity item * rate item in
         let discount := (lineSubtotal * discountRate item) / ofZ 100 in
         let subtotalAfterDiscount := lineSubtotal - discount in
         let tax := (subtotalAfterDiscount * taxRate item) / ofZ 100 in
         let amount := subtotalAfterDiscount + tax in
         {| i_description := description item;
            i_quantity := Number_toString (quantity item);
            i_rate := Number_toString (rate item);
            i_taxRate := Number_toString (taxRate item);
            i_discountRate := Number_toString (discountRate item);
            i_amount := Number_toString amount |})
      items.

Definition create_subtotal (calculatedItems : list InsertInvoiceItem) : number :=
  fold_left (fun sum item =>
               let lineSubtotal :=
                 parseFloat (i_quantity item) * parseFloat (i_rate item) in
               sum + lineSubtotal)
            calculatedItems (ofZ 0).

Definition create_totalDiscount (calculatedItems : list InsertInvoiceItem)
  : number :=
  fold_left (fun sum item =>
               let lineSubtotal :=
                 parseFloat (i_quantity item) * parseFloat (i_rate item) in
               let discount :=
                 (lineSubtotal * parseFloat (i_discountRate item)) / ofZ 100 in
               sum + discount)
            calculatedItems (ofZ 0).

Definition create_totalTax (calculatedItems : list InsertInvoiceItem) : number :=
  fold_left (fun sum item =>
               let lineSubtotal :=
                 parseFloat (i_quantity item) * parseFloat (i_rate item) in
               let discount :=
                 (lineSubtotal * parseFloat (i_discountRate item)) / ofZ 100 in
               let subtotalAfterDiscount := lineSubtotal - discount in
               let tax :=
                 (subtotalAfterDiscount * parseFloat (i_taxRate item)) / ofZ 100 in
               sum + tax)
            calculatedItems (ofZ 0).

(** The body of the POST request: [(invoicePayload, calculatedItems)].
    [nextInvoiceNumber] is the fetched next number, when the query has
    answered. *)
Definition createInvoiceMutation (nextInvoiceNumber : option string)
  (data : InvoiceFormData) : PartialInsertInvoice * list InsertInvoiceItem :=
  let items := f_items data in
  (* Calculate totals *)
  let calculatedItems := create_calculatedItems items in
  let subtotal := create_subtotal calculatedItems in
  let totalDiscount := create_totalDiscount calculatedItems in
  let totalTax := create_totalTax calculatedItems in
  let total := subtotal - totalDiscount + totalTax in
  let invoicePayload :=
    {| u_invoiceNumber := Some (orString nextInvoiceNumber "INV-0001");
       u_clientId := Some (f_clientId data);
       u_date := Some (f_date data);
       u_dueDate := Some (f_dueDate data);
       u_status := Some (f_status data);
       u_currency := Some (f_currency data);
       u_subtotal := Some (Number_toString subtotal);
       u_taxAmount := Some (Number_toString totalTax);
       u_discountAmount := Some (Number_toString totalDiscount);
       u_total := Some (Number_toString total);
       u_notes := f_notes data |} in
  (invoicePayload, calculatedItems).

(** *** updateInvoiceMutation *)

Definition update_calculatedItems (items : list InvoiceItemData)
  : list InsertInvoiceItem :=
  map (fun item =>
         let lineSubtotal := quantity item * rate item in
         let discount := (lineSubtotal * discountRate item) / ofZ 100 in
         let subtotalAfterDiscount := lineSubtotal - discount in
         let tax := (subtotalAfterDiscount * taxRate item) / ofZ 100 in
         let amount := subtotalAfterDiscount + tax in
         {| i_description := description item;
            i_quantity := Number_toString (quantity item);
            i_rate := Number_toString (rate item);
            i_taxRate := Number_toString (taxRate item);
            i_discountRate := Number_toString (discountRate item);
            i_amount := Number_toString amount |})
      items.

Definition update_subtotal (calculatedItems : list InsertInvoiceItem) : number :=
  fold_left (fun sum item =>
               let lineSubtotal :=
                 parseFloat (i_quantity item) * parseFloat (i_rate item) in
               sum + lineSubtotal)
            calculatedItems (ofZ 0).

Definition update_totalDiscount (calculatedItems : list InsertInvoiceItem)
  : number :=
  fold_left (fun sum item =>
               let lineSubtotal :=
                 parseFloat (i_quantity item) * parseFloat (i_rate item) in
               let discount :=
                 (lineSubtotal * parseFloat (i_discountRate item)) / ofZ 100 in
               sum + discount)
            calculatedItems (ofZ 0).

Definition update_totalTax (calculatedItems : list InsertInvoiceItem) : number :=
  fold_left (fun sum item =>
               let lineSubtotal :=
                 parseFloat (i_quantity item) * parseFloat (i_rate item) in
               let discount :=
                 (lineSubtotal * parseFloat (i_discountRate item)) / ofZ 100 in
               let subtotalAfterDiscount := lineSubtotal - discount in
               let tax :=
                 (subtotalAfterDiscount * parseFloat (i_taxRate item)) / ofZ 100 in
               sum + tax)
            calculatedItems (ofZ 0).

(** The body of the PUT request for the invoice being edited; the mutation
    throws when there is none. *)
Definition updateInvoiceMutation (invoice : option InvoiceWithClient)
  (data : InvoiceFormData)
  : Outcome (string * PartialInsertInvoice * list InsertInvoiceItem) :=
  match invoice with
  | None => Thrown "No invoice to update"
  | Some invoice =>
      let items := f_items data in
      (* Calculate totals *)
      let calculatedItems := update_calculatedItems items in
      let subtotal := update_subtotal calculatedItems in
      let totalDiscount := update_totalDiscount calculatedItems in
      let totalTax := update_totalTax calculatedItems in
      let total := subtotal - totalDiscount + totalTax in
      let invoicePayload :=
        {| u_invoiceNumber := None;
           u_clientId := Some (f_clientId data);
           u_date := Some (f_date data);
           u_dueDate := Some (f_dueDate data);
           u_status := Some (f_status data);
           u_currency := Some (f_currency data);
           u_subtotal := Some (Number_toString subtotal);
           u_taxAmount := Some (Number_toString totalTax);
           u_discountAmount := Some (Number_toString totalDiscount);
           u_total := Some (Number_toString total);
           u_notes := f_notes data |} in
      Returned (id (Storage.invoice invoice), invoicePayload, calculatedItems)
  end.

(** *** The values held by the form

    [form.getValues()] gives the values as the form holds them, before the
    resolver has parsed them.  The quantity and the rate of a row are
    [undefined] until they are filled in ([defaultValues], [handleAddItem]),
    the text of the input once the user has typed
    ([field.onChange(e.target.value)]), and numbers in the rows of an invoice
    opened for editing.  Tax rate and discount rate are numbers throughout
    ([field.onChange(parseFloat(e.target.value) || 0)]). *)
Inductive FieldValue : Type :=
| Undefined
| Text (s : string)
| Num (x : number).

Record ItemValues : Type := {
  v_description : string;
  v_quantity : FieldValue;
  v_rate : FieldValue;
  v_taxRate : number;
  v_discountRate : number
}.

Record FormValues : Type := {
  v_clientId : string;
  v_date : string;
  v_dueDate : string;
  v_status : Status;
  v_currency : Currency;
  v_notes : option string;
  v_items : list ItemValues
}.

(** [Number(v)]; it is also what the operator [*] makes of an operand. *)
Definition ToNumber (v : FieldValue) : number :=
  match v with
  | Undefined => NaN
  | Text s => StringToNumber s
  | Num x => x
  end.

(** The data that the resolver parses out of the values, each numeric field
    through [z.coerce.number()]. *)
Definition coerceItem (item : ItemValues) : InvoiceItemData :=
  {| description := v_description item;
     quantity := ToNumber (v_quantity item);
     rate := ToNumber (v_rate item);
     taxRate := v_taxRate item;
     discountRate := v_discountRate item |}.

Definition coerce (values : FormValues) : InvoiceFormData :=
  {| f_clientId := v_clientId values;
     f_date := v_date values;
     f_dueDate := v_dueDate values;
     f_status := v_status values;
     f_currency := v_currency values;
     f_notes := v_notes values;
     f_items := map coerceItem (v_items values) |}.

(** A string of the preview: the text of an input as it is, or the printing
    of a number. *)
Inductive FieldString : Type :=
| Characters (s : string)
| Numeric (s : NumericString).

(** [v.toString()]; on [undefined] it throws a TypeError (the message is the
    engine's). *)
Definition FieldValue_toString (v : FieldValue) : Outcome FieldString :=
  match v with
  | Undefined =>
      Thrown "TypeError: Cannot read properties of undefined (reading 'toString')"
  | Text s => Returned (Characters s)
  | Num x => Returned (Numeric (Number_toString x))
  end.

Definition FieldString_parseFloat (s : FieldString) : number :=
  match s with
  | Characters s => parseFloatText s
  | Numeric s => parseFloat s
  end.

(** *** handlePreview

    [previewData] has the fields of an [InvoiceWithClient]; the quantity and
    the rate of its items are the strings that the values of the form print
    as. *)
Record PreviewItem : Type := {
  p_id : string;
  p_invoiceId : string;
  p_description : string;
  p_quantity : FieldString;
  p_rate : FieldString;
  p_taxRate : NumericString;
  p_discountRate : NumericString;
  p_amount : NumericString
}.

Record PreviewData : Type := {
  p_invoice : Invoice;
  p_client : Client;
  p_items : list PreviewItem
}.

(** [Math.random()] is called once per item, in order: [random i] is the
    [i]-th value drawn. *)
Fixpoint preview_calculatedItems (random : nat -> number)
  (items : list ItemValues) : Outcome (list PreviewItem) :=
  match items with
  | [] => Returned []
  | item :: rest =>
      let lineSubtotal := ToNumber (v_quantity item) * ToNumber (v_rate item) in
      let discount := (lineSubtotal * v_discountRate item) / ofZ 100 in
      let subtotalAfterDiscount := lineSubtotal - discount in
      let tax := (subtotalAfterDiscount * v_taxRate item) / ofZ 100 in
      let amount := subtotalAfterDiscount + tax in
      let* quantity := FieldValue_toString (v_quantity item) in
      let* rate := FieldValue_toString (v_rate item) in
      let* rows := preview_calculatedItems (fun i => random (S i)) rest in
      Returned
        ({| p_id := text (Number_toString (random O));
            p_invoiceId := "preview";
            p_description := v_description item;
            p_quantity := quantity;
            p_rate := rate;
            p_taxRate := Number_toString (v_taxRate item);
            p_discountRate := Number_toString (v_discountRate item);
            p_amount := Number_toString amount |} :: rows)
  end.

Definition preview_subtotal (calculatedItems : list PreviewItem) : number :=
  fold_left (fun sum item =>
               let lineSubtotal :=
                 FieldString_parseFloat (p_quantity item)
                 * FieldString_parseFloat (p_rate item) in
               sum + lineSubtotal)
            calculatedItems (ofZ 0).

Definition preview_totalDiscount (calculatedItems : list PreviewItem) : number :=
  fold_left (fun sum item =>
               let lineSubtotal :=
                 FieldString_parseFloat (p_quantity item)
                 * FieldString_parseFloat (p_rate item) in
               let discount :=
                 (lineSubtotal * parseFloat (p_discountRate item)) / ofZ 100 in
               sum + discount)
            calculatedItems (ofZ 0).

Definition preview_totalTax (calculatedItems : list PreviewItem) : number :=
  fold_left (fun sum item =>
               let lineSubtotal :=
                 FieldString_parseFloat (p_quantity item)
                 * FieldString_parseFloat (p_rate item) in
               let discount :=
                 (lineSubtotal * parseFloat (p_discountRate item)) / ofZ 100 in
               let subtotalAfterDiscount := lineSubtotal - discount in
               let tax :=
                 (subtotalAfterDiscount * parseFloat (p_taxRate item))
                 / ofZ 100 in
               sum + tax)
            calculatedItems (ofZ 0).

(** [Returned None] when no client is selected (an error toast is shown and
    nothing is computed).  [formData] is [form.getValues()]; [now] is the time
    of the call. *)
Definition handlePreview (clients : list Client)
  (invoice : option InvoiceWithClient) (nextInvoiceNumber : option string)
  (random : nat -> number) (now : Z) (formData : FormValues)
  : Outcome (option PreviewData) :=
  match find (fun c => String.eqb (client_id c) (v_clientId formData)) clients with
  | None => Returned None
  | Some selectedClient =>
      (* Calculate totals for preview *)
      let* calculatedItems :=
        preview_calculatedItems random (v_items formData) in
      let subtotal := preview_subtotal calculatedItems in
      let totalDiscount := preview_totalDiscount calculatedItems in
      let totalTax := preview_totalTax calculatedItems in
      let total := subtotal - totalDiscount + totalTax in
      let previewData :=
        {| p_invoice :=
             {| id := "preview";
                invoiceNumber :=
                  orString
                    (orOption
                       (option_map (fun i => invoiceNumber (Storage.invoice i))
                                   invoice)
                       nextInvoiceNumber)
                    "INV-0001";
                clientId := v_clientId formData;
                date := v_date formData;
                dueDate := v_dueDate formData;
                status := v_status formData;
                currency := v_currency formData;
                subtotal := Number_toString subtotal;
                taxAmount := Number_toString totalTax;
                discountAmount := Number_toString totalDiscount;
                total := Number_toString total;
                notes := match v_notes formData with
                         | Some (String c s) => Some (String c s)
                         | _ => None
                         end;
                createdAt := now |};
           p_client := selectedClient;
           p_items := calculatedItems |} in
      Returned (Some previewData)
  end.

(** *** onSubmit behind form.handleSubmit

    [handleSubmit] runs the resolver of [invoiceFormSchema] and calls
    [onSubmit] with the parsed data only when it accepts; otherwise no request
    is built. *)
Inductive Request : Type :=
| POST_invoices (invoice : PartialInsertInvoice) (items : list InsertInvoiceItem)
| PUT_invoice (id0 : string) (invoice : PartialInsertInvoice)
    (items : list InsertInvoiceItem).

Definition onSubmit (invoice : option InvoiceWithClient)
  (nextInvoiceNumber : option string) (data : InvoiceFormData)
  : Outcome Request :=
  match invoice with
  | Some _ =>
      match updateInvoiceMutation invoice data with
      | Returned (id0, payload, items) => Returned (PUT_invoice id0 payload items)
      | Thrown e => Thrown e
      end
  | None =>
      let '(payload, items) := createInvoiceMutation nextInvoiceNumber data in
      Returned (POST_invoices payload items)
  end.

Definition handleSubmit (invoice : option InvoiceWithClient)
  (nextInvoiceNumber : option string) (data : InvoiceFormData)
  : option (Outcome Request) :=
  if invoiceFormSchema data then Some (onSubmit invoice nextInvoiceNumber data)
  else None.

End InvoiceForm.

(** ** The derivation of the specification

    Per line item, in order: [lineSubtotal], [discount], [afterDiscount],
    [tax], [amount]; the aggregates are left-to-right sums from [0]. *)

Module Spec.
Import JS InvoiceForm.
Local Open Scope js_scope.

Definition lineSubtotal (item : InvoiceItemData) : number :=
  quantity item * rate item.

Definition discount (item : InvoiceItemData) : number :=
  lineSubtotal item * discountRate item / ofZ 100.

Definition afterDiscount (item : InvoiceItemData) : number :=
  lineSubtotal item - discount item.

Definition tax (item : InvoiceItemData) : number :=
  afterDiscount item * taxRate item / ofZ 100.

Definition amount (item : InvoiceItemData) : number :=
  afterDiscount item + tax item.

Definition sum (f : InvoiceItemData -> number) (items : list InvoiceItemData)
  : number :=
  fold_left (fun acc item => acc + f item) items (ofZ 0).

(** The formula of the line-item invariant, with the operators of the
    source. *)
Definition amount_formula (q r d t : number) : number :=
  (q * r) - (q * r * d / ofZ 100) + ((q * r - q * r * d / ofZ 100) * t / ofZ 100).

(** The line item as it reads back from its stored strings. *)
Definition stored (item : InvoiceItemData) : InvoiceItemData :=
  {| description := description item;
     quantity := parseFloat (Number_toString (quantity item));
     rate := parseFloat (Number_toString (rate item));
     taxRate := parseFloat (Number_toString (taxRate item));
     discountRate := parseFloat (Number_toString (discountRate item)) |}.

(** Strings of decimal digits and the integer they denote (continuing
    [acc]). *)
Definition isDigit (c : ascii) : bool := ((48 <=? code c) && (code c <=? 57))%N.

Fixpoint allDigits (s : string) : bool :=
  match s with
  | EmptyString => true
  | String c s' => isDigit c && allDigits s'
  end.

Fixpoint digitsValue (acc : N) (s : string) : N :=
  match s with
  | EmptyString => acc
  | String c s' => digitsValue (10 * acc + (code c - 48))%N s'
  end.

(** The integer of a decimal numeral of the standard library. *)
Fixpoint uintValue (acc : N) (d : Decimal.uint) : N :=
  match d with
  | Decimal.Nil => acc
  | Decimal.D0 d => uintValue (10 * acc + 0) d
  | Decimal.D1 d => uintValue (10 * acc + 1) d
  | Decimal.D2 d => uintValue (10 * acc + 2) d
  | Decimal.D3 d => uintValue (10 * acc + 3) d
  | Decimal.D4 d => uintValue (10 * acc + 4) d
  | Decimal.D5 d => uintValue (10 * acc + 5) d
  | Decimal.D6 d => uintValue (10 * acc + 6) d
  | Decimal.D7 d => uintValue (10 * acc + 7) d
  | Decimal.D8 d => uintValue (10 * acc + 8) d
  | Decimal.D9 d => uintValue (10 * acc + 9) d
  end%N.

(** The validity of a line item as the specification words it: quantity > 0,
    rate >= 0, tax rate and discount rate within [0, 100]. *)
Definition valid (item : InvoiceItemData) : bool :=
  gtb (quantity item) (ofZ 0)
  && geb (rate item) (ofZ 0)
  && (geb (taxRate item) (ofZ 0) && leb (taxRate item) (ofZ 100))
  && (geb (discountRate item) (ofZ 0) && leb (discountRate item) (ofZ 100)).

(** The validity that the schema enforces: a description, quantity >= 0.01,
    rate >= 0, tax rate and discount rate within [0, 100]. *)
Definition accepted (item : InvoiceItemData) : Prop :=
  description item <> EmptyString
  /\ geb (quantity item) (ofDecimal 1 (-2)) = true
  /\ geb (rate item) (ofZ 0) = true
  /\ (geb (taxRate item) (ofZ 0) = true /\ leb (taxRate item) (ofZ 100) = true)
  /\ (geb (discountRate item) (ofZ 0) = true
      /\ leb (discountRate item) (ofZ 100) = true).

End Spec.

(** ** Notions of the statements *)

Module Statements.
Import JS Storage InvoiceForm.
Local Open Scope js_scope.

(** [item] with its computed row [c]: the row's amount is the printed value
    of the formula, which is also the value derived step by step. *)
Definition line_amount_ok (item : InvoiceItemData) (c : InsertInvoiceItem)
  : Prop :=
  let f := Spec.amount_formula (quantity item) (rate item)
                               (discountRate item) (taxRate item) in
  Spec.lineSubtotal item = quantity item * rate item
  /\ Spec.discount item = Spec.lineSubtotal item * discountRate item / ofZ 100
  /\ Spec.afterDiscount item = Spec.lineSubtotal item - Spec.discount item
  /\ Spec.tax item = Spec.afterDiscount item * taxRate item / ofZ 100
  /\ Spec.amount item = Spec.afterDiscount item + Spec.tax item
  /\ Spec.amount item = f
  /\ i_amount c = Number_toString f
  /\ SameValueZero (parseFloat (i_amount c)) f.

(** What a request body states about the totals of [items]. *)
Definition totals_of (items : list InvoiceItemData) (p : PartialInsertInvoice)
  : Prop :=
  u_subtotal p = Some (Number_toString (Spec.sum Spec.lineSubtotal items))
  /\ u_discountAmount p = Some (Number_toString (Spec.sum Spec.discount items))
  /\ u_taxAmount p = Some (Number_toString (Spec.sum Spec.tax items))
  /\ u_total p
     = Some (Number_toString (Spec.sum Spec.lineSubtotal items
                              - Spec.sum Spec.discount items
                              + Spec.sum Spec.tax items)).

(** The stored total reads as subtotal - discountAmount + taxAmount of the
    stored strings. *)
Definition total_consistent (p : PartialInsertInvoice) : Prop :=
  match u_subtotal p, u_discountAmount p, u_taxAmount p with
  | Some s, Some d, Some t =>
      u_total p = Some (Number_toString (parseFloat s - parseFloat d + parseFloat t))
  | _, _, _ => False
  end.

(** What a path computes: the per-item amounts and the aggregates subtotal,
    discountAmount, taxAmount and total. *)
Definition Computed : Type :=
  (list NumericString
   * (NumericString * NumericString * NumericString * NumericString))%type.

Definition payload_totals (p : PartialInsertInvoice)
  : option (NumericString * NumericString * NumericString * NumericString) :=
  match u_subtotal p, u_discountAmount p, u_taxAmount p, u_total p with
  | Some s, Some d, Some t, Some tot => Some (s, d, t, tot)
  | _, _, _, _ => None
  end.

Definition create_result (next : option string) (data : InvoiceFormData)
  : option Computed :=
  let '(payload, calculatedItems) := createInvoiceMutation next data in
  option_map (fun totals => (map i_amount calculatedItems, totals))
             (payload_totals payload).

Definition update_result (inv : InvoiceWithClient) (data : InvoiceFormData)
  : option Computed :=
  match updateInvoiceMutation (Some inv) data with
  | Returned (_, payload, calculatedItems) =>
      option_map (fun totals => (map i_amount calculatedItems, totals))
                 (payload_totals payload)
  | Thrown _ => None
  end.

Definition preview_result (clients : list Client)
  (inv : option InvoiceWithClient) (next : option string)
  (random : nat -> number) (now : Z) (values : FormValues)
  : Outcome (option Computed) :=
  let* shown := handlePreview clients inv next random now values in
  Returned
    (option_map
       (fun pv =>
          (map p_amount (p_items pv),
           (subtotal (p_invoice pv), discountAmount (p_invoice pv),
            taxAmount (p_invoice pv), total (p_invoice pv))))
       shown).

(** The characters of a computed result. *)
Definition result_text (r : option Computed)
  : option (list string * (string * string * string * string)) :=
  option_map (fun '(amounts, (s, d, t, tot)) =>
                (map text amounts, (text s, text d, text t, text tot))) r.

(** Sample data. *)
Definition exampleData (items : list InvoiceItemData) : InvoiceFormData :=
  {| f_clientId := "c1";
     f_date := "2025-01-01";
     f_dueDate := "2025-01-31";
     f_status := draft;
     f_currency := INR;
     f_notes := None;
     f_items := items |}.

Definition exampleItem (q r t d : Z) : InvoiceItemData :=
  {| description := "Service";
     quantity := ofZ q; rate := ofZ r; taxRate := ofZ t; discountRate := ofZ d |}.

Definition exampleInvoice (id0 number : string) (at_ : Z) : Invoice :=
  {| id := id0;
     invoiceNumber := number;
     clientId := "c1";
     date := "2025-01-01";
     dueDate := "2025-01-31";
     status := draft;
     currency := INR;
     subtotal := Number_toString (ofZ 200);
     taxAmount := Number_toString (ofZ 36);
     discountAmount := Number_toString (ofZ 0);
     total := Number_toString (ofZ 236);
     notes := None;
     createdAt := at_ |}.

Definition exampleDatabase (rows : list Invoice) (conf : list Settings)
  : Database :=
  {| clients := [];
     invoices := rows;
     invoiceItems := [];
     settings := conf;
     nextRowId := 0 |}.

Definition exampleClient : Client :=
  {| client_id := "c1";
     companyName := "Acme";
     contactPerson := "A. Person";
     email := "a@example.com";
     phone := "1";
     address := "1 Street" |}.

Definition exampleValues (items : list ItemValues) : FormValues :=
  {| v_clientId := "c1";
     v_date := "2025-01-01";
     v_dueDate := "2025-01-31";
     v_status := draft;
     v_currency := INR;
     v_notes := None;
     v_items := items |}.

(** A row with the texts [q] and [r] typed into Quantity and Rate. *)
Definition typedItem (q r : string) (t d : Z) : ItemValues :=
  {| v_description := "Service";
     v_quantity := Text q; v_rate := Text r;
     v_taxRate := ofZ t; v_discountRate := ofZ d |}.

(** The row of a new form, not yet filled in. *)
Definition blankValues : ItemValues :=
  {| v_description := EmptyString;
     v_quantity := Undefined; v_rate := Undefined;
     v_taxRate := ofZ 18; v_discountRate := ofZ 0 |}.

(** A value that is filled in: a number, or a text that is a decimal
    literal. *)
Definition filled (v : FieldValue) : bool :=
  match v with
  | Undefined => false
  | Text s => isDecimalLiteral s
  | Num _ => true
  end.

Definition filledItem (item : ItemValues) : bool :=
  filled (v_quantity item) && filled (v_rate item).

(** [row] is the preview row of the values [item]: its strings are the
    values printed, its amount the printed amount of the numbers. *)
Definition previewRowOf (item : ItemValues) (row : PreviewItem) : Prop :=
  FieldValue_toString (v_quantity item) = Returned (p_quantity row)
  /\ FieldValue_toString (v_rate item) = Returned (p_rate row)
  /\ p_taxRate row = Number_toString (v_taxRate item)
  /\ p_discountRate row = Number_toString (v_discountRate item)
  /\ p_amount row = Number_toString (Spec.amount (coerceItem item)).

(** A valid item but for its quantity, which is positive and below 0.01. *)
Definition smallQuantityItem : InvoiceItemData :=
  {| description := "Service";
     quantity := ofDecimal 5 (-3);
     rate := ofZ 100; taxRate := ofZ 18; discountRate := ofZ 0 |}.

(** The identity of an invoice row: its id and its number. *)
Definition identity (r : Invoice) : string * string := (id r, invoiceNumber r).

(** The head of a list of rows is a latest one. *)
Definition head_latest (l : list Invoice) : Prop :=
  match l with
  | [] => True
  | h :: t => forall x, In x t -> createdAt x <= createdAt h
  end.

End Statements.

(** ** server/storage.ts, the other operations on settings and invoices *)

Module StorageRest.
Import JS Storage InvoiceForm Statements.

Definition withSettings (db : Database) (rows : list Settings) : Database :=
  {| clients := clients db;
     invoices := invoices db;
     invoiceItems := invoiceItems db;
     settings := rows;
     nextRowId := nextRowId db |}.

Definition setSetting (key0 value0 : string) (db : Database) : Database :=
  let existing := filter (fun s => String.eqb (key s) key0) (settings db) in
  match existing with
  | _ :: _ =>
      withSettings db
        (map (fun s => if String.eqb (key s) key0
                       then {| key := key s; value := value0 |} else s)
             (settings db))
  | [] =>
      withSettings db (settings db ++ [{| key := key0; value := value0 |}])
  end.

Definition getSettings (db : Database) : list Settings := settings db.

Definition joinClient (row : Invoice) (db : Database) : option Client :=
  find (fun c => String.eqb (clientId row) (client_id c)) (clients db).

Definition getInvoices (db : Database) : list InvoiceWithClient :=
  map (fun row =>
         {| invoice := row;
            client := joinClient row db;
            items := getInvoiceItems (id row) db |})
      (orderByCreatedAtDesc (invoices db)).

Definition getInvoiceByNumber (invoiceNumber0 : string) (db : Database)
  : option InvoiceWithClient :=
  match filter (fun r => String.eqb (invoiceNumber r) invoiceNumber0)
               (invoices db) with
  | [] => None
  | result :: _ =>
      let items := getInvoiceItems (id result) db in
      Some {| invoice := result;
              client := joinClient result db;
              items := items |}
  end.

Definition isPaid (s : Status) : bool :=
  match s with paid => true | _ => false end.

Definition isSent (s : Status) : bool :=
  match s with sent => true | _ => false end.

Record DashboardStats : Type := {
  totalInvoices : nat;
  paidInvoices : nat;
  pendingInvoices : nat;
  totalClients : nat;
  totalRevenue : string
}.

(** [COALESCE(sum(total), 0)] is computed by the database on its decimal
    column; it is taken as a parameter. *)
Definition getDashboardStats (sqlSum : list NumericString -> string)
  (db : Database) : DashboardStats :=
  let totalInvoicesResult := List.length (invoices db) in
  let paidInvoicesResult :=
    List.length (filter (fun r => isPaid (status r)) (invoices db)) in
  let pendingInvoicesResult :=
    List.length (filter (fun r => isSent (status r)) (invoices db)) in
  let totalClientsResult := List.length (clients db) in
  let revenueResult :=
    sqlSum (map total (filter (fun r => isPaid (status r)) (invoices db))) in
  {| totalInvoices := totalInvoicesResult;
     paidInvoices := paidInvoicesResult;
     pendingInvoices := pendingInvoicesResult;
     totalClients := totalClientsResult;
     totalRevenue := orString (Some revenueResult) "0" |}.

Definition hasId (id0 : string) (r : Invoice) : bool := String.eqb (id r) id0.

Definition ofInvoice (id0 : string) (it : InvoiceItem) : bool :=
  String.eqb (item_invoiceId it) id0.

(** The fields of a row that come from the request. *)
Definition rowFields (it : InvoiceItem) : InsertInvoiceItem :=
  {| i_description := item_description it;
     i_quantity := item_quantity it;
     i_rate := item_rate it;
     i_taxRate := item_taxRate it;
     i_discountRate := item_discountRate it;
     i_amount := item_amount it |}.

(** The store after [updateInvoice] on an existing invoice, with new items. *)
Definition updatedStore (id0 : string) (u : PartialInsertInvoice)
  (l : list InsertInvoiceItem) (db : Database) : Database :=
  {| clients := clients db;
     invoices := map (fun r => if hasId id0 r then set u r else r) (invoices db);
     invoiceItems :=
       filter (fun it => negb (ofInvoice id0 it)) (invoiceItems db)
       ++ fst (insertItems id0 l (nextRowId db));
     settings := settings db;
     nextRowId := snd (insertItems id0 l (nextRowId db)) |}.

(** The line-item invariant on a stored row, read from its strings. *)
Definition row_invariant (it : InvoiceItem) : Prop :=
  item_amount it
  = Number_toString
      (Spec.amount_formula (parseFloat (item_quantity it))
         (parseFloat (item_rate it)) (parseFloat (item_discountRate it))
         (parseFloat (item_taxRate it))).

(** The invoice invariant on a stored row, read from its strings. *)
Definition invoice_invariant (r : Invoice) : Prop :=
  total r
  = Number_toString
      (sub (parseFloat (subtotal r)) (parseFloat (discountAmount r))
       + parseFloat (taxAmount r))%js.

(** A sample request body. *)
Definition exampleRow : InsertInvoiceItem :=
  {| i_description := "Service";
     i_quantity := Number_toString (ofZ 1);
     i_rate := Number_toString (ofZ 10);
     i_taxRate := Number_toString (ofZ 0);
     i_discountRate := Number_toString (ofZ 0);
     i_amount := Number_toString (ofZ 10) |}.

Definition examplePayload : PartialInsertInvoice :=
  fst (createInvoiceMutation None (exampleData [exampleItem 1 10 0 0])).

(** A request body without invoiceNumber, marking the invoice paid. *)
Definition exampleUpdate : PartialInsertInvoice :=
  {| u_invoiceNumber := None;
     u_clientId := None; u_date := None; u_dueDate := None;
     u_status := Some paid; u_currency := None; u_subtotal := None;
     u_taxAmount := None; u_discountAmount := None; u_total := None;
     u_notes := None |}.

(** [s.includes(pat)] *)
Fixpoint includes (s pat : string) : bool :=
  if String.prefix pat s then true
  else match s with
       | EmptyString => false
       | String _ s' => includes s' pat
       end.

Definition isLetter (c : ascii) : bool :=
  ((65 <=? code c) && (code c <=? 90) || (97 <=? code c) && (code c <=? 122))%N.

End StorageRest.

(** ** invoice-form.tsx, the rest of the form *)

Module FormRest.
Import JS Storage InvoiceForm.
Local Open Scope js_scope.

(** [getSettingValue(key, defaultValue)] over the fetched settings. *)
Definition getSettingValue (settings : list Settings) (key0 : string)
  (defaultValue : string) : string :=
  match find (fun s => String.eqb (key s) key0) settings with
  | Some setting => orString (Some (value setting)) defaultValue
  | None => defaultValue
  end.

(** The row that a new form starts with and that [handleAddItem] appends.
    Its quantity and rate are [undefined]: NaN under [Number(...)], and falsy
    under [||]. *)
Definition blankItem : InvoiceItemData :=
  {| description := EmptyString;
     quantity := NaN;
     rate := NaN;
     taxRate := ofZ 18;
     discountRate := ofZ 0 |}.

(** The [items] of the form's [defaultValues]. *)
Definition defaultItems (invoice : option InvoiceWithClient)
  : list InvoiceItemData :=
  match invoice with
  | Some inv =>
      map (fun item =>
             {| description := item_description item;
                quantity := parseFloat (item_quantity item);
                rate := parseFloat (item_rate item);
                taxRate := parseFloat (item_taxRate item);
                discountRate := parseFloat (item_discountRate item) |})
          (items inv)
  | None => [blankItem]
  end.

(** [remove(index)] of the field array. *)
Fixpoint remove (index : nat) (fields : list InvoiceItemData)
  : list InvoiceItemData :=
  match fields, index with
  | [], _ => []
  | _ :: rest, O => rest
  | f :: rest, S i => f :: remove i rest
  end.

Definition handleAddItem (fields : list InvoiceItemData)
  : list InvoiceItemData :=
  fields ++ [blankItem].

Definition handleRemoveItem (index : nat) (fields : list InvoiceItemData)
  : list InvoiceItemData :=
  if (1 <? List.length fields)%nat then remove index fields else fields.

(** A user's edits of the rows. *)
Inductive RowAction : Type :=
| AddItem
| RemoveItem (index : nat).

Definition act (fields : list InvoiceItemData) (a : RowAction)
  : list InvoiceItemData :=
  match a with
  | AddItem => handleAddItem fields
  | RemoveItem index => handleRemoveItem index fields
  end.

(** [x || 0] on a number: 0 for NaN and for a zero. *)
Definition orZero (x : number) : number :=
  match x with
  | S754_nan => ofZ 0
  | S754_zero _ => ofZ 0
  | _ => x
  end.

Record Totals : Type := {
  t_subtotal : number;
  t_discount : number;
  t_tax : number
}.

(** The totals shown beside the form, over [form.watch("items")] at its
    type. *)
Definition totals (watchedItems : list InvoiceItemData) : Totals :=
  fold_left
    (fun acc item =>
       let lineSubtotal := orZero (quantity item) * orZero (rate item) in
       let discount := (lineSubtotal * orZero (discountRate item)) / ofZ 100 in
       let subtotalAfterDiscount := lineSubtotal - discount in
       let tax := (subtotalAfterDiscount * orZero (taxRate item)) / ofZ 100 in
       {| t_subtotal := t_subtotal acc + lineSubtotal;
          t_discount := t_discount acc + discount;
          t_tax := t_tax acc + tax |})
    watchedItems
    {| t_subtotal := ofZ 0; t_discount := ofZ 0; t_tax := ofZ 0 |}.

Definition grandTotal (watchedItems : list InvoiceItemData) : number :=
  t_subtotal (totals watchedItems) - t_discount (totals watchedItems)
  + t_tax (totals watchedItems).

(** The value of the disabled "Invoice Number" field. *)
Definition shownInvoiceNumber (invoice : option InvoiceWithClient)
  (nextInvoiceNumber : option string) : string :=
  orString
    (orOption
       (option_map (fun i => invoiceNumber (Storage.invoice i)) invoice)
       nextInvoiceNumber)
    "INV-0001".

(** What saving the form of an edited invoice returns: the PUT body of
    [updateInvoiceMutation] handed to [updateInvoice]. *)
Definition savedInvoice (inv : InvoiceWithClient) (data : InvoiceFormData)
  (db : Database) : option InvoiceWithClient :=
  match updateInvoiceMutation (Some inv) data with
  | Returned (id0, payload, calculatedItems) =>
      match fst (updateInvoice id0 payload (Some calculatedItems) db) with
      | Returned saved => saved
      | Thrown _ => None
      end
  | Thrown _ => None
  end.

(** The item as the display reads it, each number through [|| 0]. *)
Definition shown (item : InvoiceItemData) : InvoiceItemData :=
  {| description := description item;
     quantity := orZero (quantity item);
     rate := orZero (rate item);
     taxRate := orZero (taxRate item);
     discountRate := orZero (discountRate item) |}.

(** The totals panel: the numbers handed to [formatCurrency] on the lines
    Subtotal and Total, and on the lines Tax and Discount when they are
    rendered, which is when the number is above 0.  [formatCurrency] itself
    ([Intl.NumberFormat]) is not modelled. *)
Record Panel : Type := {
  panel_subtotal : number;
  panel_tax : option number;
  panel_discount : option number;
  panel_total : number
}.

Definition panelOf (subtotal discount tax total : number) : Panel :=
  {| panel_subtotal := subtotal;
     panel_tax := if gtb tax (ofZ 0) then Some tax else None;
     panel_discount := if gtb discount (ofZ 0) then Some discount else None;
     panel_total := total |}.

Definition totalsPanel (watchedItems : list InvoiceItemData) : Panel :=
  panelOf (t_subtotal (totals watchedItems)) (t_discount (totals watchedItems))
          (t_tax (totals watchedItems)) (grandTotal watchedItems).

(** A panel up to the sign of a zero. *)
Definition canonPanel (p : Panel) : Panel :=
  {| panel_subtotal := canonZero (panel_subtotal p);
     panel_tax := option_map canonZero (panel_tax p);
     panel_discount := option_map canonZero (panel_discount p);
     panel_total := canonZero (panel_total p) |}.

(** The four numbers of the display agree up to the sign of a zero. *)
Definition sameTotals (l l' : list InvoiceItemData) : Prop :=
  SameValueZero (t_subtotal (totals l)) (t_subtotal (totals l'))
  /\ SameValueZero (t_discount (totals l)) (t_discount (totals l'))
  /\ SameValueZero (t_tax (totals l)) (t_tax (totals l'))
  /\ SameValueZero (grandTotal l) (grandTotal l').

Definition noNaN (item : InvoiceItemData) : bool :=
  negb (isNaN (quantity item)) && negb (isNaN (rate item))
  && negb (isNaN (taxRate item)) && negb (isNaN (discountRate item)).

End FormRest.

(** ** client/src/pages/settings.tsx *)

Module SettingsPage.
Import JS Storage.

Record SettingsForm : Type := {
  defaultCurrency : string;
  invoicePrefix : string;
  nextInvoiceNumber : string;
  defaultDueDays : string;
  bankName : string;
  accountNumber : string;
  ifscCode : string;
  accountHolderName : string;
  upiId : string;
  companyName : string;
  companyEmail : string;
  companyPhone : string;
  companyWhatsapp : string;
  companyAddress : string
}.

Definition setting (k v : string) : Settings := {| key := k; value := v |}.

(** The pairs saved by the three submit handlers. *)
Definition generalSettings (formData : SettingsForm) : list Settings :=
  [setting "defaultCurrency" (defaultCurrency formData);
   setting "invoicePrefix" (invoicePrefix formData);
   setting "nextInvoiceNumber" (nextInvoiceNumber formData);
   setting "defaultDueDays" (defaultDueDays formData)].

Definition paymentSettings (formData : SettingsForm) : list Settings :=
  [setting "bankName" (bankName formData);
   setting "accountNumber" (accountNumber formData);
   setting "ifscCode" (ifscCode formData);
   setting "accountHolderName" (accountHolderName formData);
   setting "upiId" (upiId formData)].

Definition companySettings (formData : SettingsForm) : list Settings :=
  [setting "companyName" (companyName formData);
   setting "companyEmail" (companyEmail formData);
   setting "companyPhone" (companyPhone formData);
   setting "companyWhatsapp" (companyWhatsapp formData);
   setting "companyAddress" (companyAddress formData)].

(** [settingsMap[k]] after the reduce over the fetched settings: the value of
    the last row of key [k].  (The keys read are the field names of the form;
    the key ["__proto__"], which an object does not store, is not among
    them.) *)
Definition settingsMap (settings : list Settings) (k : string)
  : option string :=
  fold_left (fun acc setting =>
               if String.eqb (key setting) k then Some (value setting) else acc)
            settings None.

End SettingsPage.

(** ** Facts about numbers *)

Module NumberFacts.
Import JS Spec.
Local Open Scope js_scope.

Lemma canonZero_idem (x : number) : canonZero (canonZero x) = canonZero x.
Proof. destruct x; reflexivity. Qed.

Lemma parseFloat_toString (x : number) :
  parseFloat (Number_toString x) = canonZero x.
Proof. reflexivity. Qed.

Lemma toString_canon (x y : number) :
  canonZero x = canonZero y <-> Number_toString x = Number_toString y.
Proof.
  unfold Number_toString; split; intros H.
  - now rewrite H.
  - now inversion H.
Qed.

Lemma SameValueZero_refl (x : number) : SameValueZero x x.
Proof. reflexivity. Qed.

Lemma SameValueZero_parse (x : number) :
  SameValueZero (parseFloat (Number_toString x)) x.
Proof. unfold SameValueZero. rewrite parseFloat_toString. apply canonZero_idem. Qed.

Ltac by_cases x y :=
  destruct x as [[]|[]| |[] ? ?], y as [[]|[]| |[] ? ?]; reflexivity.

Lemma canon_mul (x y : number) :
  canonZero (x * y) = canonZero (canonZero x * canonZero y).
Proof. by_cases x y. Qed.

(** The sign of a zero divisor shows in the quotient ([1 / -0] is
    [-Infinity]), so division is only compatible in its dividend. *)
Lemma canon_div (x y : number) :
  canonZero (x / y) = canonZero (canonZero x / y).
Proof. by_cases x y. Qed.

Lemma canon_add (x y : number) :
  canonZero (x + y) = canonZero (canonZero x + canonZero y).
Proof. by_cases x y. Qed.

Lemma canon_sub (x y : number) :
  canonZero (x - y) = canonZero (canonZero x - canonZero y).
Proof. by_cases x y. Qed.

Section Compat.
Variables x x' y y' : number.
Hypothesis Hx : canonZero x = canonZero x'.
Hypothesis Hy : canonZero y = canonZero y'.

Lemma mul_compat : canonZero (x * y) = canonZero (x' * y').
Proof. rewrite canon_mul, Hx, Hy, <- canon_mul. reflexivity. Qed.

Lemma div_compat : canonZero (x / y) = canonZero (x' / y).
Proof. rewrite canon_div, Hx, <- canon_div. reflexivity. Qed.

Lemma add_compat : canonZero (x + y) = canonZero (x' + y').
Proof. rewrite canon_add, Hx, Hy, <- canon_add. reflexivity. Qed.

Lemma sub_compat : canonZero (x - y) = canonZero (x' - y').
Proof. rewrite canon_sub, Hx, Hy, <- canon_sub. reflexivity. Qed.
End Compat.

Create HintDb canon.
#[export] Hint Resolve mul_compat div_compat add_compat sub_compat
  canonZero_idem eq_refl : canon.

(** Left-to-right sums agree up to the sign of zero when their terms do. *)
Lemma fold_add_compat {A : Type} (g g' : A -> number) (l : list A) :
  (forall a, canonZero (g a) = canonZero (g' a)) ->
  forall acc acc', canonZero acc = canonZero acc' ->
  canonZero (fold_left (fun s a => s + g a) l acc)
  = canonZero (fold_left (fun s a => s + g' a) l acc').
Proof.
  intros Hg. induction l as [|a l IH]; intros acc acc' Hacc; simpl.
  - exact Hacc.
  - apply IH. apply add_compat; [exact Hacc | apply Hg].
Qed.

Lemma fold_left_map {A B C : Type} (f : C -> B -> C) (h : A -> B)
  (l : list A) (acc : C) :
  fold_left f (map h l) acc = fold_left (fun s a => f s (h a)) l acc.
Proof.
  revert acc. induction l as [|a l IH]; intros acc; simpl; [reflexivity|].
  apply IH.
Qed.

(** *** The model on known values

    Bit patterns and printed forms as every JavaScript engine gives them. *)

Example number_0_1 :
  ofDecimal 1 (-1) = S754_finite false 7205759403792794 (-56).
Proof. reflexivity. Qed.

Example number_0_01 :
  ofDecimal 1 (-2) = S754_finite false 5764607523034235 (-59).
Proof. reflexivity. Qed.

Example number_third :
  ofZ 1 / ofZ 3 = S754_finite false 6004799503160661 (-54).
Proof. reflexivity. Qed.

Example toString_samples :
  map toString
      [ofDecimal 1 (-1) + ofDecimal 2 (-1); ofZ 11 * ofDecimal 11 (-1);
       ofZ 1 / ofZ 3; ofDecimal 5 (-3); ofZ (-42); ofZ 0 * ofZ (-1);
       ofZ (2 ^ 64); ofZ (10 ^ 21); ofDecimal 1 (-7); ofZ 1 / ofZ 0;
       ofZ 0 / ofZ 0]
  = ["0.30000000000000004"; "12.100000000000001"; "0.3333333333333333";
     "0.005"; "-42"; "0"; "18446744073709552000"; "1e+21"; "1e-7";
     "Infinity"; "NaN"]%string.
Proof. vm_compute. reflexivity. Qed.

(** On integers the shortest digits are the decimal digits. *)
Example shortestDigits_integers :
  map (fun z => match ofZ z with
                | S754_finite _ m e =>
                    let '(d, n) := shortestDigits m e in layout d n
                | _ => EmptyString
                end)
      [1; 43; 236; 900; 1000; 10000; 123456789; 9007199254740992]%Z
  = map (fun z => decimal (Z.to_N z))
        [1; 43; 236; 900; 1000; 10000; 123456789; 9007199254740992]%Z.
Proof. vm_compute. reflexivity. Qed.

Example parseInt_samples :
  map (fun s => toString (parseInt s))
      ["0042"; "  42abc"; "-7"; "0x1F"; "abc"; "9007199254740993"]%string
  = ["42"; "42"; "-7"; "31"; "NaN"; "9007199254740992"]%string.
Proof. vm_compute. reflexivity. Qed.

(** *** Integers as numbers *)

Local Close Scope js_scope.

Lemma iter_pos_eq {A} (f : A -> A) (p : positive) (x : A) :
  iter_pos f p x = Pos.iter f x p.
Proof.
  revert x. induction p as [p IH|p IH|]; intros x; simpl.
  - rewrite !IH. rewrite <- !Pos.iter_swap. reflexivity.
  - rewrite !IH. reflexivity.
  - reflexivity.
Qed.

Lemma iter_shiftl_nat (q p : positive) :
  Pos.iter xO q p = Pos.shiftl_nat q (Pos.to_nat p).
Proof. apply Pos2Nat.inj_iter. Qed.

Lemma shiftl_nat_add (q : positive) (a b : nat) :
  Pos.shiftl_nat (Pos.shiftl_nat q a) b = Pos.shiftl_nat q (a + b).
Proof.
  induction b as [|b IH]; simpl.
  - now rewrite Nat.add_0_r.
  - rewrite Nat.add_succ_r. simpl. now rewrite <- IH.
Qed.

Lemma digits_shiftl_nat (q : positive) (n : nat) :
  Zpos (digits2_pos (Pos.shiftl_nat q n)) = Zpos (digits2_pos q) + Z.of_nat n.
Proof.
  induction n as [|n IH].
  - simpl. lia.
  - change (Pos.shiftl_nat q (S n)) with (xO (Pos.shiftl_nat q n)).
    cbn [digits2_pos]. lia.
Qed.

Lemma Zpos_shiftl_nat (q : positive) (n : nat) :
  Zpos (Pos.shiftl_nat q n) = Zpos q * 2 ^ Z.of_nat n.
Proof.
  induction n as [|n IH].
  - simpl. lia.
  - change (Pos.shiftl_nat q (S n)) with (xO (Pos.shiftl_nat q n)).
    rewrite Nat2Z.inj_succ, Z.pow_succ_r by lia. lia.
Qed.

Lemma shr_exact (q : positive) (k : nat) :
  Nat.iter k shr_1
    {| shr_m := Zpos (Pos.shiftl_nat q k); shr_r := false; shr_s := false |}
  = {| shr_m := Zpos q; shr_r := false; shr_s := false |}.
Proof.
  induction k as [|k IH].
  - reflexivity.
  - rewrite Nat.iter_succ_r.
    change (Pos.shiftl_nat q (S k)) with (xO (Pos.shiftl_nat q k)).
    simpl shr_1. exact IH.
Qed.

Lemma digits2_bounds (p : positive) :
  2 ^ (Zpos (digits2_pos p) - 1) <= Zpos p < 2 ^ Zpos (digits2_pos p).
Proof.
  induction p as [p IH|p IH|]; cbn [digits2_pos].
  - rewrite Pos2Z.inj_succ.
    replace (Z.succ (Zpos (digits2_pos p)) - 1) with (Z.succ (Zpos (digits2_pos p) - 1)) by lia.
    rewrite !Z.pow_succ_r by lia. lia.
  - rewrite Pos2Z.inj_succ.
    replace (Z.succ (Zpos (digits2_pos p)) - 1) with (Z.succ (Zpos (digits2_pos p) - 1)) by lia.
    rewrite !Z.pow_succ_r by lia. lia.
  - simpl. lia.
Qed.

Lemma digits2_le_53 (p : positive) :
  Zpos p < 2 ^ 53 -> Zpos (digits2_pos p) <= 53.
Proof.
  intros H. destruct (Z.le_gt_cases (Zpos (digits2_pos p)) 53) as [|Hgt]; [assumption|].
  pose proof (digits2_bounds p) as [Hlo _].
  assert (2 ^ 53 <= 2 ^ (Zpos (digits2_pos p) - 1)) by (apply Z.pow_le_mono_r; lia).
  lia.
Qed.

(** Rounding a mantissa of 53 bits at an exponent in range is exact. *)
Lemma round_aux_canonical (s : bool) (M : positive) (E : Z) :
  Zpos (digits2_pos M) = 53 -> -1074 <= E <= 971 ->
  binary_round_aux prec emax s (Zpos M) E loc_Exact = S754_finite s M E.
Proof.
  intros Hd HE.
  unfold binary_round_aux, shr_fexp, fexp, emin, prec, emax.
  cbn [Zdigits2 shr_record_of_loc]. rewrite Hd.
  replace (Z.max (53 + E - 53) (3 - 1024 - 53) - E) with 0 by lia.
  cbn [shr shr_m loc_of_shr_record round_nearest_even Zdigits2 shr_record_of_loc].
  rewrite Hd.
  replace (Z.max (53 + E - 53) (3 - 1024 - 53) - E) with 0 by lia.
  cbn [shr shr_m].
  replace (E <=? 1024 - 53) with true by (symmetry; apply Z.leb_le; lia).
  reflexivity.
Qed.

(** Rounding a 53-bit mantissa followed by [t] zero bits drops the zeros. *)
Lemma round_aux_shift (s : bool) (M : positive) (t : nat) (e : Z) :
  Zpos (digits2_pos M) = 53 -> -1074 <= e + Z.of_nat t <= 971 ->
  binary_round_aux prec emax s (Zpos (Pos.shiftl_nat M t)) e loc_Exact
  = S754_finite s M (e + Z.of_nat t).
Proof.
  intros Hd HE.
  destruct t as [|t].
  - simpl Pos.shiftl_nat. rewrite Z.add_0_r in *. now apply round_aux_canonical.
  - unfold binary_round_aux, shr_fexp, fexp, emin, prec, emax.
    cbn [Zdigits2 shr_record_of_loc]. rewrite digits_shiftl_nat, Hd.
    replace (Z.max (53 + Z.of_nat (S t) + e - 53) (3 - 1024 - 53) - e)
      with (Zpos (Pos.of_succ_nat t)) by lia.
    cbn [shr]. rewrite iter_pos_eq, Pos2Nat.inj_iter, SuccNat2Pos.id_succ.
    change (nat_rect (fun _ => shr_record) ?x (fun _ => shr_1) ?n)
      with (Nat.iter n shr_1 x).
    rewrite shr_exact.
    replace (e + Zpos (Pos.of_succ_nat t)) with (e + Z.of_nat (S t)) by lia.
    set (E := e + Z.of_nat (S t)) in *.
    cbn [shr_m loc_of_shr_record round_nearest_even Zdigits2 shr_record_of_loc].
    rewrite Hd.
    replace (Z.max (53 + E - 53) (3 - 1024 - 53) - E) with 0 by lia.
    cbn [shr shr_m].
    replace (E <=? 1024 - 53) with true by (symmetry; apply Z.leb_le; lia).
    reflexivity.
Qed.

(** The number of the integer [q * 2^j] at exponent [e], for [q] of at most
    53 bits. *)
Lemma binary_round_shift (s : bool) (q : positive) (j : nat) (e : Z) :
  let d := Zpos (digits2_pos q) in
  d <= 53 -> -1074 <= Z.of_nat j + e + d - 53 <= 971 ->
  binary_round prec emax s (Pos.shiftl_nat q j) e
  = S754_finite s (Pos.shiftl_nat q (Z.to_nat (53 - d))) (Z.of_nat j + e + d - 53).
Proof.
  intros d Hd HE. unfold binary_round.
  rewrite digits_shiftl_nat. fold d.
  unfold fexp at 1, emin, prec, emax.
  replace (Z.max (d + Z.of_nat j + e - 53) (3 - 1024 - 53))
    with (Z.of_nat j + e + d - 53) by lia.
  set (E := Z.of_nat j + e + d - 53) in *.
  assert (HM : Zpos (digits2_pos (Pos.shiftl_nat q (Z.to_nat (53 - d)))) = 53).
  { rewrite digits_shiftl_nat. fold d. lia. }
  unfold shl_align.
  destruct (E - e) as [|p|p] eqn:Ht.
  - (* no shift: j = 53 - d *)
    replace j with (Z.to_nat (53 - d)) by lia.
    replace e with E by lia.
    apply round_aux_canonical; [exact HM | lia].
  - (* the mantissa is too long by [p] zero bits *)
    replace (Pos.shiftl_nat q j)
      with (Pos.shiftl_nat (Pos.shiftl_nat q (Z.to_nat (53 - d))) (Pos.to_nat p)).
    2:{ rewrite shiftl_nat_add. f_equal. lia. }
    rewrite round_aux_shift; [f_equal; lia | exact HM | lia].
  - (* the mantissa is too short by [p] bits *)
    rewrite iter_shiftl_nat, shiftl_nat_add.
    replace (j + Pos.to_nat p)%nat with (Z.to_nat (53 - d)) by lia.
    apply round_aux_canonical; [exact HM | lia].
Qed.

(** Integers below [2^53] are numbers as they are. *)
Lemma ofZ_pos (P : positive) :
  let d := Zpos (digits2_pos P) in
  Zpos P < 2 ^ 53 ->
  ofZ (Zpos P) = S754_finite false (Pos.shiftl_nat P (Z.to_nat (53 - d))) (d - 53).
Proof.
  intros d HP. unfold ofZ, binary_normalize.
  pose proof (digits2_le_53 P HP) as Hd. fold d in Hd.
  assert (0 < d) by (unfold d; lia).
  change P with (Pos.shiftl_nat P 0) at 1.
  rewrite binary_round_shift; fold d; [f_equal; lia | lia | lia].
Qed.

Lemma ofZ_2_53 : ofZ (2 ^ 53) = S754_finite false (2 ^ 52)%positive 1.
Proof. reflexivity. Qed.

Lemma ofZ_1 : ofZ 1 = S754_finite false (2 ^ 52)%positive (-52).
Proof. reflexivity. Qed.

Lemma integerValue_ofZ (z : Z) :
  0 <= z <= 2 ^ 53 -> integerValue (ofZ z) = Some z.
Proof.
  intros Hz. destruct z as [|P|P]; [reflexivity| |lia].
  destruct (Z.eq_dec (Zpos P) (2 ^ 53)) as [->|Hne]; [reflexivity|].
  assert (HP : Zpos P < 2 ^ 53) by lia.
  rewrite (ofZ_pos P HP).
  pose proof (digits2_le_53 P HP) as Hd.
  set (d := Zpos (digits2_pos P)) in *.
  assert (0 < d) by (unfold d; lia).
  unfold integerValue. rewrite Zpos_shiftl_nat, Z2Nat.id by lia.
  destruct (0 <=? d - 53) eqn:He.
  - apply Z.leb_le in He. replace (d - 53) with 0 by lia.
    replace (53 - d) with 0 by lia. simpl. f_equal. lia.
  - replace (- (d - 53)) with (53 - d) by lia.
    rewrite Z.mod_mul by (apply Z.pow_nonzero; lia).
    rewrite Z.div_mul by (apply Z.pow_nonzero; lia).
    reflexivity.
Qed.

Lemma ofZ_finite (z : Z) :
  0 < z <= 2 ^ 53 -> exists m e, ofZ z = S754_finite false m e.
Proof.
  intros Hz. destruct z as [|P|P]; try lia.
  destruct (Z.eq_dec (Zpos P) (2 ^ 53)) as [->|Hne].
  - rewrite ofZ_2_53. eauto.
  - rewrite ofZ_pos by lia. eauto.
Qed.

(** Adding one is exact up to [2^53]. *)
Lemma add_one (z : Z) :
  0 <= z < 2 ^ 53 -> add (ofZ z) (ofZ 1) = ofZ (z + 1).
Proof.
  intros Hz. destruct z as [|P|P]; [reflexivity| |lia].
  assert (HP : Zpos P < 2 ^ 53) by lia.
  rewrite (ofZ_pos P HP), ofZ_1.
  pose proof (digits2_le_53 P HP) as Hd.
  set (d := Zpos (digits2_pos P)) in *.
  assert (0 < d) by (unfold d; lia).
  unfold add, SFadd.
  replace (Z.min (d - 53) (-52)) with (-52) by lia.
  assert (Hal : fst (shl_align (Pos.shiftl_nat P (Z.to_nat (53 - d))) (d - 53) (-52))
                = Pos.shiftl_nat P 52).
  { unfold shl_align. destruct (-52 - (d - 53)) as [|p|p] eqn:Hp; cbn [fst].
    - f_equal. lia.
    - lia.
    - rewrite iter_shiftl_nat, shiftl_nat_add. f_equal. lia. }
  rewrite Hal.
  assert (Hsum : cond_Zopp false (Zpos (Pos.shiftl_nat P 52))
                 + cond_Zopp false (Zpos (fst (shl_align (2 ^ 52) (-52) (-52))))
                 = Zpos (Pos.shiftl_nat (P + 1) 52)).
  { cbn [cond_Zopp].
    change (fst (shl_align (2 ^ 52) (-52) (-52))) with (Pos.shiftl_nat 1 52).
    rewrite !Zpos_shiftl_nat, Pos2Z.inj_add. ring. }
  rewrite Hsum.
  unfold binary_normalize.
  destruct (Z.eq_dec (Zpos P + 1) (2 ^ 53)) as [Heq|Hne].
  - replace (P + 1)%positive with (Pos.shiftl_nat 1 53).
    2:{ apply Pos2Z.inj. rewrite Zpos_shiftl_nat. lia. }
    rewrite shiftl_nat_add.
    rewrite binary_round_shift; [|simpl; lia|simpl; lia].
    replace (Zpos P + 1) with (2 ^ 53) by lia. reflexivity.
  - assert (HP1 : Zpos (P + 1) < 2 ^ 53) by lia.
    pose proof (digits2_le_53 _ HP1) as Hd1.
    change (Zpos P + 1) with (Zpos (P + 1)).
    rewrite (ofZ_pos _ HP1).
    rewrite binary_round_shift; [f_equal; lia | lia | lia].
Qed.

Lemma toString_ofZ (z : Z) :
  0 <= z <= 2 ^ 53 -> text (Number_toString (ofZ z)) = decimal (Z.to_N z).
Proof.
  intros Hz. destruct (Z.eq_dec z 0) as [->|Hnz]; [reflexivity|].
  destruct (ofZ_finite z ltac:(lia)) as (m & e & Hme).
  pose proof (integerValue_ofZ z Hz) as Hi. rewrite Hme in Hi.
  unfold text, Number_toString. rewrite Hme. cbn [canonZero parseFloat toString].
  rewrite Hi.
  replace (z <=? 2 ^ 53) with true by (symmetry; apply Z.leb_le; lia).
  reflexivity.
Qed.

(** *** Decimal digits *)

Lemma digitValue_digit (c : ascii) :
  isDigit c = true -> digitValue 10 c = Some (code c - 48)%N.
Proof. unfold isDigit, digitValue. intros ->. reflexivity. Qed.

Lemma parseDigits_digits (s : string) (acc : N) :
  allDigits s = true ->
  parseDigits 10 s (Some acc) = Some (digitsValue acc s).
Proof.
  revert acc. induction s as [|c s IH]; intros acc H; simpl in *.
  - reflexivity.
  - apply andb_prop in H as [Hc Hs].
    rewrite (digitValue_digit c Hc). apply IH, Hs.
Qed.

Lemma parseDigits_nonempty (c : ascii) (s : string) :
  allDigits (String c s) = true ->
  parseDigits 10 (String c s) None = Some (digitsValue 0 (String c s)).
Proof.
  intros H. simpl in H. apply andb_prop in H as [Hc Hs].
  cbn [parseDigits digitsValue]. rewrite (digitValue_digit c Hc).
  apply parseDigits_digits, Hs.
Qed.

Lemma ofZ_of_N (n : N) :
  match n with
  | N0 => S754_zero false
  | Npos p => ofZ (cond_Zopp false (Zpos p))
  end = ofZ (Z.of_N n).
Proof. destruct n; reflexivity. Qed.

(** [parseInt] of a non-empty string of decimal digits is the number of the
    integer they denote. *)
Lemma parseInt_digits (s : string) :
  s <> EmptyString -> allDigits s = true ->
  parseInt s = ofZ (Z.of_N (digitsValue 0 s)).
Proof.
  intros Hne H. destruct s as [|c s]; [congruence|].
  pose proof (parseDigits_nonempty c s H) as Hp.
  simpl in H. apply andb_prop in H as [Hc Hs].
  rewrite <- ofZ_of_N.
  destruct c as [b0 b1 b2 b3 b4 b5 b6 b7].
  destruct b0, b1, b2, b3, b4, b5, b6, b7; try discriminate Hc;
    try (destruct s as [|c2 [|c3 s3]]; unfold parseInt;
         cbn [trimStart isWhiteSpace1 isWhiteSpace2 isWhiteSpace3 code
              N_of_ascii N_of_digits N.leb N.eqb N.compare Pos.compare
              Pos.compare_cont Pos.eqb N.add N.mul Pos.add Pos.mul andb orb];
         rewrite Hp; reflexivity).
  destruct s as [|c2 s2]; [reflexivity|].
  simpl in Hs. apply andb_prop in Hs as [Hc2 Hs2].
  destruct c2 as [b0 b1 b2 b3 b4 b5 b6 b7].
  destruct b0, b1, b2, b3, b4, b5, b6, b7; try discriminate Hc2;
    destruct s2 as [|c3 s3]; unfold parseInt;
    cbn [trimStart isWhiteSpace1 isWhiteSpace2 isWhiteSpace3 code
         N_of_ascii N_of_digits N.leb N.eqb N.compare Pos.compare
         Pos.compare_cont Pos.eqb N.add N.mul Pos.add Pos.mul andb orb];
    rewrite Hp; reflexivity.
Qed.

Lemma prefix_app (p s : string) : String.prefix p (p ++ s) = true.
Proof.
  induction p as [|c p IH]; simpl.
  - destruct s; reflexivity.
  - destruct (ascii_dec c c) as [_|Hc]; [exact IH | congruence].
Qed.

Lemma dropn_app (p s : string) : dropn (String.length p) (p ++ s) = s.
Proof. induction p as [|c p IH]; simpl; [destruct s; reflexivity | exact IH]. Qed.

(** Removing the first occurrence of [p] from [p ++ s] strips the prefix. *)
Lemma replace_prefix (p s : string) : replace (p ++ s) p EmptyString = s.
Proof.
  assert (Hu : forall t, replace t p EmptyString
                         = if String.prefix p t
                           then EmptyString ++ dropn (String.length p) t
                           else match t with
                                | EmptyString => EmptyString
                                | String c t' => String c (replace t' p EmptyString)
                                end)
    by (intros t; destruct t; reflexivity).
  rewrite Hu, prefix_app, dropn_app. reflexivity.
Qed.

(** Decimal digits of the standard library and [digitsValue]. *)
Lemma digitsValue_uint (d : Decimal.uint) (acc : N) :
  digitsValue acc (NilEmpty.string_of_uint d) = uintValue acc d.
Proof. revert acc. induction d; intros acc; simpl; try apply IHd; reflexivity. Qed.

Lemma allDigits_uint (d : Decimal.uint) :
  allDigits (NilEmpty.string_of_uint d) = true.
Proof. induction d; simpl; auto. Qed.

Lemma uintValue_pos (d : Decimal.uint) (p : positive) :
  uintValue (Npos p) d = Npos (Pos.of_uint_acc d p).
Proof.
  revert p. induction d; intros p; cbn [uintValue Pos.of_uint_acc];
    try reflexivity; rewrite <- IHd; f_equal; lia.
Qed.

Lemma uintValue_0 (d : Decimal.uint) : uintValue 0 d = N.of_uint d.
Proof.
  unfold N.of_uint. induction d; cbn [uintValue Pos.of_uint]; try reflexivity;
    try exact IHd; apply uintValue_pos.
Qed.

Lemma decimal_NilEmpty (n : N) :
  decimal n = NilEmpty.string_of_uint (N.to_uint n).
Proof.
  unfold decimal, NilZero.string_of_uint.
  destruct (N.to_uint n) eqn:E; try reflexivity.
  destruct n; [discriminate E|]. simpl in E.
  now apply DecimalPos.Unsigned.to_uint_nonnil in E.
Qed.

Lemma allDigits_decimal (n : N) : allDigits (decimal n) = true.
Proof. rewrite decimal_NilEmpty. apply allDigits_uint. Qed.

(** The decimal digits of [n] denote [n]. *)
Lemma digitsValue_decimal (n : N) : digitsValue 0 (decimal n) = n.
Proof.
  rewrite decimal_NilEmpty, digitsValue_uint, uintValue_0.
  apply DecimalN.Unsigned.of_to.
Qed.

Lemma digitsValue_bound (s : string) (acc : N) :
  allDigits s = true ->
  (digitsValue acc s < (acc + 1) * 10 ^ N.of_nat (String.length s))%N.
Proof.
  revert acc. induction s as [|c s IH]; intros acc H.
  - simpl. lia.
  - simpl in H. apply andb_prop in H as [Hc Hs].
    cbn [digitsValue String.length]. specialize (IH (10 * acc + (code c - 48))%N Hs).
    rewrite Nat2N.inj_succ, N.pow_succ_r'.
    unfold isDigit in Hc. apply andb_prop in Hc as [H1 H2].
    apply N.leb_le in H1, H2.
    eapply N.lt_le_trans; [exact IH|].
    rewrite (N.mul_comm 10), N.mul_assoc.
    apply N.mul_le_mono_r. lia.
Qed.

Lemma decimal_nonempty (n : N) : decimal n <> EmptyString.
Proof.
  intros H. rewrite decimal_NilEmpty in H.
  destruct (N.to_uint n) eqn:E; try discriminate H.
  destruct n; [discriminate E|]. simpl in E.
  now apply DecimalPos.Unsigned.to_uint_nonnil in E.
Qed.

(** Numbers of five digits and more are not padded. *)
Lemma padStart0_long (n : N) :
  (10 ^ 3 <= n)%N -> padStart0 (decimal n) 4 = decimal n.
Proof.
  intros Hn. unfold padStart0.
  pose proof (digitsValue_bound (decimal n) 0 (allDigits_decimal n)) as Hb.
  rewrite digitsValue_decimal in Hb.
  destruct (4 <=? String.length (decimal n))%nat eqn:E; [reflexivity|].
  apply Nat.leb_gt in E.
  assert (10 ^ N.of_nat (String.length (decimal n)) <= 10 ^ 3)%N
    by (apply N.pow_le_mono_r; lia).
  lia.
Qed.


End NumberFacts.

(** ** Facts about the totals computation *)

Module TotalsFacts.
Import JS Storage InvoiceForm Statements NumberFacts.
Local Open Scope js_scope.

Lemma stored_lineSubtotal (item : InvoiceItemData) :
  canonZero (Spec.lineSubtotal (Spec.stored item))
  = canonZero (Spec.lineSubtotal item).
Proof. unfold Spec.lineSubtotal; simpl. auto with canon. Qed.

Lemma stored_discount (item : InvoiceItemData) :
  canonZero (Spec.discount (Spec.stored item)) = canonZero (Spec.discount item).
Proof.
  unfold Spec.discount. apply div_compat, mul_compat.
  - apply stored_lineSubtotal.
  - simpl. apply canonZero_idem.
Qed.

Lemma stored_tax (item : InvoiceItemData) :
  canonZero (Spec.tax (Spec.stored item)) = canonZero (Spec.tax item).
Proof.
  unfold Spec.tax, Spec.afterDiscount. apply div_compat, mul_compat.
  - apply sub_compat; [apply stored_lineSubtotal | apply stored_discount].
  - simpl. apply canonZero_idem.
Qed.

Lemma stored_amount (item : InvoiceItemData) :
  canonZero (Spec.amount (Spec.stored item)) = canonZero (Spec.amount item).
Proof.
  unfold Spec.amount, Spec.afterDiscount. apply add_compat.
  - apply sub_compat; [apply stored_lineSubtotal | apply stored_discount].
  - apply stored_tax.
Qed.

(** The three reductions of the create path read the items back from their
    strings and sum from the left. *)
Lemma create_subtotal_stored (items : list InvoiceItemData) :
  create_subtotal (create_calculatedItems items)
  = Spec.sum (fun item => Spec.lineSubtotal (Spec.stored item)) items.
Proof.
  unfold create_subtotal, create_calculatedItems, Spec.sum.
  rewrite fold_left_map. reflexivity.
Qed.

Lemma create_totalDiscount_stored (items : list InvoiceItemData) :
  create_totalDiscount (create_calculatedItems items)
  = Spec.sum (fun item => Spec.discount (Spec.stored item)) items.
Proof.
  unfold create_totalDiscount, create_calculatedItems, Spec.sum.
  rewrite fold_left_map. reflexivity.
Qed.

Lemma create_totalTax_stored (items : list InvoiceItemData) :
  create_totalTax (create_calculatedItems items)
  = Spec.sum (fun item => Spec.tax (Spec.stored item)) items.
Proof.
  unfold create_totalTax, create_calculatedItems, Spec.sum.
  rewrite fold_left_map. reflexivity.
Qed.

Lemma sum_stored (f : InvoiceItemData -> number) (items : list InvoiceItemData) :
  (forall item, canonZero (f (Spec.stored item)) = canonZero (f item)) ->
  canonZero (Spec.sum (fun item => f (Spec.stored item)) items)
  = canonZero (Spec.sum f items).
Proof.
  intros Hf. unfold Spec.sum. apply fold_add_compat; [exact Hf | reflexivity].
Qed.

Lemma create_totals (next : option string) (data : InvoiceFormData) :
  totals_of (f_items data) (fst (createInvoiceMutation next data)).
Proof.
  unfold totals_of, createInvoiceMutation; simpl.
  rewrite create_subtotal_stored, create_totalDiscount_stored,
    create_totalTax_stored.
  pose proof (sum_stored _ (f_items data) stored_lineSubtotal) as Hs.
  pose proof (sum_stored _ (f_items data) stored_discount) as Hd.
  pose proof (sum_stored _ (f_items data) stored_tax) as Ht.
  repeat split; f_equal; apply toString_canon; auto with canon.
Qed.

Lemma create_total_consistent (next : option string) (data : InvoiceFormData) :
  total_consistent (fst (createInvoiceMutation next data)).
Proof.
  unfold total_consistent, createInvoiceMutation; simpl.
  f_equal. apply toString_canon.
  apply add_compat; [apply sub_compat|]; symmetry; apply canonZero_idem.
Qed.

(** The update path is the create path, definition for definition. *)
Lemma update_is_create (inv : InvoiceWithClient) (data : InvoiceFormData) :
  updateInvoiceMutation (Some inv) data
  = Returned (id (invoice inv),
              {| u_invoiceNumber := None;
                 u_clientId := u_clientId (fst (createInvoiceMutation None data));
                 u_date := u_date (fst (createInvoiceMutation None data));
                 u_dueDate := u_dueDate (fst (createInvoiceMutation None data));
                 u_status := u_status (fst (createInvoiceMutation None data));
                 u_currency := u_currency (fst (createInvoiceMutation None data));
                 u_subtotal := u_subtotal (fst (createInvoiceMutation None data));
                 u_taxAmount := u_taxAmount (fst (createInvoiceMutation None data));
                 u_discountAmount :=
                   u_discountAmount (fst (createInvoiceMutation None data));
                 u_total := u_total (fst (createInvoiceMutation None data));
                 u_notes := u_notes (fst (createInvoiceMutation None data)) |},
              snd (createInvoiceMutation None data)).
Proof. reflexivity. Qed.

(** *** The preview path *)

(** A text that is a decimal literal reads alike as a whole and by its
    longest prefix. *)
Lemma literal_agree (s : string) :
  isDecimalLiteral s = true -> parseFloatText s = StringToNumber s.
Proof.
  unfold isDecimalLiteral, parseFloatText, StringToNumber, trim.
  destruct (StrDecimalLiteral s) as [[v rest]|] eqn:E; [|discriminate].
  destruct rest as [|c rest]; [|discriminate].
  rewrite andb_true_iff, !String.eqb_eq. intros [-> ->].
  rewrite E. destruct s as [|c r]; [discriminate E|].
  rewrite E. reflexivity.
Qed.

Lemma filled_reads (v : FieldValue) (str : FieldString) :
  filled v = true -> FieldValue_toString v = Returned str ->
  canonZero (FieldString_parseFloat str) = canonZero (ToNumber v).
Proof.
  destruct v as [|s|x]; simpl; intros Hf [= <-]; simpl.
  - now rewrite literal_agree.
  - apply canonZero_idem.
Qed.

Lemma filled_prints (v : FieldValue) :
  filled v = true -> exists str, FieldValue_toString v = Returned str.
Proof. destruct v; simpl; intros H; [discriminate| |]; eauto. Qed.

(** The preview maps the values as the other paths map the parsed data, as
    far as it gets. *)
Lemma preview_rows_of (random : nat -> number) (items : list ItemValues)
  (rows : list PreviewItem) :
  preview_calculatedItems random items = Returned rows ->
  Forall2 previewRowOf items rows.
Proof.
  revert random rows. induction items as [|item items IH]; intros random rows.
  - intros [= <-]. constructor.
  - cbn [preview_calculatedItems].
    destruct (FieldValue_toString (v_quantity item)) as [q|] eqn:Eq;
      [|discriminate].
    destruct (FieldValue_toString (v_rate item)) as [r|] eqn:Er; [|discriminate].
    cbn [andThen].
    destruct (preview_calculatedItems _ items) as [rows'|] eqn:E; [|discriminate].
    intros [= <-]. constructor; [|now apply (IH _ _ E)].
    unfold previewRowOf. cbn [p_quantity p_rate p_taxRate p_discountRate p_amount].
    repeat split; assumption || reflexivity.
Qed.

Lemma preview_defined (random : nat -> number) (items : list ItemValues) :
  Forall (fun item => filledItem item = true) items ->
  exists rows, preview_calculatedItems random items = Returned rows.
Proof.
  intros H. revert random. induction H as [|item items Hitem _ IH]; intros random.
  - eexists. reflexivity.
  - unfold filledItem in Hitem. apply andb_true_iff in Hitem as [Hq Hr].
    destruct (filled_prints _ Hq) as [q Eq], (filled_prints _ Hr) as [r Er].
    destruct (IH (fun i => random (S i))) as [rows E].
    cbn [preview_calculatedItems]. rewrite Eq, Er. cbn [andThen]. rewrite E.
    eexists. reflexivity.
Qed.

Lemma preview_amounts (items : list ItemValues) (rows : list PreviewItem) :
  Forall2 previewRowOf items rows ->
  map p_amount rows = map i_amount (create_calculatedItems (map coerceItem items)).
Proof.
  induction 1 as [|item row items rows Hrow _ IH]; [reflexivity|].
  change (p_amount row :: map p_amount rows
          = Number_toString (Spec.amount (coerceItem item))
            :: map i_amount (create_calculatedItems (map coerceItem items))).
  rewrite IH. f_equal. apply Hrow.
Qed.

Lemma fold_add_Forall2 {A B : Type} (g : A -> number) (g' : B -> number)
  (l : list A) (l' : list B) :
  Forall2 (fun a b => canonZero (g a) = canonZero (g' b)) l l' ->
  forall acc acc', canonZero acc = canonZero acc' ->
  canonZero (fold_left (fun s a => s + g a) l acc)
  = canonZero (fold_left (fun s b => s + g' b) l' acc').
Proof.
  induction 1 as [|a b l l' Hab _ IH]; intros acc acc' Hacc; simpl.
  - exact Hacc.
  - apply IH. now apply add_compat.
Qed.

Section PreviewRow.
Variables (item : ItemValues) (row : PreviewItem).
Hypothesis Hrow : previewRowOf item row.
Hypothesis Hfilled : filledItem item = true.

Lemma row_lineSubtotal :
  canonZero (FieldString_parseFloat (p_quantity row)
             * FieldString_parseFloat (p_rate row))
  = canonZero (Spec.lineSubtotal (Spec.stored (coerceItem item))).
Proof.
  destruct Hrow as (Hq & Hr & _).
  unfold filledItem in Hfilled. apply andb_true_iff in Hfilled as [Fq Fr].
  unfold Spec.lineSubtotal, Spec.stored.
  cbn [quantity rate coerceItem]. rewrite !parseFloat_toString.
  apply mul_compat.
  - rewrite (filled_reads _ _ Fq Hq). symmetry. apply canonZero_idem.
  - rewrite (filled_reads _ _ Fr Hr). symmetry. apply canonZero_idem.
Qed.

Lemma row_discount :
  canonZero (FieldString_parseFloat (p_quantity row)
             * FieldString_parseFloat (p_rate row)
             * parseFloat (p_discountRate row) / ofZ 100)
  = canonZero (Spec.discount (Spec.stored (coerceItem item))).
Proof.
  unfold Spec.discount. apply div_compat, mul_compat.
  - apply row_lineSubtotal.
  - destruct Hrow as (_ & _ & _ & -> & _). reflexivity.
Qed.

Lemma row_tax :
  canonZero ((FieldString_parseFloat (p_quantity row)
              * FieldString_parseFloat (p_rate row)
              - FieldString_parseFloat (p_quantity row)
                * FieldString_parseFloat (p_rate row)
                * parseFloat (p_discountRate row) / ofZ 100)
             * parseFloat (p_taxRate row) / ofZ 100)
  = canonZero (Spec.tax (Spec.stored (coerceItem item))).
Proof.
  unfold Spec.tax, Spec.afterDiscount. apply div_compat, mul_compat.
  - apply sub_compat; [apply row_lineSubtotal | apply row_discount].
  - destruct Hrow as (_ & _ & -> & _). reflexivity.
Qed.
End PreviewRow.

Lemma Forall2_filled (P : PreviewItem -> ItemValues -> Prop)
  (items : list ItemValues) (rows : list PreviewItem) :
  (forall item row, previewRowOf item row -> filledItem item = true -> P row item) ->
  Forall (fun item => filledItem item = true) items ->
  Forall2 previewRowOf items rows -> Forall2 P rows items.
Proof.
  intros HP Hf H. induction H as [|item row items rows Hrow _ IH].
  - constructor.
  - inversion Hf; subst. constructor; auto.
Qed.

(** On values that are filled in, the three sums of the preview are those of
    the create path on the parsed data, up to the sign of a zero. *)
Lemma preview_sums (items : list ItemValues) (rows : list PreviewItem) :
  Forall (fun item => filledItem item = true) items ->
  Forall2 previewRowOf items rows ->
  canonZero (preview_subtotal rows)
  = canonZero (create_subtotal (create_calculatedItems (map coerceItem items)))
  /\ canonZero (preview_totalDiscount rows)
     = canonZero (create_totalDiscount
                    (create_calculatedItems (map coerceItem items)))
  /\ canonZero (preview_totalTax rows)
     = canonZero (create_totalTax (create_calculatedItems (map coerceItem items))).
Proof.
  intros Hf Hrows.
  rewrite create_subtotal_stored, create_totalDiscount_stored,
    create_totalTax_stored.
  unfold Spec.sum. rewrite !fold_left_map.
  unfold preview_subtotal, preview_totalDiscount, preview_totalTax.
  repeat split; apply fold_add_Forall2; try reflexivity;
    apply Forall2_filled; try assumption; intros item row Hrow Hitem.
  - now apply row_lineSubtotal.
  - now apply row_discount.
  - now apply row_tax.
Qed.

(** Reading the computed rows back and computing again gives the same rows
    and the same totals: the strings at rest are a fixed point. *)
Lemma stored_idem (item : InvoiceItemData) :
  Spec.stored (Spec.stored item) = Spec.stored item.
Proof.
  unfold Spec.stored. cbn [description quantity rate taxRate discountRate].
  rewrite !parseFloat_toString, !canonZero_idem. reflexivity.
Qed.

Lemma create_calculatedItems_stored (items : list InvoiceItemData) :
  create_calculatedItems (map Spec.stored items) = create_calculatedItems items.
Proof.
  unfold create_calculatedItems. rewrite map_map. apply map_ext.
  intros item. cbn [description]. f_equal.
  - unfold Spec.stored; cbn [quantity]. rewrite parseFloat_toString.
    apply toString_canon, canonZero_idem.
  - unfold Spec.stored; cbn [rate]. rewrite parseFloat_toString.
    apply toString_canon, canonZero_idem.
  - unfold Spec.stored; cbn [taxRate]. rewrite parseFloat_toString.
    apply toString_canon, canonZero_idem.
  - unfold Spec.stored; cbn [discountRate]. rewrite parseFloat_toString.
    apply toString_canon, canonZero_idem.
  - apply toString_canon. exact (stored_amount item).
Qed.

Lemma sum_map_stored (f : InvoiceItemData -> number)
  (items : list InvoiceItemData) :
  Spec.sum (fun item => f (Spec.stored item)) (map Spec.stored items)
  = Spec.sum (fun item => f (Spec.stored item)) items.
Proof.
  unfold Spec.sum.
  rewrite (fold_left_map (fun acc item => acc + f (Spec.stored item)) Spec.stored).
  generalize (ofZ 0). induction items as [|item items IH]; intros acc; simpl.
  - reflexivity.
  - rewrite stored_idem. apply IH.
Qed.

Lemma recompute_from_stored (next : option string) (data data' : InvoiceFormData) :
  f_items data' = map Spec.stored (f_items data) ->
  create_result next data' = create_result next data.
Proof.
  intros H. unfold create_result, createInvoiceMutation, payload_totals.
  cbn [u_subtotal u_discountAmount u_taxAmount u_total option_map].
  rewrite H, !create_subtotal_stored, !create_totalDiscount_stored,
    !create_totalTax_stored, !sum_map_stored, create_calculatedItems_stored.
  reflexivity.
Qed.

End TotalsFacts.

(** ** Facts about the validation *)

Module ValidationFacts.
Import JS Storage InvoiceForm Statements.

Lemma SFcompare_antisym (x y : number) :
  SFcompare y x = option_map CompOpp (SFcompare x y).
Proof.
  destruct x as [sx|sx| |sx mx ex], y as [sy|sy| |sy my ey];
    try (try destruct sx; try destruct sy; reflexivity).
  pose proof (Z.compare_antisym ex ey) as HZ.
  assert (HP : Pos.compare_cont Eq my mx = CompOpp (Pos.compare_cont Eq mx my))
    by (symmetry; apply (Pos.compare_cont_antisym mx my Eq)).
  simpl. rewrite HZ, HP.
  destruct sx, sy, (ex ?= ey), (Pos.compare_cont Eq mx my); reflexivity.
Qed.

Lemma SFcompare_defined (x y : number) :
  isNaN x = false -> isNaN y = false -> exists c, SFcompare x y = Some c.
Proof.
  destruct x as [sx|sx| |sx mx ex], y as [sy|sy| |sy my ey];
    simpl; intros Hx Hy; try discriminate; eauto.
Qed.

(** On numbers, "not less than" is "greater than or equal". *)
Lemma not_ltb_geb (x m : number) :
  isNaN m = false -> negb (isNaN x) && negb (ltb x m) = geb x m.
Proof.
  intros Hm. unfold ltb, geb, SFltb, SFleb. rewrite (SFcompare_antisym x m).
  destruct (isNaN x) eqn:Hx.
  - destruct x; try discriminate Hx. reflexivity.
  - destruct (SFcompare_defined x m Hx Hm) as [c ->]. destruct c; reflexivity.
Qed.

Lemma not_gtb_leb (x m : number) :
  isNaN m = false -> negb (isNaN x) && negb (gtb x m) = leb x m.
Proof.
  intros Hm. unfold gtb, leb, SFltb, SFleb. rewrite (SFcompare_antisym x m).
  destruct (isNaN x) eqn:Hx.
  - destruct x; try discriminate Hx. reflexivity.
  - destruct (SFcompare_defined x m Hx Hm) as [c ->]. destruct c; reflexivity.
Qed.

Lemma numberMin_geb (m x : number) :
  isNaN m = false -> numberMin m x = geb x m.
Proof. intros Hm. unfold numberMin. now apply not_ltb_geb. Qed.

Lemma numberMinMax_range (m M x : number) :
  isNaN m = false -> isNaN M = false ->
  numberMinMax m M x = geb x m && leb x M.
Proof.
  intros Hm HM. unfold numberMinMax.
  rewrite <- (not_ltb_geb x m Hm), <- (not_gtb_leb x M HM).
  destruct (isNaN x); simpl; [reflexivity|].
  reflexivity.
Qed.

Lemma stringMin1_nonempty (s : string) :
  stringMin1 s = true <-> s <> EmptyString.
Proof. destruct s; simpl; split; congruence. Qed.

Lemma invoiceItemSchema_accepted (item : InvoiceItemData) :
  invoiceItemSchema item = true <-> Spec.accepted item.
Proof.
  unfold invoiceItemSchema, Spec.accepted.
  rewrite numberMin_geb, numberMin_geb, !numberMinMax_range by reflexivity.
  rewrite !andb_true_iff, stringMin1_nonempty. tauto.
Qed.

(** A rejected item stops the submission before any request is built. *)
Lemma rejected_item_stops (inv : option InvoiceWithClient)
  (next : option string) (data : InvoiceFormData) (item : InvoiceItemData) :
  In item (f_items data) -> invoiceItemSchema item = false ->
  handleSubmit inv next data = None.
Proof.
  intros Hin Hrej. unfold handleSubmit, invoiceFormSchema.
  assert (Hall : forallb invoiceItemSchema (f_items data) = false).
  { apply not_true_is_false. intros Hall.
    rewrite forallb_forall in Hall. specialize (Hall item Hin). congruence. }
  rewrite Hall, andb_false_r. reflexivity.
Qed.

(** The preview is not behind the schema: it computes the totals of the
    values as they are. *)
Lemma preview_skips_validation (next : option string)
  (random : nat -> number) (now : Z) :
  invoiceFormSchema (coerce (exampleValues [typedItem "0.005" "100" 18 0])) = false
  /\ exists r,
       preview_result [exampleClient] None next random now
         (exampleValues [typedItem "0.005" "100" 18 0])
       = Returned r
       /\ result_text r = Some (["0.59"], ("0.5", "0", "0.09", "0.59"))%string.
Proof.
  split; [vm_compute; reflexivity|].
  eexists. split; [reflexivity|]. vm_compute. reflexivity.
Qed.

End ValidationFacts.

(** ** Facts about the storage *)

Module StorageFacts.
Import JS Storage InvoiceForm Statements NumberFacts.

Lemma set_keeps_number (u : PartialInsertInvoice) (r : Invoice) :
  u_invoiceNumber u = None ->
  invoiceNumber (set u r) = invoiceNumber r /\ id (set u r) = id r.
Proof. intros H. unfold set; simpl. rewrite H. split; reflexivity. Qed.

Lemma update_rows_keep_number (u : PartialInsertInvoice) (id0 : string)
  (rows : list Invoice) :
  u_invoiceNumber u = None ->
  map identity (map (fun r => if String.eqb (id r) id0 then set u r else r) rows)
  = map identity rows.
Proof.
  intros H. rewrite map_map. apply map_ext. intros r.
  destruct (String.eqb (id r) id0); [|reflexivity].
  unfold identity. now destruct (set_keeps_number u r H) as [-> ->].
Qed.

(** An update without values would assign nothing. *)
Lemma set_nothing (u : PartialInsertInvoice) (r : Invoice) :
  noValuesToSet u = true -> set u r = r.
Proof.
  unfold noValuesToSet, set. destruct u as [a b c d e f g h i j k]; simpl.
  destruct a, b, c, d, e, f, g, h, i, j, k; try discriminate.
  intros _. destruct r; reflexivity.
Qed.

(** [updateInvoice] rewrites the invoice rows only through [set]. *)
Lemma updateInvoice_invoices (id0 : string) (u : PartialInsertInvoice)
  (items : option (list InsertInvoiceItem)) (db : Database) :
  invoices (snd (updateInvoice id0 u items db))
  = map (fun r => if String.eqb (id r) id0 then set u r else r) (invoices db).
Proof.
  unfold updateInvoice. destruct (noValuesToSet u) eqn:Eu.
  - cbn [snd]. symmetry. erewrite map_ext; [apply map_id|].
    intros r. destruct (String.eqb (id r) id0); [|reflexivity].
    now apply set_nothing.
  - cbn [invoices].
    destruct (filter _ _) as [|r rs]; [reflexivity|].
    destruct items as [[|item items]|]; try reflexivity.
    destruct (insertItems _ _ _) as [rows next].
    reflexivity.
Qed.

Lemma In_insertDesc (x r : Invoice) (l : list Invoice) :
  In x (insertDesc r l) <-> x = r \/ In x l.
Proof.
  induction l as [|h t IH]; simpl.
  - intuition.
  - destruct (createdAt h <=? createdAt r); simpl; [intuition|].
    rewrite IH. intuition.
Qed.

Lemma In_orderBy (x : Invoice) (l : list Invoice) :
  In x (orderByCreatedAtDesc l) <-> In x l.
Proof.
  induction l as [|h t IH]; simpl; [tauto|].
  rewrite In_insertDesc, IH. intuition.
Qed.

Lemma insertDesc_head_latest (r : Invoice) (l : list Invoice) :
  head_latest l -> head_latest (insertDesc r l).
Proof.
  destruct l as [|h t]; simpl; [tauto|]. intros H.
  destruct (createdAt h <=? createdAt r) eqn:E; simpl.
  - apply Z.leb_le in E. intros x [<-|Hx]; [exact E|].
    specialize (H x Hx). lia.
  - apply Z.leb_gt in E. intros x Hx. apply In_insertDesc in Hx as [->|Hx].
    + lia.
    + apply H, Hx.
Qed.

Lemma orderBy_head_latest (l : list Invoice) :
  head_latest (orderByCreatedAtDesc l).
Proof.
  induction l as [|h t IH]; simpl; [exact I|].
  apply insertDesc_head_latest, IH.
Qed.

(** [lastInvoice] is a most recently created invoice. *)
Lemma lastInvoice_latest (db : Database) (last : Invoice) :
  lastInvoice db = [last] ->
  In last (invoices db)
  /\ forall r, In r (invoices db) -> createdAt r <= createdAt last.
Proof.
  unfold lastInvoice. intros H.
  pose proof (orderBy_head_latest (invoices db)) as Hh.
  pose proof (fun x => In_orderBy x (invoices db)) as Hin.
  destruct (orderByCreatedAtDesc (invoices db)) as [|h t]; [discriminate H|].
  simpl in H. injection H as ->. split.
  - apply Hin. now left.
  - intros r Hr. apply Hin in Hr as [<-|Hr]; [lia|]. apply Hh, Hr.
Qed.

Lemma lastInvoice_none (db : Database) :
  invoices db = [] <-> lastInvoice db = [].
Proof.
  unfold lastInvoice. split; intros H.
  - rewrite H. reflexivity.
  - pose proof (fun x => In_orderBy x (invoices db)) as Hin.
    destruct (orderByCreatedAtDesc (invoices db)) as [|h t]; [|discriminate H].
    destruct (invoices db) as [|r rs]; [reflexivity|].
    exfalso. apply (Hin r). now left.
Qed.

Lemma getSetting_absent (k : string) (db : Database) :
  (forall s, In s (settings db) -> key s <> k) -> getSetting k db = None.
Proof.
  unfold getSetting. intros H.
  destruct (filter _ (settings db)) as [|s rest] eqn:E; [reflexivity|].
  assert (Hs : In s (filter (fun s => String.eqb (key s) k) (settings db)))
    by (rewrite E; now left).
  apply filter_In in Hs as [Hin Hk]. apply String.eqb_eq in Hk.
  now destruct (H s Hin).
Qed.

(** [getSetting] reads the first row of the key. *)
Lemma getSetting_first (k : string) (db : Database) (pre : list Settings)
  (row : Settings) (post : list Settings) :
  settings db = (pre ++ row :: post)%list ->
  (forall s, In s pre -> key s <> k) ->
  key row = k ->
  getSetting k db = Some (value row).
Proof.
  intros Hrows Hpre Hkey. unfold getSetting. rewrite Hrows, filter_app.
  assert (Hnone : filter (fun s => String.eqb (key s) k) pre = []).
  { clear Hrows. induction pre as [|s pre IH]; [reflexivity|]. simpl.
    assert (Hs : String.eqb (key s) k = false)
      by (apply String.eqb_neq, Hpre; now left).
    rewrite Hs. apply IH. intros s' Hs'. apply Hpre. now right. }
  rewrite Hnone. simpl. apply String.eqb_eq in Hkey. now rewrite Hkey.
Qed.

(** The steps of [getNextInvoiceNumber] on a last number made of the prefix
    and decimal digits. *)
Section NextNumber.
Variables (db : Database) (last : Invoice) (ds : string).
Hypothesis Hlast : lastInvoice db = [last].
Hypothesis Hnumber : invoiceNumber last = configuredPrefix db ++ ds.
Hypothesis Hnonempty : ds <> EmptyString.
Hypothesis Hdigits : Spec.allDigits ds = true.

Lemma next_number_steps :
  getNextInvoiceNumber db
  = configuredPrefix db
    ++ padStart0
         (text (Number_toString
                  (add (ofZ (Z.of_N (Spec.digitsValue 0 ds))) (ofZ 1)))) 4.
Proof.
  unfold getNextInvoiceNumber. rewrite Hlast, Hnumber, replace_prefix.
  rewrite (parseInt_digits ds Hnonempty Hdigits). reflexivity.
Qed.

Lemma next_number_exact :
  (Spec.digitsValue 0 ds < 2 ^ 53)%N ->
  getNextInvoiceNumber db
  = configuredPrefix db ++ padStart0 (decimal (Spec.digitsValue 0 ds + 1)) 4.
Proof.
  intros Hn. rewrite next_number_steps.
  assert (Hz : 0 <= Z.of_N (Spec.digitsValue 0 ds) < 2 ^ 53).
  { split; [lia|]. change (2 ^ 53) with (Z.of_N (2 ^ 53)). lia. }
  rewrite add_one by exact Hz.
  rewrite toString_ofZ by lia.
  do 3 f_equal. lia.
Qed.
End NextNumber.

End StorageFacts.

(** * Main results *)

Import JS Storage InvoiceForm Statements.
Import NumberFacts TotalsFacts ValidationFacts StorageFacts.

(** C1: for every line item with quantity q, rate r, discount rate d and tax
    rate t, the amount computed by the create path and by the update path is
    (q*r) - (q*r*d/100) + ((q*r - q*r*d/100) * t/100), derived in order as
    lineSubtotal, discount, afterDiscount, tax, amount. *)
Theorem C1_line_item_amount (items : list InvoiceItemData) :
  Forall2 line_amount_ok items (create_calculatedItems items)
  /\ Forall2 line_amount_ok items (update_calculatedItems items).
Proof.
  split; induction items as [|item items IH]; simpl; constructor; try exact IH;
    unfold line_amount_ok; simpl; repeat split; try reflexivity;
    apply SameValueZero_parse.
Qed.

(** C2: for every list of line items, the create path and the update path
    produce subtotal = sum of quantity*rate, discountAmount = sum of the
    per-line discounts, taxAmount = sum of the per-line taxes, and
    total = subtotal - discountAmount + taxAmount. *)
Theorem C2_totals_are_sums (next : option string) (inv : InvoiceWithClient)
  (data : InvoiceFormData) :
  (totals_of (f_items data) (fst (createInvoiceMutation next data))
   /\ total_consistent (fst (createInvoiceMutation next data)))
  /\ match updateInvoiceMutation (Some inv) data with
     | Returned (_, payload, _) =>
         totals_of (f_items data) payload /\ total_consistent payload
     | Thrown _ => False
     end.
Proof.
  split.
  - split; [apply create_totals | apply create_total_consistent].
  - rewrite update_is_create.
    split; [exact (create_totals None data)
           | exact (create_total_consistent None data)].
Qed.

(** C3: the three copies of the totals computation do not agree on every
    input of the form.  With 2 typed into Quantity and Rate cleared, the
    submission is accepted, and the create path and the update path send the
    amount 0 and the totals 0, since [Number] reads the empty text as 0.  The
    preview reads the values of the form as they are: its amount is 0, and
    its subtotal, discountAmount, taxAmount and total are NaN, since
    [parseFloat] of the empty text is NaN.  On a row that is not filled in the
    preview throws. *)
Theorem C3_preview_blank_rate (next : option string) (inv : InvoiceWithClient)
  (inv' : option InvoiceWithClient) (random : nat -> number) (now : Z) :
  let values := exampleValues [typedItem "2" EmptyString 18 0] in
  invoiceFormSchema (coerce values) = true
  /\ result_text (create_result next (coerce values))
     = Some (["0"], ("0", "0", "0", "0"))
  /\ result_text (update_result inv (coerce values))
     = Some (["0"], ("0", "0", "0", "0"))
  /\ (exists r,
        preview_result [exampleClient] inv' next random now values = Returned r
        /\ result_text r = Some (["0"], ("NaN", "NaN", "NaN", "NaN")))
  /\ exists message,
       preview_result [exampleClient] inv' next random now
         (exampleValues [blankValues])
       = Thrown message.
Proof.
  intros values. split; [vm_compute; reflexivity|].
  split; [vm_compute; reflexivity|].
  split; [vm_compute; reflexivity|].
  split.
  - eexists. split; [reflexivity|]. vm_compute. reflexivity.
  - eexists. reflexivity.
Qed.

(** C4: the totals computation is deterministic: two runs on identical lists
    of line items yield identical per-item rows and identical subtotal,
    discountAmount, taxAmount and total, whatever else differs between the
    runs. *)
Theorem C4_totals_deterministic (next1 next2 : option string)
  (data1 data2 : InvoiceFormData) :
  f_items data1 = f_items data2 ->
  snd (createInvoiceMutation next1 data1) = snd (createInvoiceMutation next2 data2)
  /\ create_result next1 data1 = create_result next2 data2.
Proof.
  intros H. unfold create_result, createInvoiceMutation; simpl.
  rewrite H. split; reflexivity.
Qed.

Lemma C4_totals_deterministic_witness :
  snd (createInvoiceMutation None (exampleData [exampleItem 2 100 18 0]))
  = snd (createInvoiceMutation (Some "INV-0002")
           (exampleData [exampleItem 2 100 18 0]))
  /\ create_result None (exampleData [exampleItem 2 100 18 0])
     = create_result (Some "INV-0002") (exampleData [exampleItem 2 100 18 0]).
Proof.
  apply (C4_totals_deterministic None (Some "INV-0002")
           (exampleData [exampleItem 2 100 18 0])
           (exampleData [exampleItem 2 100 18 0])).
  reflexivity.
Defined.

(** C7: the worked examples.  On {quantity 2, rate 100, taxRate 18,
    discountRate 0}: lineSubtotal 200, discount 0, tax 36, amount 236,
    subtotal 200, taxAmount 36, total 236.  On {quantity 1, rate 1000,
    taxRate 0, discountRate 10}: discount 100, afterDiscount 900, tax 0,
    amount 900, total 900. *)
Theorem C7_worked_examples (next : option string) :
  (Spec.lineSubtotal (exampleItem 2 100 18 0) = ofZ 200
   /\ Spec.discount (exampleItem 2 100 18 0) = ofZ 0
   /\ Spec.tax (exampleItem 2 100 18 0) = ofZ 36
   /\ Spec.amount (exampleItem 2 100 18 0) = ofZ 236
   /\ result_text (create_result next (exampleData [exampleItem 2 100 18 0]))
      = Some (["236"], ("200", "0", "36", "236")))
  /\ (Spec.discount (exampleItem 1 1000 0 10) = ofZ 100
      /\ Spec.afterDiscount (exampleItem 1 1000 0 10) = ofZ 900
      /\ Spec.tax (exampleItem 1 1000 0 10) = ofZ 0
      /\ Spec.amount (exampleItem 1 1000 0 10) = ofZ 900
      /\ result_text (create_result next (exampleData [exampleItem 1 1000 0 10]))
         = Some (["900"], ("1000", "100", "0", "900"))).
Proof.
  repeat split; vm_compute; reflexivity.
Qed.

(** C5: when no invoice exists, getNextInvoiceNumber returns the configured
    prefix followed by "0001".  The configured prefix is the value of the
    first settings row of key 'invoice_prefix', when that value is not empty;
    the prefix is "INV-" when no settings row has the key, so that the result
    is then "INV-0001". *)
Theorem C5_first_invoice_number (db : Database) :
  invoices db = [] ->
  getNextInvoiceNumber db = configuredPrefix db ++ "0001"
  /\ (forall pre row post,
        settings db = (pre ++ row :: post)%list ->
        (forall s, In s pre -> key s <> "invoice_prefix") ->
        key row = "invoice_prefix" -> value row <> EmptyString ->
        configuredPrefix db = value row
        /\ getNextInvoiceNumber db = value row ++ "0001")
  /\ ((forall s, In s (settings db) -> key s <> "invoice_prefix") ->
      configuredPrefix db = "INV-" /\ getNextInvoiceNumber db = "INV-0001").
Proof.
  intros Hnone.
  assert (H1 : getNextInvoiceNumber db = configuredPrefix db ++ "0001").
  { unfold getNextInvoiceNumber.
    now rewrite (proj1 (lastInvoice_none db) Hnone). }
  split; [exact H1|]. split.
  - intros pre row post Hrows Hpre Hkey Hne.
    assert (Hp : configuredPrefix db = value row).
    { unfold configuredPrefix.
      rewrite (getSetting_first _ db pre row post Hrows Hpre Hkey).
      destruct (value row); [congruence | reflexivity]. }
    split; [exact Hp | now rewrite H1, Hp].
  - intros Habsent. rewrite H1. unfold configuredPrefix.
    rewrite (getSetting_absent _ db Habsent). split; reflexivity.
Qed.

Lemma C5_first_invoice_number_witness :
  let db := exampleDatabase []
              [{| key := "defaultCurrency"; value := "USD" |};
               {| key := "invoice_prefix"; value := "BILL-" |}] in
  invoices db = [] /\ getNextInvoiceNumber db = "BILL-0001".
Proof.
  intros db. split; [reflexivity|].
  apply (proj1 (proj2 (C5_first_invoice_number db eq_refl))
           [{| key := "defaultCurrency"; value := "USD" |}]
           {| key := "invoice_prefix"; value := "BILL-" |} []).
  - reflexivity.
  - intros s [<-|[]]. discriminate.
  - reflexivity.
  - discriminate.
Defined.

(** C6: when the most recently created invoice has a number made of the
    configured prefix followed by digits, getNextInvoiceNumber strips the
    prefix, parses the digits as an integer, increments by 1 and pads to 4
    digits with leading zeros; last number "INV-0042" with prefix "INV-" gives
    "INV-0043".  The integer is a Number and the increment its [+ 1]: for
    digits denoting n < 2^53 the result is the prefix and the padded decimal
    digits of n + 1. *)
Theorem C6_next_invoice_number (db : Database) (last : Invoice) (ds : string) :
  lastInvoice db = [last] ->
  invoiceNumber last = configuredPrefix db ++ ds ->
  ds <> EmptyString ->
  Spec.allDigits ds = true ->
  (In last (invoices db)
   /\ forall r, In r (invoices db) -> (createdAt r <= createdAt last)%Z)
  /\ replace (invoiceNumber last) (configuredPrefix db) EmptyString = ds
  /\ parseInt ds = ofZ (Z.of_N (Spec.digitsValue 0 ds))
  /\ getNextInvoiceNumber db
     = configuredPrefix db
       ++ padStart0
            (text (Number_toString
                     (add (ofZ (Z.of_N (Spec.digitsValue 0 ds))) (ofZ 1)))) 4
  /\ ((Spec.digitsValue 0 ds < 2 ^ 53)%N ->
      getNextInvoiceNumber db
      = configuredPrefix db ++ padStart0 (decimal (Spec.digitsValue 0 ds + 1)) 4)
  /\ (configuredPrefix db = "INV-" -> ds = "0042" ->
      getNextInvoiceNumber db = "INV-0043").
Proof.
  intros Hlast Hnumber Hne Hdigits.
  split; [exact (lastInvoice_latest db last Hlast)|].
  split; [rewrite Hnumber; apply replace_prefix|].
  split; [exact (parseInt_digits ds Hne Hdigits)|].
  split; [exact (next_number_steps db last ds Hlast Hnumber Hne Hdigits)|].
  split; [exact (next_number_exact db last ds Hlast Hnumber Hne Hdigits)|].
  intros Hp Hds.
  rewrite (next_number_exact db last ds Hlast Hnumber Hne Hdigits).
  - rewrite Hp, Hds. reflexivity.
  - rewrite Hds. reflexivity.
Qed.

Lemma C6_next_invoice_number_witness :
  lastInvoice (exampleDatabase [exampleInvoice "i1" "INV-0041" 1;
                                exampleInvoice "i2" "INV-0042" 2] [])
  = [exampleInvoice "i2" "INV-0042" 2]
  /\ getNextInvoiceNumber
       (exampleDatabase [exampleInvoice "i1" "INV-0041" 1;
                         exampleInvoice "i2" "INV-0042" 2] [])
     = "INV-0043".
Proof.
  split; [reflexivity|].
  apply (C6_next_invoice_number
           (exampleDatabase [exampleInvoice "i1" "INV-0041" 1;
                             exampleInvoice "i2" "INV-0042" 2] [])
           (exampleInvoice "i2" "INV-0042" 2) "0042");
    try reflexivity.
  discriminate.
Defined.

(** C8, as stated, fails: an item with quantity 0.005 is valid in the words
    of the specification (quantity > 0, rate >= 0, rates within [0, 100]), and
    the schema rejects it. *)
Lemma C8_counterexample :
  Spec.valid smallQuantityItem = true
  /\ invoiceItemSchema smallQuantityItem = false.
Proof. split; vm_compute; reflexivity. Qed.

(** C8, amended: an item is accepted if and only if its description is not
    empty, quantity >= 0.01, rate >= 0, and tax rate and discount rate are
    within [0, 100]; an item that is not accepted stops the submission before
    any totals are computed. *)
Theorem C8_item_validation :
  (forall item, invoiceItemSchema item = true <-> Spec.accepted item)
  /\ (forall inv next data item,
         In item (f_items data) -> ~ Spec.accepted item ->
         handleSubmit inv next data = None).
Proof.
  split; [exact invoiceItemSchema_accepted|].
  intros inv next data item Hin Hrej.
  apply (rejected_item_stops inv next data item Hin).
  apply not_true_is_false. intros H. apply Hrej.
  now apply invoiceItemSchema_accepted.
Qed.

Lemma C8_item_validation_witness :
  In smallQuantityItem (f_items (exampleData [smallQuantityItem]))
  /\ ~ Spec.accepted smallQuantityItem
  /\ handleSubmit None None (exampleData [smallQuantityItem]) = None.
Proof.
  assert (Hrej : ~ Spec.accepted smallQuantityItem).
  { intros (_ & Hq & _). vm_compute in Hq. discriminate Hq. }
  split; [now left|]. split; [exact Hrej|].
  apply (proj2 C8_item_validation None None
           (exampleData [smallQuantityItem]) smallQuantityItem).
  - now left.
  - exact Hrej.
Defined.

(** C9: an invoice's invoiceNumber is immutable through the update path: the
    update payload has no invoiceNumber, updateInvoice assigns only the fields
    present in its argument, and so every invoice row keeps its id and its
    number. *)
Theorem C9_invoice_number_immutable (inv : InvoiceWithClient)
  (data : InvoiceFormData) (db : Database) :
  match updateInvoiceMutation (Some inv) data with
  | Returned (id0, payload, items) =>
      id0 = id (invoice inv)
      /\ u_invoiceNumber payload = None
      /\ map identity (invoices (snd (updateInvoice id0 payload (Some items) db)))
         = map identity (invoices db)
  | Thrown _ => False
  end
  /\ (forall u r, u_invoiceNumber u = None ->
                  invoiceNumber (set u r) = invoiceNumber r)
  /\ (forall u id0 items,
         u_invoiceNumber u = None ->
         map identity (invoices (snd (updateInvoice id0 u items db)))
         = map identity (invoices db)).
Proof.
  assert (Hgen : forall u id0 items,
             u_invoiceNumber u = None ->
             map identity (invoices (snd (updateInvoice id0 u items db)))
             = map identity (invoices db)).
  { intros u id0 items Hu. rewrite updateInvoice_invoices.
    now apply update_rows_keep_number. }
  split; [|split].
  - rewrite update_is_create. split; [reflexivity|]. split; [reflexivity|].
    now apply Hgen.
  - intros u r Hu. now apply set_keeps_number.
  - exact Hgen.
Qed.

Lemma C9_invoice_number_immutable_witness :
  let db := exampleDatabase [exampleInvoice "i1" "INV-0041" 1;
                             exampleInvoice "i2" "INV-0042" 2] [] in
  let u := fst (createInvoiceMutation None (exampleData [exampleItem 1 1000 0 10])) in
  let u' := {| u_invoiceNumber := None;
               u_clientId := u_clientId u; u_date := u_date u;
               u_dueDate := u_dueDate u; u_status := Some paid;
               u_currency := u_currency u; u_subtotal := u_subtotal u;
               u_taxAmount := u_taxAmount u;
               u_discountAmount := u_discountAmount u;
               u_total := u_total u; u_notes := u_notes u |} in
  map identity (invoices (snd (updateInvoice "i2" u' None db)))
  = [("i1", "INV-0041"); ("i2", "INV-0042")].
Proof.
  intros db u u'.
  change [("i1", "INV-0041"); ("i2", "INV-0042")] with (map identity (invoices db)).
  apply (proj2 (proj2 (C9_invoice_number_immutable
                         {| invoice := exampleInvoice "i2" "INV-0042" 2;
                            client := None; items := [] |}
                         (exampleData []) db))).
  reflexivity.
Defined.

(** C10, as stated, fails: past 2^53 the increment is not exact.  With last
    number "INV-9007199254740992" the next number is the same number again,
    not "INV-9007199254740993". *)
Lemma C10_counterexample :
  let db := exampleDatabase [exampleInvoice "i1" "INV-9007199254740992" 1] [] in
  lastInvoice db = [exampleInvoice "i1" "INV-9007199254740992" 1]
  /\ configuredPrefix db = "INV-"
  /\ Spec.allDigits "9007199254740992" = true
  /\ (9999 < Spec.digitsValue 0 "9007199254740992" + 1)%N
  /\ getNextInvoiceNumber db = "INV-9007199254740992"
  /\ getNextInvoiceNumber db
     <> configuredPrefix db
        ++ decimal (Spec.digitsValue 0 "9007199254740992" + 1).
Proof.
  intros db. repeat split; try (vm_compute; reflexivity).
  vm_compute. discriminate.
Qed.

(** C10, amended: for a last number made of the prefix and digits denoting n
    with 9999 < n + 1 <= 2^53, getNextInvoiceNumber neither truncates nor
    wraps: it returns the prefix followed by all the decimal digits of n + 1,
    whose value n + 1 is above n. *)
Theorem C10_past_9999 (db : Database) (last : Invoice) (ds : string) :
  lastInvoice db = [last] ->
  invoiceNumber last = configuredPrefix db ++ ds ->
  ds <> EmptyString ->
  Spec.allDigits ds = true ->
  (9999 < Spec.digitsValue 0 ds + 1)%N ->
  (Spec.digitsValue 0 ds + 1 <= 2 ^ 53)%N ->
  getNextInvoiceNumber db
  = configuredPrefix db ++ decimal (Spec.digitsValue 0 ds + 1)
  /\ padStart0 (decimal (Spec.digitsValue 0 ds + 1)) 4
     = decimal (Spec.digitsValue 0 ds + 1)
  /\ Spec.allDigits (decimal (Spec.digitsValue 0 ds + 1)) = true
  /\ Spec.digitsValue 0 (decimal (Spec.digitsValue 0 ds + 1))
     = (Spec.digitsValue 0 ds + 1)%N
  /\ (Spec.digitsValue 0 ds
      < Spec.digitsValue 0 (decimal (Spec.digitsValue 0 ds + 1)))%N.
Proof.
  intros Hlast Hnumber Hne Hdigits Hbig Hsafe.
  assert (Hpad : padStart0 (decimal (Spec.digitsValue 0 ds + 1)) 4
                 = decimal (Spec.digitsValue 0 ds + 1))
    by (apply padStart0_long; lia).
  split; [|split; [exact Hpad|split; [apply allDigits_decimal|]]].
  - rewrite (next_number_exact db last ds Hlast Hnumber Hne Hdigits) by lia.
    now rewrite Hpad.
  - rewrite digitsValue_decimal. split; [reflexivity | lia].
Qed.

Lemma C10_past_9999_witness :
  getNextInvoiceNumber (exampleDatabase [exampleInvoice "i1" "INV-9999" 1] [])
  = "INV-10000"
  /\ Spec.digitsValue 0 "10000" = 10000%N.
Proof.
  split; [|reflexivity].
  apply (C10_past_9999
           (exampleDatabase [exampleInvoice "i1" "INV-9999" 1] [])
           (exampleInvoice "i1" "INV-9999" 1) "9999");
    try reflexivity.
  - discriminate.
  - vm_compute. discriminate.
Defined.

(** * Further results *)

(** ** Settings *)

Module SettingsFacts.
Import JS Storage StorageRest FormRest SettingsPage.

Lemma first_after_update (k v : string) (l : list Settings) :
  filter (fun s => String.eqb (key s) k) l <> [] ->
  exists rest,
    filter (fun s => String.eqb (key s) k)
           (map (fun s => if String.eqb (key s) k
                          then {| key := key s; value := v |} else s) l)
    = {| key := k; value := v |} :: rest.
Proof.
  induction l as [|a l IH]; simpl; [congruence|].
  destruct (String.eqb (key a) k) eqn:E; simpl.
  - rewrite E. apply String.eqb_eq in E. rewrite E. eauto.
  - rewrite E. exact IH.
Qed.

Lemma other_keys_after_update (k k' v : string) (l : list Settings) :
  k' <> k ->
  filter (fun s => String.eqb (key s) k')
         (map (fun s => if String.eqb (key s) k
                        then {| key := key s; value := v |} else s) l)
  = filter (fun s => String.eqb (key s) k') l.
Proof.
  intros Hne. induction l as [|a l IH]; simpl; [reflexivity|].
  destruct (String.eqb (key a) k) eqn:E; simpl.
  - apply String.eqb_eq in E.
    assert (Hk : String.eqb (key a) k' = false)
      by (apply String.eqb_neq; congruence).
    rewrite Hk. exact IH.
  - destruct (String.eqb (key a) k'); [f_equal|]; exact IH.
Qed.

Lemma keys_after_update (k v : string) (l : list Settings) :
  map key (map (fun s => if String.eqb (key s) k
                         then {| key := key s; value := v |} else s) l)
  = map key l.
Proof.
  rewrite map_map. apply map_ext. intros a.
  destruct (String.eqb (key a) k); reflexivity.
Qed.

Lemma no_row_no_key (k : string) (l : list Settings) :
  filter (fun s => String.eqb (key s) k) l = [] -> ~ In k (map key l).
Proof.
  intros H Hin. apply in_map_iff in Hin as (s & Hs & Hin).
  assert (In s (filter (fun s => String.eqb (key s) k) l))
    by (apply filter_In; split; [exact Hin | now apply String.eqb_eq]).
  rewrite H in *. contradiction.
Qed.

Lemma getSetting_setSetting (k v : string) (db : Database) :
  getSetting k (setSetting k v db) = Some v.
Proof.
  unfold getSetting, setSetting.
  destruct (filter _ (settings db)) as [|s rest] eqn:E; cbn [settings withSettings].
  - rewrite filter_app, E. simpl. rewrite String.eqb_refl. reflexivity.
  - destruct (first_after_update k v (settings db)) as [rest' ->];
      [rewrite E; discriminate | reflexivity].
Qed.

Lemma getSetting_setSetting_other (k k' v : string) (db : Database) :
  k' <> k -> getSetting k' (setSetting k v db) = getSetting k' db.
Proof.
  intros Hne. unfold getSetting, setSetting.
  destruct (filter (fun s => String.eqb (key s) k) (settings db)) as [|s rest];
    cbn [settings withSettings].
  - rewrite filter_app. simpl.
    assert (Hk : String.eqb k k' = false) by (apply String.eqb_neq; congruence).
    rewrite Hk, app_nil_r. reflexivity.
  - now rewrite other_keys_after_update.
Qed.

Lemma setSetting_tables (k v : string) (db : Database) :
  clients (setSetting k v db) = clients db
  /\ invoices (setSetting k v db) = invoices db
  /\ invoiceItems (setSetting k v db) = invoiceItems db.
Proof.
  unfold setSetting. destruct (filter _ (settings db)); repeat split.
Qed.

Lemma find_filter {A : Type} (p : A -> bool) (l : list A) :
  find p l = match filter p l with [] => None | a :: _ => Some a end.
Proof.
  induction l as [|a l IH]; simpl; [reflexivity|].
  destruct (p a); [reflexivity | exact IH].
Qed.

Lemma settingsMap_first (k : string) (l : list Settings) (acc : option string) :
  NoDup (map key l) ->
  fold_left (fun acc setting =>
               if String.eqb (key setting) k then Some (value setting) else acc)
            l acc
  = match filter (fun s => String.eqb (key s) k) l with
    | [] => acc
    | s :: _ => Some (value s)
    end.
Proof.
  revert acc. induction l as [|a l IH]; intros acc Hnd; simpl; [reflexivity|].
  inversion Hnd as [|? ? Hnotin Hnd']; subst.
  destruct (String.eqb (key a) k) eqn:E.
  - rewrite (IH _ Hnd').
    destruct (filter (fun s => String.eqb (key s) k) l) as [|s rest] eqn:F;
      [reflexivity|].
    exfalso. apply Hnotin. apply String.eqb_eq in E. rewrite E.
    apply in_map_iff. exists s.
    assert (Hs : In s (filter (fun s => String.eqb (key s) k) l))
      by (rewrite F; now left).
    apply filter_In in Hs as [Hin Hk]. apply String.eqb_eq in Hk. now split.
  - apply (IH _ Hnd').
Qed.

End SettingsFacts.

Import JS Storage InvoiceForm Statements StorageRest FormRest SettingsPage.
Import SettingsFacts.

(** X1: a setting that has been set is read back: after [setSetting k v],
    [getSetting k] is [v], whether the key existed or not. *)
Theorem X1_setSetting_getSetting (k v : string) (db : Database) :
  getSetting k (setSetting k v db) = Some v.
Proof. apply getSetting_setSetting. Qed.

(** X2: [setSetting k v] leaves every other key as it reads, and the
    clients, invoices and invoice items as they are. *)
Theorem X2_setSetting_frame (k v : string) (db : Database) :
  (forall k', k' <> k -> getSetting k' (setSetting k v db) = getSetting k' db)
  /\ clients (setSetting k v db) = clients db
  /\ invoices (setSetting k v db) = invoices db
  /\ invoiceItems (setSetting k v db) = invoiceItems db.
Proof.
  split; [intros k' H; now apply getSetting_setSetting_other|].
  apply setSetting_tables.
Qed.

Lemma X2_setSetting_frame_witness :
  getSetting "defaultCurrency"
    (setSetting "invoicePrefix" "BILL-"
       (exampleDatabase [] [setting "defaultCurrency" "USD"]))
  = Some "USD".
Proof.
  apply (proj1 (X2_setSetting_frame "invoicePrefix" "BILL-"
                  (exampleDatabase [] [setting "defaultCurrency" "USD"]))
               "defaultCurrency").
  discriminate.
Defined.

(** X3: [setSetting] never duplicates a key: when the keys of the settings
    table are pairwise distinct they stay so, an existing key keeps the number
    of rows and a new key adds exactly one row. *)
Theorem X3_setSetting_keys_unique (k v : string) (db : Database) :
  NoDup (map key (settings db)) ->
  NoDup (map key (settings (setSetting k v db)))
  /\ List.length (settings (setSetting k v db))
     = match getSetting k db with
       | Some _ => List.length (settings db)
       | None => S (List.length (settings db))
       end.
Proof.
  intros Hnd. unfold setSetting, getSetting.
  destruct (filter _ (settings db)) as [|s rest] eqn:E; cbn [settings withSettings].
  - split.
    + rewrite map_app. simpl.
      apply Permutation_NoDup with (l := k :: map key (settings db)).
      * apply Permutation_cons_append.
      * constructor; [now apply no_row_no_key | exact Hnd].
    + rewrite length_app. simpl. lia.
  - split.
    + now rewrite keys_after_update.
    + now rewrite length_map.
Qed.

Lemma X3_setSetting_keys_unique_witness :
  NoDup (map key (settings
                    (setSetting "defaultCurrency" "EUR"
                       (exampleDatabase [] [setting "defaultCurrency" "USD"]))))
  /\ List.length (settings
                    (setSetting "defaultCurrency" "EUR"
                       (exampleDatabase [] [setting "defaultCurrency" "USD"])))
     = 1%nat.
Proof.
  apply (X3_setSetting_keys_unique "defaultCurrency" "EUR"
           (exampleDatabase [] [setting "defaultCurrency" "USD"])).
  simpl. constructor; [intros [] | constructor].
Defined.

(** X4: the invoice numbering reads the key 'invoice_prefix' only.  Storing
    any other key, among them every key that the three forms of the settings
    page save ("invoicePrefix" included), leaves the configured prefix and the
    next invoice number as they were. *)
Theorem X4_settings_page_keys_ignored (db : Database) :
  (forall k v, k <> "invoice_prefix" ->
     configuredPrefix (setSetting k v db) = configuredPrefix db
     /\ getNextInvoiceNumber (setSetting k v db) = getNextInvoiceNumber db)
  /\ (forall formData s,
        In s (generalSettings formData ++ paymentSettings formData
              ++ companySettings formData) ->
        getNextInvoiceNumber (setSetting (key s) (value s) db)
        = getNextInvoiceNumber db).
Proof.
  assert (Hgen : forall k v, k <> "invoice_prefix" ->
            configuredPrefix (setSetting k v db) = configuredPrefix db
            /\ getNextInvoiceNumber (setSetting k v db) = getNextInvoiceNumber db).
  { intros k v Hk.
    assert (Hp : configuredPrefix (setSetting k v db) = configuredPrefix db).
    { unfold configuredPrefix.
      rewrite getSetting_setSetting_other by congruence. reflexivity. }
    split; [exact Hp|].
    unfold getNextInvoiceNumber, lastInvoice. rewrite Hp.
    now rewrite (proj1 (proj2 (setSetting_tables k v db))). }
  split; [exact Hgen|].
  intros formData s Hin. apply Hgen.
  simpl in Hin.
  repeat (destruct Hin as [<-|Hin]; [discriminate|]).
  contradiction.
Qed.

Lemma X4_settings_page_keys_ignored_witness :
  getNextInvoiceNumber
    (setSetting "invoicePrefix" "BILL-"
       (exampleDatabase [exampleInvoice "i1" "INV-0007" 1] []))
  = "INV-0008".
Proof.
  apply (proj1 (X4_settings_page_keys_ignored
                  (exampleDatabase [exampleInvoice "i1" "INV-0007" 1] []))
               "invoicePrefix" "BILL-").
  discriminate.
Defined.

(** X5: the pages and the server read a setting alike: [getSettingValue] over
    the rows of the table is [getSetting] with the default for a missing or
    empty value; and when the keys of the table are pairwise distinct, which
    [setSetting] maintains, the settings page loads for each key (other than
    "__proto__", which its object does not hold) the value that [getSetting]
    returns. *)
Theorem X5_settings_read_alike (db : Database) (k d : string) :
  getSettingValue (settings db) k d = orString (getSetting k db) d
  /\ (NoDup (map key (settings db)) -> k <> "__proto__" ->
      settingsMap (settings db) k = getSetting k db).
Proof.
  split.
  - unfold getSettingValue, getSetting. rewrite find_filter.
    destruct (filter _ (settings db)); reflexivity.
  - intros Hnd _. unfold settingsMap, getSetting.
    now rewrite settingsMap_first.
Qed.

Lemma X5_settings_read_alike_witness :
  settingsMap
    (settings (exampleDatabase [] [setting "defaultCurrency" "USD";
                                   setting "upiId" "a@b"]))
    "upiId"
  = Some "a@b".
Proof.
  apply (proj2 (X5_settings_read_alike
                  (exampleDatabase [] [setting "defaultCurrency" "USD";
                                       setting "upiId" "a@b"])
                  "upiId" EmptyString)).
  - simpl. repeat constructor; simpl; intuition discriminate.
  - discriminate.
Defined.

(** ** Invoices in the store *)

Module InvoiceStoreFacts.
Import JS Storage InvoiceForm Statements StorageRest FormRest.
Import NumberFacts TotalsFacts StorageFacts.

Lemma set_id (u : PartialInsertInvoice) (r : Invoice) : id (set u r) = id r.
Proof. reflexivity. Qed.

Lemma filter_updated (u : PartialInsertInvoice) (id0 : string)
  (l : list Invoice) :
  filter (hasId id0) (map (fun r => if hasId id0 r then set u r else r) l)
  = map (set u) (filter (hasId id0) l).
Proof.
  induction l as [|a l IH]; simpl; [reflexivity|].
  destruct (hasId id0 a) eqn:E; simpl.
  - unfold hasId in *. rewrite set_id, E. simpl. f_equal. exact IH.
  - rewrite E. exact IH.
Qed.

Lemma map_unchanged (u : PartialInsertInvoice) (id0 : string)
  (l : list Invoice) :
  (forall r, In r l -> id r <> id0) ->
  map (fun r => if hasId id0 r then set u r else r) l = l.
Proof.
  intros H. induction l as [|a l IH]; simpl; [reflexivity|].
  assert (Ha : hasId id0 a = false)
    by (apply String.eqb_neq, H; now left).
  rewrite Ha. f_equal. apply IH. intros r Hr. apply H. now right.
Qed.

Lemma filter_none (id0 : string) (l : list Invoice) :
  (forall r, In r l -> id r <> id0) <-> filter (hasId id0) l = [].
Proof.
  split.
  - intros H. induction l as [|a l IH]; simpl; [reflexivity|].
    assert (Ha : hasId id0 a = false) by (apply String.eqb_neq, H; now left).
    rewrite Ha. apply IH. intros r Hr. apply H. now right.
  - intros H r Hr Hid.
    assert (Hin : In r (filter (hasId id0) l))
      by (apply filter_In; split; [exact Hr | now apply String.eqb_eq]).
    rewrite H in Hin. contradiction.
Qed.

Lemma insertItems_rows (id0 : string) (l : list InsertInvoiceItem) (n : N) :
  map rowFields (fst (insertItems id0 l n)) = l
  /\ Forall (fun it => item_invoiceId it = id0) (fst (insertItems id0 l n)).
Proof.
  revert n. induction l as [|a l IH]; intros n; simpl.
  - split; constructor.
  - specialize (IH (N.succ n)).
    destruct (insertItems id0 l (N.succ n)) as [rows next].
    simpl in *. destruct IH as [IH1 IH2]. split.
    + rewrite IH1. destruct a; reflexivity.
    + constructor; [reflexivity | exact IH2].
Qed.

Lemma filter_all_of (id0 : string) (rows : list InvoiceItem) :
  Forall (fun it => item_invoiceId it = id0) rows ->
  filter (ofInvoice id0) rows = rows.
Proof.
  induction 1 as [|a l Ha _ IH]; simpl; [reflexivity|].
  unfold ofInvoice at 1. rewrite Ha, String.eqb_refl. now f_equal.
Qed.

Lemma filter_none_of (id0 id' : string) (rows : list InvoiceItem) :
  id' <> id0 ->
  Forall (fun it => item_invoiceId it = id0) rows ->
  filter (ofInvoice id') rows = [].
Proof.
  intros Hne. induction 1 as [|a l Ha _ IH]; simpl; [reflexivity|].
  unfold ofInvoice at 1. rewrite Ha.
  assert (E : String.eqb id0 id' = false) by (apply String.eqb_neq; congruence).
  now rewrite E.
Qed.

Lemma filter_kept_same (id0 : string) (l : list InvoiceItem) :
  filter (ofInvoice id0) (filter (fun it => negb (ofInvoice id0 it)) l) = [].
Proof.
  induction l as [|a l IH]; simpl; [reflexivity|].
  destruct (ofInvoice id0 a) eqn:E; simpl; [exact IH|].
  rewrite E. exact IH.
Qed.

Lemma filter_kept_other (id0 id' : string) (l : list InvoiceItem) :
  id' <> id0 ->
  filter (ofInvoice id') (filter (fun it => negb (ofInvoice id0 it)) l)
  = filter (ofInvoice id') l.
Proof.
  intros Hne. induction l as [|a l IH]; simpl; [reflexivity|].
  destruct (ofInvoice id0 a) eqn:E; simpl.
  - assert (E' : ofInvoice id' a = false).
    { unfold ofInvoice in *. apply String.eqb_eq in E.
      apply String.eqb_neq. congruence. }
    rewrite E'. exact IH.
  - destruct (ofInvoice id' a); [f_equal|]; exact IH.
Qed.

Lemma updateInvoice_existing (id0 : string) (u : PartialInsertInvoice)
  (a : InsertInvoiceItem) (l : list InsertInvoiceItem) (db : Database)
  (r : Invoice) :
  In r (invoices db) -> id r = id0 -> noValuesToSet u = false ->
  updateInvoice id0 u (Some (a :: l)) db
  = (Returned (getInvoice id0 (updatedStore id0 u (a :: l) db)),
     updatedStore id0 u (a :: l) db).
Proof.
  intros Hin Hid Hu. unfold updateInvoice. rewrite Hu.
  cbn [invoices invoiceItems nextRowId clients settings].
  change (fun r0 : Invoice => String.eqb (id r0) id0) with (hasId id0).
  rewrite filter_updated.
  destruct (filter (hasId id0) (invoices db)) as [|r0 rest] eqn:E.
  - exfalso. apply (proj2 (filter_none id0 (invoices db)) E r Hin Hid).
  - cbn [map]. unfold updatedStore.
    change (fun it : InvoiceItem => negb (String.eqb (item_invoiceId it) id0))
      with (fun it : InvoiceItem => negb (ofInvoice id0 it)).
    destruct (insertItems id0 (a :: l) (nextRowId db)) as [rows next].
    reflexivity.
Qed.

Lemma getInvoiceItems_updated (id0 : string) (u : PartialInsertInvoice)
  (l : list InsertInvoiceItem) (db : Database) :
  getInvoiceItems id0 (updatedStore id0 u l db)
  = fst (insertItems id0 l (nextRowId db)).
Proof.
  unfold getInvoiceItems, updatedStore. cbn [invoiceItems].
  change (fun it : InvoiceItem => String.eqb (item_invoiceId it) id0)
    with (ofInvoice id0).
  rewrite filter_app, filter_kept_same. simpl.
  apply filter_all_of, insertItems_rows.
Qed.

Lemma getInvoiceItems_updated_other (id0 id' : string)
  (u : PartialInsertInvoice) (l : list InsertInvoiceItem) (db : Database) :
  id' <> id0 ->
  getInvoiceItems id' (updatedStore id0 u l db) = getInvoiceItems id' db.
Proof.
  intros Hne. unfold getInvoiceItems, updatedStore. cbn [invoiceItems].
  change (fun it : InvoiceItem => String.eqb (item_invoiceId it) id')
    with (ofInvoice id').
  rewrite filter_app, (filter_kept_other id0 id') by exact Hne.
  rewrite (filter_none_of id0 id' (fst (insertItems id0 l (nextRowId db))))
    by (exact Hne || apply insertItems_rows).
  apply app_nil_r.
Qed.

Lemma getInvoice_updated (id0 : string) (u : PartialInsertInvoice)
  (l : list InsertInvoiceItem) (db : Database) (r0 : Invoice)
  (rest : list Invoice) :
  filter (hasId id0) (invoices db) = r0 :: rest ->
  getInvoice id0 (updatedStore id0 u l db)
  = Some {| invoice := set u r0;
            client := find (fun c => String.eqb (clientId (set u r0)) (client_id c))
                           (clients db);
            items := fst (insertItems id0 l (nextRowId db)) |}.
Proof.
  intros E. unfold getInvoice.
  rewrite getInvoiceItems_updated.
  unfold updatedStore at 1. cbn [invoices].
  change (fun r : Invoice => String.eqb (id r) id0) with (hasId id0).
  rewrite filter_updated, E. reflexivity.
Qed.

End InvoiceStoreFacts.

Import InvoiceStoreFacts NumberFacts TotalsFacts StorageFacts.

(** X6: [updateInvoice] on an id that no invoice has changes nothing: no
    field is assigned and, although items are given, none is deleted or
    inserted.  It returns undefined, unless the update has no values: then
    [.set] throws before anything is sent. *)
Theorem X6_update_unknown_id (id0 : string) (u : PartialInsertInvoice)
  (items : option (list InsertInvoiceItem)) (db : Database) :
  (forall r, In r (invoices db) -> id r <> id0) ->
  updateInvoice id0 u items db
  = (if noValuesToSet u then Thrown "No values to set" else Returned None, db).
Proof.
  intros H. unfold updateInvoice.
  destruct (noValuesToSet u); [reflexivity|]. cbn [invoices].
  change (fun r : Invoice => if String.eqb (id r) id0 then set u r else r)
    with (fun r : Invoice => if hasId id0 r then set u r else r).
  change (fun r : Invoice => String.eqb (id r) id0) with (hasId id0).
  rewrite (map_unchanged u id0 (invoices db) H).
  rewrite (proj1 (filter_none id0 (invoices db)) H).
  destruct db; reflexivity.
Qed.

Lemma X6_update_unknown_id_witness :
  let db := exampleDatabase [exampleInvoice "i1" "INV-0001" 1] [] in
  updateInvoice "i9" examplePayload (Some [exampleRow]) db = (Returned None, db).
Proof.
  intros db. apply (X6_update_unknown_id "i9" examplePayload (Some [exampleRow]) db).
  intros r [<-|[]]. discriminate.
Defined.

(** X7: [updateInvoice] with values to set and a non-empty list of items, on
    an existing invoice, replaces the items of that invoice by the given ones,
    in order, and leaves the items of every other invoice as they are; the
    invoice it returns carries the new items.  Without an items argument no
    item row changes. *)
Theorem X7_update_replaces_items (id0 : string) (u : PartialInsertInvoice)
  (a : InsertInvoiceItem) (l : list InsertInvoiceItem) (db : Database)
  (r : Invoice) :
  In r (invoices db) -> id r = id0 -> noValuesToSet u = false ->
  (map rowFields
       (getInvoiceItems id0 (snd (updateInvoice id0 u (Some (a :: l)) db)))
   = a :: l
   /\ (forall id', id' <> id0 ->
        getInvoiceItems id' (snd (updateInvoice id0 u (Some (a :: l)) db))
        = getInvoiceItems id' db)
   /\ exists iw,
        fst (updateInvoice id0 u (Some (a :: l)) db) = Returned (Some iw)
        /\ id (invoice iw) = id0
        /\ map rowFields (items iw) = a :: l)
  /\ invoiceItems (snd (updateInvoice id0 u None db)) = invoiceItems db.
Proof.
  intros Hin Hid Hu. split.
  - rewrite (updateInvoice_existing id0 u a l db r Hin Hid Hu). cbn [fst snd].
    split; [|split].
    + rewrite getInvoiceItems_updated. apply insertItems_rows.
    + intros id' Hne. now apply getInvoiceItems_updated_other.
    + destruct (filter (hasId id0) (invoices db)) as [|r0 rest] eqn:E.
      * exfalso. apply (proj2 (filter_none id0 (invoices db)) E r Hin Hid).
      * rewrite (getInvoice_updated id0 u (a :: l) db r0 rest E).
        eexists. split; [reflexivity|]. cbn [invoice items]. split.
        -- rewrite set_id.
           assert (Hr0 : In r0 (filter (hasId id0) (invoices db)))
             by (rewrite E; now left).
           apply filter_In in Hr0 as [_ Hr0]. now apply String.eqb_eq in Hr0.
        -- apply insertItems_rows.
  - unfold updateInvoice. rewrite Hu. cbn [invoices].
    destruct (filter _ _); reflexivity.
Qed.

Lemma X7_update_replaces_items_witness :
  let db := exampleDatabase [exampleInvoice "i1" "INV-0001" 1] [] in
  map rowFields
      (getInvoiceItems "i1"
         (snd (updateInvoice "i1" examplePayload (Some [exampleRow]) db)))
  = [exampleRow].
Proof.
  intros db.
  apply (X7_update_replaces_items "i1" examplePayload exampleRow [] db
           (exampleInvoice "i1" "INV-0001" 1)).
  - now left.
  - reflexivity.
  - reflexivity.
Defined.

(** X8: [updateInvoice] with an empty array of items on an existing invoice
    throws.  When the update has values to set, the insert of no values
    throws after the fields of the invoice have been assigned and its items
    deleted, and the update is not undone.  When it has none, [.set] throws
    first and nothing has changed. *)
Theorem X8_update_empty_items (id0 : string) (u : PartialInsertInvoice)
  (db : Database) (r : Invoice) :
  In r (invoices db) -> id r = id0 ->
  if noValuesToSet u
  then updateInvoice id0 u (Some []) db = (Thrown "No values to set", db)
  else
    fst (updateInvoice id0 u (Some []) db)
    = Thrown "values() must be called with at least one value"
    /\ invoices (snd (updateInvoice id0 u (Some []) db))
       = map (fun r => if hasId id0 r then set u r else r) (invoices db)
    /\ getInvoiceItems id0 (snd (updateInvoice id0 u (Some []) db)) = []
    /\ (forall id', id' <> id0 ->
          getInvoiceItems id' (snd (updateInvoice id0 u (Some []) db))
          = getInvoiceItems id' db).
Proof.
  intros Hin Hid. unfold updateInvoice.
  destruct (noValuesToSet u); [reflexivity|]. cbn [invoices invoiceItems].
  change (fun r : Invoice => if String.eqb (id r) id0 then set u r else r)
    with (fun r : Invoice => if hasId id0 r then set u r else r).
  change (fun r : Invoice => String.eqb (id r) id0) with (hasId id0).
  rewrite filter_updated.
  destruct (filter (hasId id0) (invoices db)) as [|r0 rest] eqn:E.
  - exfalso. apply (proj2 (filter_none id0 (invoices db)) E r Hin Hid).
  - cbn [map fst snd invoices]. split; [reflexivity|]. split; [reflexivity|].
    unfold getInvoiceItems. cbn [invoiceItems].
    change (fun it : InvoiceItem => negb (String.eqb (item_invoiceId it) id0))
      with (fun it : InvoiceItem => negb (ofInvoice id0 it)).
    split.
    + apply (filter_kept_same id0).
    + intros id' Hne. now apply (filter_kept_other id0 id').
Qed.

Lemma X8_update_empty_items_witness :
  let db := exampleDatabase [exampleInvoice "i1" "INV-0001" 1] [] in
  fst (updateInvoice "i1" examplePayload (Some []) db)
  = Thrown "values() must be called with at least one value"
  /\ getInvoiceItems "i1" (snd (updateInvoice "i1" examplePayload (Some []) db))
     = [].
Proof.
  intros db.
  pose proof (X8_update_empty_items "i1" examplePayload db
                (exampleInvoice "i1" "INV-0001" 1)) as H.
  change (noValuesToSet examplePayload) with false in H.
  destruct H as (Hthrown & _ & Hitems & _).
  - now left.
  - reflexivity.
  - split; [exact Hthrown | exact Hitems].
Defined.

(** ** Saving an edited invoice *)

Module SaveFacts.
Import JS Storage InvoiceForm Statements StorageRest FormRest.
Import NumberFacts TotalsFacts StorageFacts InvoiceStoreFacts.

Lemma updateInvoice_existing_ne (id0 : string) (u : PartialInsertInvoice)
  (l : list InsertInvoiceItem) (db : Database) (r : Invoice) :
  In r (invoices db) -> id r = id0 -> l <> [] -> noValuesToSet u = false ->
  updateInvoice id0 u (Some l) db
  = (Returned (getInvoice id0 (updatedStore id0 u l db)),
     updatedStore id0 u l db).
Proof.
  intros Hin Hid Hl Hu. destruct l as [|a l]; [congruence|].
  now apply (updateInvoice_existing id0 u a l db r).
Qed.

(** The saved invoice: the first row of the id with the payload assigned, and
    the inserted rows. *)
Lemma savedInvoice_eq (inv : InvoiceWithClient) (data : InvoiceFormData)
  (db : Database) (r : Invoice) :
  In r (invoices db) -> id r = id (invoice inv) -> f_items data <> [] ->
  exists r0 u,
    In r0 (invoices db) /\ id r0 = id (invoice inv)
    /\ u_invoiceNumber u = None
    /\ totals_of (f_items data) u /\ total_consistent u
    /\ savedInvoice inv data db
       = Some {| invoice := set u r0;
                 client := find (fun c => String.eqb (clientId (set u r0))
                                                     (client_id c))
                                (clients db);
                 items := fst (insertItems (id (invoice inv))
                                 (create_calculatedItems (f_items data))
                                 (nextRowId db)) |}.
Proof.
  intros Hin Hid Hne. unfold savedInvoice. rewrite update_is_create.
  set (u := {| u_invoiceNumber := None;
               u_clientId := _; u_date := _; u_dueDate := _; u_status := _;
               u_currency := _; u_subtotal := _; u_taxAmount := _;
               u_discountAmount := _; u_total := _; u_notes := _ |}).
  change (snd (createInvoiceMutation None data))
    with (create_calculatedItems (f_items data)).
  assert (Hc : create_calculatedItems (f_items data) <> []).
  { unfold create_calculatedItems. destruct (f_items data); [congruence|].
    discriminate. }
  rewrite (updateInvoice_existing_ne _ u _ db r Hin Hid Hc eq_refl). cbn [fst].
  destruct (filter (hasId (id (invoice inv))) (invoices db)) as [|r0 rest] eqn:E.
  - exfalso. apply (proj2 (filter_none _ (invoices db)) E r Hin Hid).
  - rewrite (getInvoice_updated _ u _ db r0 rest E).
    assert (Hr0 : In r0 (filter (hasId (id (invoice inv))) (invoices db)))
      by (rewrite E; now left).
    apply filter_In in Hr0 as [Hr0 Hid0]. apply String.eqb_eq in Hid0.
    exists r0, u. repeat split; try assumption.
    + exact (proj1 (create_totals None data)).
    + exact (proj1 (proj2 (create_totals None data))).
    + exact (proj1 (proj2 (proj2 (create_totals None data)))).
    + exact (proj2 (proj2 (proj2 (create_totals None data)))).
    + exact (create_total_consistent None data).
Qed.

Lemma set_totals (items : list InvoiceItemData) (u : PartialInsertInvoice)
  (r : Invoice) :
  totals_of items u -> total_consistent u ->
  subtotal (set u r) = Number_toString (Spec.sum Spec.lineSubtotal items)
  /\ discountAmount (set u r) = Number_toString (Spec.sum Spec.discount items)
  /\ taxAmount (set u r) = Number_toString (Spec.sum Spec.tax items)
  /\ invoice_invariant (set u r).
Proof.
  intros (H1 & H2 & H3 & H4) Hc. unfold total_consistent in Hc.
  unfold invoice_invariant, set. cbn [subtotal discountAmount taxAmount total].
  rewrite H1, H2, H3 in *. cbn [orElse]. rewrite Hc. cbn [orElse].
  repeat split; reflexivity.
Qed.

(** A computed row keeps the line-item invariant on its strings. *)
Lemma calculated_row_invariant (item : InvoiceItemData) (c : InsertInvoiceItem) :
  In c (create_calculatedItems [item]) ->
  i_amount c
  = Number_toString
      (Spec.amount_formula (parseFloat (i_quantity c)) (parseFloat (i_rate c))
         (parseFloat (i_discountRate c)) (parseFloat (i_taxRate c))).
Proof.
  intros [<-|[]]. cbn [i_amount i_quantity i_rate i_discountRate i_taxRate].
  apply toString_canon. symmetry. exact (stored_amount item).
Qed.

Lemma calculated_rows_invariant (l : list InvoiceItemData) :
  Forall (fun c =>
            i_amount c
            = Number_toString
                (Spec.amount_formula (parseFloat (i_quantity c))
                   (parseFloat (i_rate c)) (parseFloat (i_discountRate c))
                   (parseFloat (i_taxRate c))))
         (create_calculatedItems l).
Proof.
  induction l as [|item l IH]; simpl; constructor; [|exact IH].
  apply (calculated_row_invariant item). now left.
Qed.

Lemma rows_invariant (rows : list InvoiceItem) (l : list InvoiceItemData) :
  map rowFields rows = create_calculatedItems l -> Forall row_invariant rows.
Proof.
  intros H. pose proof (calculated_rows_invariant l) as Hc. rewrite <- H in Hc.
  rewrite Forall_map in Hc. exact Hc.
Qed.

Lemma defaultItems_rows (iw : InvoiceWithClient) (l : list InvoiceItemData) :
  map rowFields (items iw) = create_calculatedItems l ->
  defaultItems (Some iw) = map Spec.stored l.
Proof.
  intros H. unfold defaultItems.
  transitivity (map (fun c => {| description := i_description c;
                                 quantity := parseFloat (i_quantity c);
                                 rate := parseFloat (i_rate c);
                                 taxRate := parseFloat (i_taxRate c);
                                 discountRate := parseFloat (i_discountRate c) |})
                    (map rowFields (items iw))).
  - rewrite map_map. reflexivity.
  - rewrite H. unfold create_calculatedItems. rewrite map_map. reflexivity.
Qed.

Lemma update_result_create (inv : InvoiceWithClient) (data : InvoiceFormData) :
  update_result inv data = create_result None data.
Proof. reflexivity. Qed.

(** The rows of a saved invoice. *)
Lemma saved_rows (inv : InvoiceWithClient)
  (data : InvoiceFormData) (db : Database) (r : Invoice) :
  In r (invoices db) -> id r = id (invoice inv) -> f_items data <> [] ->
  exists iw,
    savedInvoice inv data db = Some iw
    /\ map rowFields (items iw) = create_calculatedItems (f_items data)
    /\ Forall (fun it => item_invoiceId it = id (invoice inv)) (items iw)
    /\ Forall row_invariant (items iw).
Proof.
  intros Hin Hid Hne.
  destruct (savedInvoice_eq inv data db r Hin Hid Hne)
    as (r0 & u & _ & _ & _ & _ & _ & ->).
  eexists. split; [reflexivity|]. cbn [items].
  pose proof (insertItems_rows (id (invoice inv))
                (create_calculatedItems (f_items data)) (nextRowId db))
    as [Hrows Hall].
  split; [exact Hrows|]. split; [exact Hall|].
  now apply (rows_invariant _ (f_items data)).
Qed.


End SaveFacts.

Import SaveFacts.

(** X9: saving the form of an existing invoice stores the computed totals:
    the invoice that [updateInvoice] returns has the subtotal, discount and
    tax that are the sums over the items of the form, and its stored strings
    satisfy total = subtotal - discountAmount + taxAmount; its id and its
    number are those of the row before. *)
Theorem X9_saved_invoice_totals (inv : InvoiceWithClient)
  (data : InvoiceFormData) (db : Database) (r : Invoice) :
  In r (invoices db) -> id r = id (invoice inv) -> f_items data <> [] ->
  exists iw r0,
    savedInvoice inv data db = Some iw
    /\ In r0 (invoices db)
    /\ id (invoice iw) = id r0 /\ id r0 = id (invoice inv)
    /\ invoiceNumber (invoice iw) = invoiceNumber r0
    /\ subtotal (invoice iw)
       = Number_toString (Spec.sum Spec.lineSubtotal (f_items data))
    /\ discountAmount (invoice iw)
       = Number_toString (Spec.sum Spec.discount (f_items data))
    /\ taxAmount (invoice iw)
       = Number_toString (Spec.sum Spec.tax (f_items data))
    /\ invoice_invariant (invoice iw).
Proof.
  intros Hin Hid Hne.
  destruct (savedInvoice_eq inv data db r Hin Hid Hne)
    as (r0 & u & Hr0 & Hid0 & Hnum & Ht & Hc & ->).
  destruct (set_totals (f_items data) u r0 Ht Hc) as (H1 & H2 & H3 & H4).
  eexists. exists r0. split; [reflexivity|]. cbn [invoice].
  repeat split; try assumption.
  now apply set_keeps_number.
Qed.

Lemma X9_saved_invoice_totals_witness :
  exists iw,
    savedInvoice
      {| invoice := exampleInvoice "i1" "INV-0001" 1; client := None; items := [] |}
      (exampleData [exampleItem 2 100 18 0])
      (exampleDatabase [exampleInvoice "i1" "INV-0001" 1] [])
    = Some iw
    /\ invoice_invariant (invoice iw).
Proof.
  destruct (X9_saved_invoice_totals
              {| invoice := exampleInvoice "i1" "INV-0001" 1;
                 client := None; items := [] |}
              (exampleData [exampleItem 2 100 18 0])
              (exampleDatabase [exampleInvoice "i1" "INV-0001" 1] [])
              (exampleInvoice "i1" "INV-0001" 1))
    as (iw & r0 & H & _ & _ & _ & _ & _ & _ & _ & Hinv).
  - now left.
  - reflexivity.
  - discriminate.
  - exists iw. now split.
Defined.

(** X10: the item rows stored by saving an invoice are the computed rows, and
    each satisfies the line-item invariant on its own strings: its amount is
    the printed value of the formula over the quantity, rate, discount rate
    and tax rate read back from the row. *)
Theorem X10_saved_rows_invariant (inv : InvoiceWithClient)
  (data : InvoiceFormData) (db : Database) (r : Invoice) :
  In r (invoices db) -> id r = id (invoice inv) -> f_items data <> [] ->
  exists iw,
    savedInvoice inv data db = Some iw
    /\ map rowFields (items iw) = create_calculatedItems (f_items data)
    /\ Forall (fun it => item_invoiceId it = id (invoice inv)) (items iw)
    /\ Forall row_invariant (items iw).
Proof. apply saved_rows. Qed.

Lemma X10_saved_rows_invariant_witness :
  exists iw,
    savedInvoice
      {| invoice := exampleInvoice "i1" "INV-0001" 1; client := None; items := [] |}
      (exampleData [exampleItem 2 100 18 0])
      (exampleDatabase [exampleInvoice "i1" "INV-0001" 1] [])
    = Some iw
    /\ Forall row_invariant (items iw).
Proof.
  destruct (X10_saved_rows_invariant
              {| invoice := exampleInvoice "i1" "INV-0001" 1;
                 client := None; items := [] |}
              (exampleData [exampleItem 2 100 18 0])
              (exampleDatabase [exampleInvoice "i1" "INV-0001" 1] [])
              (exampleInvoice "i1" "INV-0001" 1))
    as (iw & H & _ & _ & Hinv).
  - now left.
  - reflexivity.
  - discriminate.
  - exists iw. now split.
Defined.

(** X11: opening a saved invoice in the form and saving it unchanged changes
    nothing in the money fields: the form's default items are the stored rows
    read back, and submitting them computes the same rows and the same
    subtotal, discountAmount, taxAmount and total as the save before. *)
Theorem X11_edit_round_trip (inv : InvoiceWithClient)
  (data : InvoiceFormData) (db : Database) (r : Invoice) :
  In r (invoices db) -> id r = id (invoice inv) -> f_items data <> [] ->
  exists iw,
    savedInvoice inv data db = Some iw
    /\ defaultItems (Some iw) = map Spec.stored (f_items data)
    /\ forall data',
         f_items data' = defaultItems (Some iw) ->
         update_calculatedItems (f_items data')
         = update_calculatedItems (f_items data)
         /\ update_result iw data' = update_result inv data.
Proof.
  intros Hin Hid Hne.
  destruct (saved_rows inv data db r Hin Hid Hne)
    as (iw & Hs & Hrows & _ & _).
  exists iw. split; [exact Hs|].
  pose proof (defaultItems_rows iw (f_items data) Hrows) as Hd.
  split; [exact Hd|].
  intros data' Hdata'. rewrite Hd in Hdata'. split.
  - rewrite Hdata'. apply create_calculatedItems_stored.
  - rewrite !update_result_create. now apply recompute_from_stored.
Qed.

Lemma X11_edit_round_trip_witness :
  exists iw,
    savedInvoice
      {| invoice := exampleInvoice "i1" "INV-0001" 1; client := None; items := [] |}
      (exampleData [exampleItem 2 100 18 0])
      (exampleDatabase [exampleInvoice "i1" "INV-0001" 1] [])
    = Some iw
    /\ defaultItems (Some iw)
       = map Spec.stored (f_items (exampleData [exampleItem 2 100 18 0])).
Proof.
  destruct (X11_edit_round_trip
              {| invoice := exampleInvoice "i1" "INV-0001" 1;
                 client := None; items := [] |}
              (exampleData [exampleItem 2 100 18 0])
              (exampleDatabase [exampleInvoice "i1" "INV-0001" 1] [])
              (exampleInvoice "i1" "INV-0001" 1))
    as (iw & H & Hd & _).
  - now left.
  - reflexivity.
  - discriminate.
  - exists iw. now split.
Defined.

(** ** Reading invoices *)

Module ReadFacts.
Import JS Storage InvoiceForm Statements StorageRest FormRest.
Import StorageFacts InvoiceStoreFacts.

Lemma filter_number_updated (u : PartialInsertInvoice) (id0 n : string)
  (l : list Invoice) :
  u_invoiceNumber u = None ->
  map identity
      (filter (fun r => String.eqb (invoiceNumber r) n)
              (map (fun r => if String.eqb (id r) id0 then set u r else r) l))
  = map identity (filter (fun r => String.eqb (invoiceNumber r) n) l).
Proof.
  intros Hu. induction l as [|a l IH]; simpl; [reflexivity|].
  assert (Ha : identity (if String.eqb (id a) id0 then set u a else a)
               = identity a).
  { destruct (String.eqb (id a) id0); [|reflexivity].
    unfold identity. rewrite (proj1 (set_keeps_number u a Hu)). reflexivity. }
  assert (Hn : invoiceNumber (if String.eqb (id a) id0 then set u a else a)
               = invoiceNumber a)
    by (unfold identity in Ha; congruence).
  rewrite Hn. destruct (String.eqb (invoiceNumber a) n); simpl.
  - rewrite Ha. f_equal. exact IH.
  - exact IH.
Qed.

Lemma insertDesc_perm (r : Invoice) (l : list Invoice) :
  Permutation (r :: l) (insertDesc r l).
Proof.
  induction l as [|h t IH]; simpl; [reflexivity|].
  destruct (createdAt h <=? createdAt r); [reflexivity|].
  rewrite perm_swap. now constructor.
Qed.

Lemma orderBy_perm (l : list Invoice) :
  Permutation l (orderByCreatedAtDesc l).
Proof.
  induction l as [|h t IH]; simpl; [constructor|].
  rewrite <- insertDesc_perm. now constructor.
Qed.

Lemma insertDesc_sorted (r : Invoice) (l : list Invoice) :
  Sorted (fun a b => createdAt b <= createdAt a) l ->
  Sorted (fun a b => createdAt b <= createdAt a) (insertDesc r l).
Proof.
  induction 1 as [|h t Hs IH Hhd]; simpl.
  - repeat constructor.
  - destruct (createdAt h <=? createdAt r) eqn:E.
    + apply Z.leb_le in E. constructor; [now constructor|].
      constructor. exact E.
    + apply Z.leb_gt in E. constructor; [exact IH|].
      destruct t as [|h' t']; simpl.
      * constructor. lia.
      * destruct (createdAt h' <=? createdAt r); constructor; [lia|].
        now inversion Hhd.
Qed.

Lemma orderBy_sorted (l : list Invoice) :
  Sorted (fun a b => createdAt b <= createdAt a) (orderByCreatedAtDesc l).
Proof.
  induction l as [|h t IH]; simpl; [constructor|].
  now apply insertDesc_sorted.
Qed.

End ReadFacts.

Import ReadFacts.

(** X12: [getInvoice] returns an invoice of the table that has the id asked
    for, together with exactly the item rows of that id and a client whose id
    is the invoice's clientId; it returns undefined exactly when no invoice
    has the id. *)
Theorem X12_getInvoice_sound (id0 : string) (db : Database) :
  (forall iw, getInvoice id0 db = Some iw ->
     In (invoice iw) (invoices db)
     /\ id (invoice iw) = id0
     /\ items iw = getInvoiceItems id0 db
     /\ (forall it, In it (items iw) <->
                    In it (invoiceItems db) /\ item_invoiceId it = id0)
     /\ (forall c, client iw = Some c ->
                   In c (clients db) /\ client_id c = clientId (invoice iw)))
  /\ (getInvoice id0 db = None <-> forall r, In r (invoices db) -> id r <> id0).
Proof.
  unfold getInvoice.
  change (fun r : Invoice => String.eqb (id r) id0) with (hasId id0).
  destruct (filter (hasId id0) (invoices db)) as [|r0 rest] eqn:E.
  - split; [discriminate|].
    split; [intros _; now apply filter_none | reflexivity].
  - assert (Hr0 : In r0 (filter (hasId id0) (invoices db)))
      by (rewrite E; now left).
    apply filter_In in Hr0 as [Hr0 Hid0]. apply String.eqb_eq in Hid0.
    split.
    + intros iw [= <-]. cbn [invoice items client].
      split; [exact Hr0|]. split; [exact Hid0|]. split; [reflexivity|]. split.
      * intros it. unfold getInvoiceItems. rewrite filter_In, String.eqb_eq.
        reflexivity.
      * intros c Hc. apply find_some in Hc as [Hc1 Hc2].
        apply String.eqb_eq in Hc2. split; [exact Hc1 | congruence].
    + split; [discriminate|].
      intros H. exfalso. apply (H r0 Hr0 Hid0).
Qed.

Lemma X12_getInvoice_sound_witness :
  getInvoice "i2" (exampleDatabase [exampleInvoice "i1" "INV-0001" 1] []) = None.
Proof.
  apply (proj2 (X12_getInvoice_sound "i2"
                  (exampleDatabase [exampleInvoice "i1" "INV-0001" 1] []))).
  intros r [<-|[]]. discriminate.
Defined.

(** X13: an update that carries no invoiceNumber never changes which invoice
    a number resolves to: [getInvoiceByNumber] finds an invoice of the same id
    and number before and after [updateInvoice]. *)
Theorem X13_number_lookup_stable (n id0 : string) (u : PartialInsertInvoice)
  (items : option (list InsertInvoiceItem)) (db : Database) :
  u_invoiceNumber u = None ->
  option_map (fun iw => identity (invoice iw))
             (getInvoiceByNumber n (snd (updateInvoice id0 u items db)))
  = option_map (fun iw => identity (invoice iw)) (getInvoiceByNumber n db)
  /\ (forall iw, getInvoiceByNumber n db = Some iw ->
                 invoiceNumber (invoice iw) = n).
Proof.
  intros Hu. split.
  - unfold getInvoiceByNumber. rewrite updateInvoice_invoices.
    pose proof (filter_number_updated u id0 n (invoices db) Hu) as H.
    destruct (filter _ (map _ (invoices db))) as [|a l];
      destruct (filter _ (invoices db)) as [|b l']; cbn [map] in H;
      try discriminate H; [reflexivity|].
    cbn [option_map invoice]. congruence.
  - intros iw. unfold getInvoiceByNumber.
    destruct (filter _ (invoices db)) as [|b l'] eqn:E; [discriminate|].
    intros [= <-]. cbn [invoice].
    assert (Hb : In b (filter (fun r => String.eqb (invoiceNumber r) n)
                              (invoices db))) by (rewrite E; now left).
    apply filter_In in Hb as [_ Hb]. now apply String.eqb_eq.
Qed.

Lemma X13_number_lookup_stable_witness :
  option_map (fun iw => identity (invoice iw))
    (getInvoiceByNumber "INV-0001"
       (snd (updateInvoice "i1" exampleUpdate None
               (exampleDatabase [exampleInvoice "i1" "INV-0001" 1] []))))
  = Some ("i1", "INV-0001").
Proof.
  apply (proj1 (X13_number_lookup_stable "INV-0001" "i1" exampleUpdate None
                  (exampleDatabase [exampleInvoice "i1" "INV-0001" 1] [])
                  eq_refl)).
Defined.

(** X14: [getInvoices] lists every invoice of the table exactly once, the
    most recently created first, each with the item rows of its own id. *)
Theorem X14_getInvoices_all_newest_first (db : Database) :
  Permutation (invoices db) (map invoice (getInvoices db))
  /\ Sorted (fun a b => createdAt b <= createdAt a)
            (map invoice (getInvoices db))
  /\ Forall (fun iw => items iw = getInvoiceItems (id (invoice iw)) db
                       /\ client iw = joinClient (invoice iw) db)
            (getInvoices db).
Proof.
  assert (H : map invoice (getInvoices db) = orderByCreatedAtDesc (invoices db)).
  { unfold getInvoices. rewrite map_map. cbn [invoice]. apply map_id. }
  rewrite H. split; [apply orderBy_perm|]. split; [apply orderBy_sorted|].
  unfold getInvoices. apply Forall_map. apply Forall_forall.
  intros r _. cbn [items invoice client]. split; reflexivity.
Qed.

(** ** More on the invoice numbering *)

Module NumberingFacts.
Import JS Storage InvoiceForm Statements StorageRest.
Import NumberFacts StorageFacts.

Lemma length_append (a b : string) :
  String.length (a ++ b) = (String.length a + String.length b)%nat.
Proof. induction a as [|c a IH]; simpl; [reflexivity | now rewrite IH]. Qed.

Lemma length_repeat0 (k : nat) : String.length (repeat0 k) = k.
Proof. induction k as [|k IH]; simpl; [reflexivity | now rewrite IH]. Qed.

Lemma allDigits_app (a b : string) :
  Spec.allDigits (a ++ b) = Spec.allDigits a && Spec.allDigits b.
Proof.
  induction a as [|c a IH]; simpl; [reflexivity|].
  now rewrite IH, andb_assoc.
Qed.

Lemma allDigits_repeat0 (k : nat) : Spec.allDigits (repeat0 k) = true.
Proof. induction k as [|k IH]; simpl; [reflexivity | exact IH]. Qed.

Lemma digitsValue_repeat0 (k : nat) (s : string) :
  Spec.digitsValue 0 (repeat0 k ++ s) = Spec.digitsValue 0 s.
Proof. induction k as [|k IH]; simpl; [reflexivity | exact IH]. Qed.

(** Padding keeps a string of digits a string of digits of the same value. *)
Lemma padStart0_digits (s : string) :
  Spec.allDigits s = true ->
  Spec.allDigits (padStart0 s 4) = true
  /\ Spec.digitsValue 0 (padStart0 s 4) = Spec.digitsValue 0 s
  /\ (4 <= String.length (padStart0 s 4))%nat.
Proof.
  intros H. unfold padStart0.
  destruct (4 <=? String.length s)%nat eqn:E.
  - apply Nat.leb_le in E. split; [exact H | split; [reflexivity | exact E]].
  - apply Nat.leb_gt in E. split; [|split].
    + now rewrite allDigits_app, allDigits_repeat0.
    + apply digitsValue_repeat0.
    + rewrite length_append, length_repeat0. lia.
Qed.

Lemma replace_absent (s p r : string) :
  includes s p = false -> replace s p r = s.
Proof.
  induction s as [|c s IH]; cbn [includes replace].
  - destruct (String.prefix p EmptyString); intros H;
      [discriminate H | reflexivity].
  - destruct (String.prefix p (String c s)); intros H; [discriminate H|].
    now rewrite IH.
Qed.

Lemma parseInt_empty : parseInt EmptyString = NaN.
Proof. reflexivity. Qed.

(** A string that begins with a letter does not read as an integer. *)
Lemma parseInt_letter (c : ascii) (s : string) :
  isLetter c = true -> parseInt (String c s) = NaN.
Proof.
  intros Hc. destruct c as [b0 b1 b2 b3 b4 b5 b6 b7].
  destruct b0, b1, b2, b3, b4, b5, b6, b7; try discriminate Hc;
    destruct s as [|c2 [|c3 s3]]; reflexivity.
Qed.

Lemma not_digit (c : ascii) :
  Spec.isDigit c = false -> digitValue 10 c = None.
Proof. unfold Spec.isDigit, digitValue. intros ->. reflexivity. Qed.

(** The digits are read up to the first character that is not one. *)
Lemma parseDigits_stop (ds : string) (c : ascii) (rest : string) (acc : N) :
  Spec.allDigits ds = true -> Spec.isDigit c = false ->
  parseDigits 10 (ds ++ String c rest) (Some acc)
  = Some (Spec.digitsValue acc ds).
Proof.
  intros Hds Hc. revert acc. induction ds as [|d ds IH]; intros acc.
  - simpl. now rewrite (not_digit c Hc).
  - simpl in Hds. apply andb_prop in Hds as [Hd Hds].
    cbn [append parseDigits Spec.digitsValue].
    rewrite (digitValue_digit d Hd). now apply IH.
Qed.

(** [parseInt] on a string that begins with a digit reads decimal digits,
    unless it begins with "0x" or "0X". *)
Lemma parseInt_digit_head (d : ascii) (t : string) :
  Spec.isDigit d = true ->
  (forall t', t <> String "x" t' /\ t <> String "X" t') ->
  parseInt (String d t)
  = match parseDigits 10 (String d t) None with
    | None => NaN
    | Some N0 => S754_zero false
    | Some (Npos p) => ofZ (Zpos p)
    end.
Proof.
  intros Hd Hx. destruct d as [b0 b1 b2 b3 b4 b5 b6 b7].
  destruct b0, b1, b2, b3, b4, b5, b6, b7; try discriminate Hd;
    try (destruct t as [|c2 [|c3 t3]]; reflexivity).
  destruct t as [|c2 t2]; [reflexivity|].
  destruct c2 as [b0 b1 b2 b3 b4 b5 b6 b7].
  destruct b0, b1, b2, b3, b4, b5, b6, b7;
    try (destruct t2 as [|c3 t3]; reflexivity);
    exfalso; destruct (Hx t2) as [H1 H2]; congruence.
Qed.

Lemma parseInt_digits_then (ds : string) (c : ascii) (rest : string) :
  ds <> EmptyString -> Spec.allDigits ds = true ->
  Spec.isDigit c = false -> c <> "x"%char -> c <> "X"%char ->
  parseInt (ds ++ String c rest) = ofZ (Z.of_N (Spec.digitsValue 0 ds)).
Proof.
  intros Hne Hds Hc Hx HX. destruct ds as [|d ds]; [congruence|].
  simpl in Hds. apply andb_prop in Hds as [Hd Hds].
  cbn [append]. rewrite parseInt_digit_head; [|exact Hd|].
  - cbn [parseDigits]. rewrite (digitValue_digit d Hd).
    rewrite (parseDigits_stop ds c rest _ Hds Hc).
    cbn [Spec.digitsValue]. rewrite <- ofZ_of_N.
    destruct (Spec.digitsValue _ ds); reflexivity.
  - intros t'. destruct ds as [|d2 ds]; cbn [append].
    + split; congruence.
    + simpl in Hds. apply andb_prop in Hds as [Hd2 _].
      split; intros [= -> _]; discriminate Hd2.
Qed.

End NumberingFacts.

Import NumberingFacts.

(** X15: while the numbers stay below 2^53, a number that
    [getNextInvoiceNumber] returns is again the prefix followed by at least
    four digits, and these denote one more than the digits of the last
    number; so, with an unchanged prefix, the call after an invoice of that
    number was created returns the number after it. *)
Theorem X15_numbers_count_up (db : Database) (last : Invoice) (ds : string) :
  lastInvoice db = [last] ->
  invoiceNumber last = configuredPrefix db ++ ds ->
  ds <> EmptyString ->
  Spec.allDigits ds = true ->
  (Spec.digitsValue 0 ds + 1 < 2 ^ 53)%N ->
  (exists s,
      getNextInvoiceNumber db = configuredPrefix db ++ s
      /\ Spec.allDigits s = true
      /\ (4 <= String.length s)%nat
      /\ Spec.digitsValue 0 s = (Spec.digitsValue 0 ds + 1)%N)
  /\ (forall db2 last2,
        lastInvoice db2 = [last2] ->
        configuredPrefix db2 = configuredPrefix db ->
        invoiceNumber last2 = getNextInvoiceNumber db ->
        getNextInvoiceNumber db2
        = configuredPrefix db
          ++ padStart0 (decimal (Spec.digitsValue 0 ds + 2)) 4).
Proof.
  intros Hlast Hnumber Hne Hdigits Hsafe.
  assert (Hnext : getNextInvoiceNumber db
                  = configuredPrefix db
                    ++ padStart0 (decimal (Spec.digitsValue 0 ds + 1)) 4)
    by (apply (next_number_exact db last ds); try assumption; lia).
  destruct (padStart0_digits (decimal (Spec.digitsValue 0 ds + 1))
              (allDigits_decimal _)) as (Ha & Hv & Hl).
  rewrite digitsValue_decimal in Hv.
  split.
  - exists (padStart0 (decimal (Spec.digitsValue 0 ds + 1)) 4).
    repeat split; assumption.
  - intros db2 last2 Hlast2 Hprefix Hnumber2.
    rewrite Hnext, <- Hprefix in Hnumber2.
    rewrite (next_number_exact db2 last2 _ Hlast2 Hnumber2).
    + rewrite Hv, Hprefix. do 3 f_equal. lia.
    + intros E. rewrite E in Hl. simpl in Hl. lia.
    + exact Ha.
    + rewrite Hv. exact Hsafe.
Qed.

Lemma X15_numbers_count_up_witness :
  getNextInvoiceNumber
    (exampleDatabase
       [exampleInvoice "i1" "INV-0009" 1;
        exampleInvoice "i2"
          (getNextInvoiceNumber
             (exampleDatabase [exampleInvoice "i1" "INV-0009" 1] [])) 2] [])
  = "INV-0011".
Proof.
  apply (proj2 (X15_numbers_count_up
                  (exampleDatabase [exampleInvoice "i1" "INV-0009" 1] [])
                  (exampleInvoice "i1" "INV-0009" 1) "0009"
                  eq_refl eq_refl ltac:(discriminate) eq_refl eq_refl)
           (exampleDatabase
              [exampleInvoice "i1" "INV-0009" 1;
               exampleInvoice "i2"
                 (getNextInvoiceNumber
                    (exampleDatabase [exampleInvoice "i1" "INV-0009" 1] [])) 2] [])
           (exampleInvoice "i2" "INV-0010" 2));
    reflexivity.
Defined.

(** X16: when nothing or a letter follows the prefix in the last invoice
    number, the next number is the prefix followed by "0NaN": the suffix does
    not read as an integer and the padded "NaN" is returned. *)
Theorem X16_no_digits_after_prefix (db : Database) (last : Invoice)
  (rest : string) :
  lastInvoice db = [last] ->
  invoiceNumber last = configuredPrefix db ++ rest ->
  rest = EmptyString
  \/ (exists c s, rest = String c s /\ isLetter c = true) ->
  getNextInvoiceNumber db = configuredPrefix db ++ "0NaN".
Proof.
  intros Hlast Hnumber Hrest.
  unfold getNextInvoiceNumber. rewrite Hlast, Hnumber, replace_prefix.
  assert (Hnan : parseInt rest = NaN).
  { destruct Hrest as [->|(c & s & -> & Hc)];
      [apply parseInt_empty | now apply parseInt_letter]. }
  rewrite Hnan. reflexivity.
Qed.

Lemma X16_no_digits_after_prefix_witness :
  getNextInvoiceNumber
    (exampleDatabase [exampleInvoice "i1" "INV-A17" 1] [])
  = "INV-0NaN".
Proof.
  apply (X16_no_digits_after_prefix
           (exampleDatabase [exampleInvoice "i1" "INV-A17" 1] [])
           (exampleInvoice "i1" "INV-A17" 1) "A17" eq_refl eq_refl).
  right. exists "A"%char, "17". split; reflexivity.
Defined.

(** X17: after the prefix has changed, the numbering does not continue: when
    the configured prefix does not occur in the last invoice number and that
    number begins with a letter, the next number is the new prefix followed
    by "0NaN". *)
Theorem X17_prefix_changed (db : Database) (last : Invoice) (c : ascii)
  (s : string) :
  lastInvoice db = [last] ->
  invoiceNumber last = String c s ->
  isLetter c = true ->
  includes (invoiceNumber last) (configuredPrefix db) = false ->
  getNextInvoiceNumber db = configuredPrefix db ++ "0NaN".
Proof.
  intros Hlast Hnumber Hc Habsent.
  unfold getNextInvoiceNumber.
  rewrite Hlast, (replace_absent _ _ _ Habsent), Hnumber.
  rewrite (parseInt_letter c s Hc). reflexivity.
Qed.

Lemma X17_prefix_changed_witness :
  getNextInvoiceNumber
    (exampleDatabase [exampleInvoice "i1" "INV-0042" 1]
                     [{| key := "invoice_prefix"; value := "BILL-" |}])
  = "BILL-0NaN".
Proof.
  apply (X17_prefix_changed
           (exampleDatabase [exampleInvoice "i1" "INV-0042" 1]
                            [{| key := "invoice_prefix"; value := "BILL-" |}])
           (exampleInvoice "i1" "INV-0042" 1) "I"%char "NV-0042");
    reflexivity.
Defined.

(** X18: what follows the digits of the last invoice number is dropped: when
    the number is the prefix, digits, and then text that begins with a
    character other than a digit, "x" and "X", the next number is computed
    from the digits alone and carries none of that text. *)
Theorem X18_text_after_digits_dropped (db : Database) (last : Invoice)
  (ds : string) (c : ascii) (rest : string) :
  lastInvoice db = [last] ->
  invoiceNumber last = configuredPrefix db ++ ds ++ String c rest ->
  ds <> EmptyString ->
  Spec.allDigits ds = true ->
  Spec.isDigit c = false -> c <> "x"%char -> c <> "X"%char ->
  (Spec.digitsValue 0 ds < 2 ^ 53)%N ->
  getNextInvoiceNumber db
  = configuredPrefix db ++ padStart0 (decimal (Spec.digitsValue 0 ds + 1)) 4.
Proof.
  intros Hlast Hnumber Hne Hdigits Hc Hx HX Hsafe.
  unfold getNextInvoiceNumber. rewrite Hlast, Hnumber, replace_prefix.
  rewrite (parseInt_digits_then ds c rest Hne Hdigits Hc Hx HX).
  assert (Hz : 0 <= Z.of_N (Spec.digitsValue 0 ds) < 2 ^ 53).
  { split; [lia|]. change (2 ^ 53) with (Z.of_N (2 ^ 53)). lia. }
  rewrite add_one by exact Hz.
  rewrite toString_ofZ by lia.
  do 3 f_equal. lia.
Qed.

Lemma X18_text_after_digits_dropped_witness :
  getNextInvoiceNumber
    (exampleDatabase [exampleInvoice "i1" "INV-0042-B" 1] [])
  = "INV-0043".
Proof.
  apply (X18_text_after_digits_dropped
           (exampleDatabase [exampleInvoice "i1" "INV-0042-B" 1] [])
           (exampleInvoice "i1" "INV-0042-B" 1) "0042" "-"%char "B");
    try reflexivity; discriminate.
Defined.

(** ** The form *)

Module FormFacts.
Import JS Storage InvoiceForm Statements StorageRest FormRest.
Import NumberFacts TotalsFacts ValidationFacts.
Local Open Scope js_scope.

Lemma orZero_canon (x : number) :
  isNaN x = false -> canonZero (orZero x) = canonZero x.
Proof. destruct x; simpl; intros H; try reflexivity; discriminate H. Qed.

Lemma add_zero_canon (x : number) : canonZero (x + ofZ 0) = canonZero x.
Proof. destruct x as [[]|[]| |[] ? ?]; reflexivity. Qed.

(** The display sums the derivation of the items as it reads them. *)
Lemma totals_fold (l : list InvoiceItemData) (acc : Totals) :
  fold_left
    (fun acc item =>
       {| t_subtotal := t_subtotal acc + Spec.lineSubtotal (shown item);
          t_discount := t_discount acc + Spec.discount (shown item);
          t_tax := t_tax acc + Spec.tax (shown item) |})
    l acc
  = {| t_subtotal :=
         fold_left (fun s it => s + Spec.lineSubtotal (shown it)) l (t_subtotal acc);
       t_discount :=
         fold_left (fun s it => s + Spec.discount (shown it)) l (t_discount acc);
       t_tax :=
         fold_left (fun s it => s + Spec.tax (shown it)) l (t_tax acc) |}.
Proof.
  revert acc. induction l as [|a l IH]; intros acc; simpl.
  - destruct acc; reflexivity.
  - rewrite IH. reflexivity.
Qed.

Lemma totals_sums (l : list InvoiceItemData) :
  totals l
  = {| t_subtotal := Spec.sum (fun it => Spec.lineSubtotal (shown it)) l;
       t_discount := Spec.sum (fun it => Spec.discount (shown it)) l;
       t_tax := Spec.sum (fun it => Spec.tax (shown it)) l |}.
Proof. exact (totals_fold l _). Qed.

Lemma fold_add_compat_in {A : Type} (g g' : A -> number) (l : list A) :
  (forall a, In a l -> canonZero (g a) = canonZero (g' a)) ->
  forall acc acc', canonZero acc = canonZero acc' ->
  canonZero (fold_left (fun s a => s + g a) l acc)
  = canonZero (fold_left (fun s a => s + g' a) l acc').
Proof.
  induction l as [|a l IH]; intros Hg acc acc' Hacc; simpl.
  - exact Hacc.
  - apply IH.
    + intros b Hb. apply Hg. now right.
    + apply add_compat; [exact Hacc | apply Hg; now left].
Qed.

Section Shown.
Variable item : InvoiceItemData.
Hypothesis Hitem : noNaN item = true.

Lemma noNaN_fields :
  isNaN (quantity item) = false /\ isNaN (rate item) = false
  /\ isNaN (taxRate item) = false /\ isNaN (discountRate item) = false.
Proof.
  unfold noNaN in Hitem. rewrite !andb_true_iff, !negb_true_iff in Hitem.
  tauto.
Qed.

Lemma shown_lineSubtotal :
  canonZero (Spec.lineSubtotal (shown item)) = canonZero (Spec.lineSubtotal item).
Proof.
  destruct noNaN_fields as (Hq & Hr & _).
  unfold Spec.lineSubtotal; simpl. apply mul_compat; now apply orZero_canon.
Qed.

Lemma shown_discount :
  canonZero (Spec.discount (shown item)) = canonZero (Spec.discount item).
Proof.
  destruct noNaN_fields as (_ & _ & _ & Hd).
  unfold Spec.discount. apply div_compat, mul_compat.
  - apply shown_lineSubtotal.
  - simpl. now apply orZero_canon.
Qed.

Lemma shown_tax :
  canonZero (Spec.tax (shown item)) = canonZero (Spec.tax item).
Proof.
  destruct noNaN_fields as (_ & _ & Ht & _).
  unfold Spec.tax, Spec.afterDiscount. apply div_compat, mul_compat.
  - apply sub_compat; [apply shown_lineSubtotal | apply shown_discount].
  - simpl. now apply orZero_canon.
Qed.
End Shown.

Lemma sum_shown (f : InvoiceItemData -> number) (l : list InvoiceItemData) :
  (forall item, noNaN item = true ->
                canonZero (f (shown item)) = canonZero (f item)) ->
  Forall (fun item => noNaN item = true) l ->
  canonZero (Spec.sum (fun item => f (shown item)) l) = canonZero (Spec.sum f l).
Proof.
  intros Hf Hl. unfold Spec.sum. apply fold_add_compat_in; [|reflexivity].
  intros a Ha. apply Hf. rewrite Forall_forall in Hl. now apply Hl.
Qed.

(** The numbers of the display of items without NaN are, up to the sign of a
    zero, the numbers that the request prints. *)
Lemma totals_request (next : option string) (data : InvoiceFormData) :
  Forall (fun item => noNaN item = true) (f_items data) ->
  payload_totals (fst (createInvoiceMutation next data))
  = Some (Number_toString (t_subtotal (totals (f_items data))),
          Number_toString (t_discount (totals (f_items data))),
          Number_toString (t_tax (totals (f_items data))),
          Number_toString (grandTotal (f_items data))).
Proof.
  intros Hl. destruct (create_totals next data) as (H1 & H2 & H3 & H4).
  unfold payload_totals. rewrite H1, H2, H3, H4.
  unfold grandTotal. rewrite totals_sums.
  cbn [t_subtotal t_discount t_tax].
  pose proof (sum_shown _ _ shown_lineSubtotal Hl) as Hs.
  pose proof (sum_shown _ _ shown_discount Hl) as Hd.
  pose proof (sum_shown _ _ shown_tax Hl) as Ht.
  f_equal. f_equal; [f_equal; [f_equal|]|];
    apply toString_canon; symmetry; auto with canon.
Qed.

(** A blank row adds three zeros. *)
Lemma totals_blank (fields : list InvoiceItemData) :
  sameTotals (fields ++ [blankItem]) fields.
Proof.
  unfold sameTotals, SameValueZero, grandTotal, totals. rewrite fold_left_app.
  cbn [fold_left t_subtotal t_discount t_tax].
  fold (totals fields).
  change (orZero (quantity blankItem) * orZero (rate blankItem)) with (ofZ 0).
  change (ofZ 0 * orZero (discountRate blankItem) / ofZ 100) with (ofZ 0).
  change ((ofZ 0 - ofZ 0) * orZero (taxRate blankItem) / ofZ 100) with (ofZ 0).
  repeat split;
    repeat (apply add_compat || apply sub_compat); apply add_zero_canon.
Qed.

(** The sign of a zero does not show in a comparison with 0, so the panel is
    drawn alike from numbers that agree up to it. *)
Lemma gtb_canon (x : number) : gtb (canonZero x) (ofZ 0) = gtb x (ofZ 0).
Proof. destruct x as [[]|[]| |[] ? ?]; reflexivity. Qed.

Lemma canonPanel_panelOf (a b c d : number) :
  canonPanel (panelOf a b c d)
  = panelOf (canonZero a) (canonZero b) (canonZero c) (canonZero d).
Proof.
  unfold canonPanel, panelOf. cbn [panel_subtotal panel_tax panel_discount
    panel_total]. rewrite !gtb_canon.
  destruct (gtb c (ofZ 0)), (gtb b (ofZ 0)); reflexivity.
Qed.

Lemma panel_same (l l' : list InvoiceItemData) :
  sameTotals l l' -> canonPanel (totalsPanel l) = canonPanel (totalsPanel l').
Proof.
  unfold sameTotals, SameValueZero, totalsPanel. intros (H1 & H2 & H3 & H4).
  rewrite !canonPanel_panelOf, H1, H2, H3, H4. reflexivity.
Qed.

(** The blank row of the form is parsed into the blank item. *)
Lemma blankItem_coerce : coerceItem blankValues = blankItem.
Proof. reflexivity. Qed.

Lemma length_remove (i : nat) (l : list InvoiceItemData) :
  (List.length l <= S (List.length (remove i l)))%nat.
Proof.
  revert i. induction l as [|a l IH]; intros i; simpl; [lia|].
  destruct i as [|i]; simpl; [lia|]. specialize (IH i). lia.
Qed.

Lemma remove_at (i : nat) (l : list InvoiceItemData) :
  remove i l = (firstn i l ++ skipn (S i) l)%list.
Proof.
  revert i. induction l as [|a l IH]; intros i; simpl.
  - destruct i; reflexivity.
  - destruct i as [|i]; simpl; [reflexivity|]. now rewrite IH.
Qed.

Lemma act_nonempty (a : RowAction) (l : list InvoiceItemData) :
  l <> [] -> act l a <> [].
Proof.
  intros Hl. destruct a as [|i]; simpl.
  - unfold handleAddItem. destruct l; discriminate.
  - unfold handleRemoveItem.
    destruct (1 <? List.length l)%nat eqn:E; [|exact Hl].
    apply Nat.ltb_lt in E. pose proof (length_remove i l) as Hr.
    intros H. rewrite H in Hr. simpl in Hr. lia.
Qed.

Lemma orString_nonempty (a : option string) (c : ascii) (s : string) :
  orString a (String c s) <> EmptyString.
Proof. destruct a as [[|c' s']|]; discriminate. Qed.

End FormFacts.

Import FormFacts ValidationFacts.

(** X19: for items none of whose numbers is NaN (in particular for items that
    pass validation), the totals panel beside the form is drawn from the
    numbers of the request: up to the sign of a zero, the numbers it hands to
    [formatCurrency] are those that the subtotal, discountAmount, taxAmount
    and total sent by the create path denote, and its Tax and Discount lines
    are rendered exactly when the taxAmount and discountAmount sent are
    above 0. *)
Theorem X19_panel_numbers_are_sent (next : option string)
  (data : InvoiceFormData) :
  Forall (fun item => noNaN item = true) (f_items data) ->
  exists s d t g,
    payload_totals (fst (createInvoiceMutation next data)) = Some (s, d, t, g)
    /\ canonPanel (totalsPanel (f_items data))
       = panelOf (parseFloat s) (parseFloat d) (parseFloat t) (parseFloat g).
Proof.
  intros H. rewrite (totals_request next data H).
  do 4 eexists. split; [reflexivity|].
  unfold totalsPanel. rewrite canonPanel_panelOf, !parseFloat_toString.
  reflexivity.
Qed.

Lemma X19_panel_numbers_are_sent_witness :
  exists s d t g,
    payload_totals
      (fst (createInvoiceMutation None (exampleData [exampleItem 2 100 18 10])))
    = Some (s, d, t, g)
    /\ canonPanel (totalsPanel [exampleItem 2 100 18 10])
       = panelOf (parseFloat s) (parseFloat d) (parseFloat t) (parseFloat g).
Proof.
  apply (X19_panel_numbers_are_sent None
           (exampleData [exampleItem 2 100 18 10])).
  repeat constructor.
Defined.

(** X20: a row added by [handleAddItem] does not change the totals beside the
    form: its undefined quantity and rate count as 0, so that the subtotal,
    discount, tax and grand total are the same numbers as before, up to the
    sign of a zero, and the panel is drawn from the same numbers, with the
    same lines. *)
Theorem X20_blank_row_adds_nothing (fields : list InvoiceItemData) :
  sameTotals (handleAddItem fields) fields
  /\ canonPanel (totalsPanel (handleAddItem fields))
     = canonPanel (totalsPanel fields).
Proof.
  split; [apply totals_blank | apply panel_same, totals_blank].
Qed.

(** X21: the rows of the form never run out: a form starts with one row,
    [handleRemoveItem] removes the row at its index unless it is the only row,
    and after any sequence of additions and removals at least one row is
    left. *)
Theorem X21_rows_never_empty :
  defaultItems None <> []
  /\ (forall index fields,
        (1 < List.length fields)%nat -> (index < List.length fields)%nat ->
        handleRemoveItem index fields
        = (firstn index fields ++ skipn (S index) fields)%list
        /\ S (List.length (handleRemoveItem index fields)) = List.length fields)
  /\ (forall index field, handleRemoveItem index [field] = [field])
  /\ (forall actions fields,
        fields <> [] -> fold_left act actions fields <> []).
Proof.
  split; [discriminate|]. split; [|split].
  - intros index fields Hlen Hidx. unfold handleRemoveItem.
    apply Nat.ltb_lt in Hlen as E. rewrite E, remove_at. split; [reflexivity|].
    rewrite length_app, length_firstn, length_skipn. lia.
  - reflexivity.
  - intros actions. induction actions as [|a actions IH]; intros fields Hf.
    + exact Hf.
    + simpl. apply IH. now apply act_nonempty.
Qed.

Lemma X21_rows_never_empty_witness :
  fold_left act [RemoveItem 0; AddItem; RemoveItem 1; RemoveItem 0]
            (defaultItems None)
  <> [].
Proof.
  apply (proj2 (proj2 (proj2 X21_rows_never_empty))).
  discriminate.
Defined.

(** X22: every request that a submission builds is well formed.  The form
    was accepted, so it has at least one item and every item is accepted; the
    request has one computed row per item and totals with
    total = subtotal - discountAmount + taxAmount.  For a new invoice it is a
    POST whose invoiceNumber is the non-empty number shown in the form; for an
    existing invoice it is a PUT to that invoice's id, without an
    invoiceNumber. *)
Theorem X22_requests_well_formed (invoice : option InvoiceWithClient)
  (next : option string) (data : InvoiceFormData) (out : Outcome Request) :
  handleSubmit invoice next data = Some out ->
  (f_items data <> []
   /\ Forall Spec.accepted (f_items data)
   /\ f_clientId data <> EmptyString)
  /\ match invoice with
     | None =>
         exists p rows,
           out = Returned (POST_invoices p rows)
           /\ u_invoiceNumber p = Some (shownInvoiceNumber None next)
           /\ shownInvoiceNumber None next <> EmptyString
           /\ List.length rows = List.length (f_items data)
           /\ total_consistent p
     | Some inv =>
         exists p rows,
           out = Returned (PUT_invoice (id (Storage.invoice inv)) p rows)
           /\ u_invoiceNumber p = None
           /\ List.length rows = List.length (f_items data)
           /\ total_consistent p
     end.
Proof.
  unfold handleSubmit. destruct (invoiceFormSchema data) eqn:E; [|discriminate].
  intros [= <-]. unfold invoiceFormSchema in E.
  rewrite !andb_true_iff in E. destruct E as ((((Hc & _) & _) & Hne) & Hall).
  split.
  - split; [destruct (f_items data); [discriminate Hne | discriminate]|].
    split.
    + apply Forall_forall. intros item Hin. apply invoiceItemSchema_accepted.
      rewrite forallb_forall in Hall. now apply Hall.
    + now apply stringMin1_nonempty.
  - destruct invoice as [inv|]; unfold onSubmit.
    + rewrite update_is_create. eexists. eexists.
      split; [reflexivity|]. split; [reflexivity|]. split.
      * unfold createInvoiceMutation, create_calculatedItems. cbn [snd].
        apply length_map.
      * exact (create_total_consistent None data).
    + eexists. eexists.
      split; [reflexivity|]. split; [reflexivity|]. split; [|split].
      * apply orString_nonempty.
      * unfold create_calculatedItems. apply length_map.
      * exact (create_total_consistent next data).
Qed.

Lemma X22_requests_well_formed_witness :
  exists out,
    handleSubmit None (Some "INV-0002") (exampleData [exampleItem 2 100 18 0])
    = Some out
    /\ Forall Spec.accepted (f_items (exampleData [exampleItem 2 100 18 0])).
Proof.
  eexists. split; [vm_compute; reflexivity|].
  eapply (X22_requests_well_formed None (Some "INV-0002")
            (exampleData [exampleItem 2 100 18 0])).
  vm_compute. reflexivity.
Defined.

(** ** The preview *)

(** X24: the preview agrees with the other two paths on values that are
    filled in.  With a client selected, whenever the preview gets through,
    its per-item amounts are those that the create path computes from the
    parsed data; and when every quantity and rate of the form is a number or a
    text that is a decimal literal, the preview returns, with the per-item
    amounts and the subtotal, discountAmount, taxAmount and total of the
    create path.  The update path computes what the create path computes. *)
Theorem X24_preview_agrees_when_filled (clients : list Client) (c : Client)
  (inv : option InvoiceWithClient) (inv' : InvoiceWithClient)
  (next : option string) (random : nat -> number) (now : Z)
  (values : FormValues) :
  find (fun c => String.eqb (client_id c) (v_clientId values)) clients = Some c ->
  (forall amounts totals,
      preview_result clients inv next random now values
      = Returned (Some (amounts, totals)) ->
      amounts = map i_amount (create_calculatedItems (f_items (coerce values))))
  /\ (Forall (fun item => filledItem item = true) (v_items values) ->
      preview_result clients inv next random now values
      = Returned (create_result next (coerce values)))
  /\ update_result inv' (coerce values) = create_result next (coerce values).
Proof.
  intros Hc. unfold preview_result, handlePreview. rewrite Hc.
  split; [|split; [|reflexivity]].
  - intros amounts totals.
    destruct (preview_calculatedItems random (v_items values)) as [rows|] eqn:E;
      [|discriminate].
    cbn [andThen option_map p_items]. intros [= <- _].
    apply preview_amounts, (preview_rows_of random), E.
  - intros Hf. destruct (preview_defined random (v_items values) Hf) as [rows E].
    rewrite E. cbn [andThen option_map p_items p_invoice subtotal discountAmount
      taxAmount total].
    pose proof (preview_rows_of random _ _ E) as Hrows.
    destruct (preview_sums _ _ Hf Hrows) as (Hs & Hd & Ht).
    unfold create_result, createInvoiceMutation, payload_totals.
    cbn [u_subtotal u_discountAmount u_taxAmount u_total option_map snd coerce
      f_items].
    rewrite (preview_amounts _ _ Hrows).
    do 3 f_equal. f_equal; [f_equal; [f_equal|]|]; apply toString_canon;
      auto with canon.
Qed.

Lemma X24_preview_agrees_when_filled_witness :
  let values :=
    exampleValues
      [typedItem "2" "100" 18 0;
       {| v_description := "Hours"; v_quantity := Num (ofDecimal 15 (-1));
          v_rate := Text "80.50"; v_taxRate := ofZ 18; v_discountRate := ofZ 10 |}] in
  preview_result [exampleClient] None None (fun _ => ofZ 0) 0 values
  = Returned (create_result None (coerce values)).
Proof.
  intros values.
  apply (X24_preview_agrees_when_filled [exampleClient] exampleClient None
           {| invoice := exampleInvoice "i1" "INV-0001" 1;
              client := None; items := [] |}
           None (fun _ => ofZ 0) 0 values).
  - reflexivity.
  - repeat constructor.
Defined.

(** ** The dashboard *)

Module DashboardFacts.
Import JS Storage StorageRest.

Lemma count_paid_sent (l : list Invoice) :
  (List.length (filter (fun r => isPaid (status r)) l)
   + List.length (filter (fun r => isSent (status r)) l)
   + List.length (filter (fun r => negb (isPaid (status r))
                                   && negb (isSent (status r))) l)
   = List.length l)%nat.
Proof.
  induction l as [|a l IH]; simpl; [reflexivity|].
  destruct (status a); simpl; lia.
Qed.

Lemma no_other_status (l : list Invoice) :
  filter (fun r => negb (isPaid (status r)) && negb (isSent (status r))) l = []
  <-> Forall (fun r => status r = paid \/ status r = sent) l.
Proof.
  induction l as [|a l IH]; simpl.
  - split; constructor.
  - destruct (status a) eqn:E; simpl; split; intros H;
      try discriminate H;
      try (constructor; [rewrite E; tauto | now apply IH]);
      try (inversion H as [|? ? [Hs|Hs] Hl]; subst; rewrite E in Hs;
           try discriminate Hs; now apply IH).
Qed.

End DashboardFacts.

Import DashboardFacts.

(** X23: on the dashboard, paid and pending invoices together never exceed
    the total, whatever the database sums as revenue: pending counts the
    invoices of status 'sent' only, so draft and overdue invoices appear in
    the total alone, and the three counts add up exactly when every invoice is
    paid or sent. *)
Theorem X23_dashboard_counts (sqlSum : list NumericString -> string)
  (db : Database) :
  let stats := getDashboardStats sqlSum db in
  (paidInvoices stats + pendingInvoices stats <= totalInvoices stats)%nat
  /\ ((paidInvoices stats + pendingInvoices stats = totalInvoices stats)%nat
      <-> Forall (fun r => status r = paid \/ status r = sent) (invoices db))
  /\ totalInvoices stats = List.length (invoices db)
  /\ totalClients stats = List.length (clients db).
Proof.
  cbn [getDashboardStats paidInvoices pendingInvoices totalInvoices totalClients].
  pose proof (count_paid_sent (invoices db)) as Hc.
  split; [lia|]. split; [|split; reflexivity].
  rewrite <- no_other_status.
  destruct (filter (fun r => negb (isPaid (status r)) && negb (isSent (status r)))
                   (invoices db)) as [|a l]; simpl in Hc.
  - split; [reflexivity | lia].
  - split; [lia | discriminate].
Qed.
